(* ===== verification/_CoqProject ===== *)
-Q . S2P
Prelude.v
JsString.v
BlockTiming.v
Transfers.v
Scaling.v
Tvl.v
Registry.v
Webhook.v
Fetcher.v
Init.v
EasyTrigger.v
App.v
