(* ===== verification/Prelude.v ===== *)
(** * alert-hub: a verification development of the transfer-ingestion and TVL pipeline

    The program (TypeScript: Express, the Alchemy SDK, Redis) watches the ETH
    and ERC-20 movements of monitored contracts.  A watch request
    ([POST /alert/init], src/routes/alert/index.ts) anchors a block
    ([getCurrentBlock]), fetches the recent history in both directions
    ([getTransferEvents]), reconstructs a running balance per token
    ([addCurrentTokenBalances]), stores the transfers, creates an Alchemy
    webhook and registers the contract ([addMonitoredContract]).  From then
    on the webhook ([POST /alchemy/address-activity],
    src/routes/alchemy/index.ts) delivers new activity, which is resolved to
    the contract by its webhook id, normalised and stored under [uniqueId].

    Files, leaves first (each but this one holds one [Module] named after
    it):

    - [Prelude] (this file): the [outcome] monad that models a JS [async]
      function (it resolves, [Ok], or rejects with an [Error] message,
      [Throw]), with stdpp's [MRet]/[MBind] instances and the notations
      [throw], [catch], [await] in [alerthub_scope]; the tactics [invc],
      [vm_decide], [outcome_inv]; the hint databases [alerthub] and
      [alerthub_rw]; generic lemmas on [mapM], lists and options; lodash's
      [_.groupBy] ([groupBy]) with its characterisation by [filter].
    - [JsString]: the JavaScript and web3 primitives the code calls:
      [split], [includes], [padStart], [pop], [arr[i]], [n.toString()],
      [BigInt(str)], [web3.utils.toHex], [web3.utils.hexToNumber] (strict
      hex) and the mathematical value of a decimal literal, with their
      round trips ([hexToNumber_toHex], [BigInt_of_toString]) and the
      pieces [split] makes of a string with one separator
      ([js_split_two], [js_split_once]).
    - [BlockTiming]: [getCurrentBlock] and [getNumOfBlocks] of
      src/plugins/eth-data/transfer-events.ts.  The latest block is an
      input and the delay slept is an output, so the time at which the code
      resumes is explicit; [expected_time] is the 12-second schedule the
      code assumes.
    - [Transfers]: [CleanTransfers], [RawContract], the SDK's
      [AssetTransfersCategory] and [AssetTransfersResult], [cleanTransfers];
      the transfer objects live in a [heap] ([gmap] from locations), since
      the arrays [getTransferEvents] returns share the objects that
      [addCurrentTokenBalances] mutates; [alloc_spec] shows the objects
      [cleanTransfers] creates are fresh and distinct.
    - [Scaling]: [bigintHexToNumber]: [BigInt] as [Z], [10 ** decimals]
      rounded to the nearest double ([round_to_double]), the literal built
      with [padStart], and [Number(...)] of it rounded to the nearest
      double ([round_Q]).
    - [Tvl]: [addCurrentTokenBalances]: flow tagging, token discovery, the
      balance snapshot through the interface [BalanceProvider] (the three
      [alchemy.core] calls), the stable [_.sortBy] and [reverse], and the
      walk that writes [tvl] into the shared objects.  Section [Run] proves
      the walk's closed form once, under the hypotheses every run shares
      (distinct locations, all in the heap, the snapshot succeeds), and
      reads it back from the final heap alone ([run_final_closed_form]):
      the walk changes only [tvl], so the order, the entries and the
      snapshot are those of the returned objects.
    - [Registry]: src/plugins/db/monitored-contracts.ts over the Redis JSON
      store as a [gmap string MCDoc]; Section [Concurrent] runs two upserts
      as threads whose get and set steps interleave ([upsert_step]).
    - [Webhook]: the [POST /address-activity] handler, reading the registry
      at two instants (before and after the 100 ms retry);
      [addAssetTransfersWithLastTvl] of plugins/db/asset-transfers (not
      among the sources) is the interface [AssetTransferStore], with the
      specification's storage promises as its laws, so that the handler's
      theorems hold for every implementation.
    - [Fetcher]: [timeRangeToMinutes], the paging loop of
      [getAllAssetTransfers] against the interface [TransferProvider],
      [getInflowAndOutflow], [getTransferEvents] with its [catch] and its
      result (the two arrays, their [_.groupBy] by asset as [perToken],
      the snapshot), and [addTvlToTransfers].  It composes [Transfers]
      and [Tvl]: [getTransferEvents_objects] discharges the hypotheses of
      [Tvl]'s Section [Run] from the allocation.
    - [Init]: the [POST /alert/init] handler of src/routes/alert/index.ts
      over a [World] of the three stores and the transfer objects, with
      [initAlertDefinitions] of src/plugins/db/alert-definition.ts and the
      webhook creation of src/plugins/alchemy/index.ts (the interface
      [WebhookProvider]); the [catch] answers 500 with the world as the
      failing step left it.
    - [EasyTrigger]: the [POST /easy-trigger/:triggerId] handler of
      src/routes/easy-trigger/index.ts with its allowlist check, the store
      of src/plugins/db/easy-trigger.ts, and [executeTrigger] of
      src/plugins/web3-interactions/index.ts; the WHATWG [URL] class and
      the ethers contract call are the interfaces [URLParser] and
      [ChainProvider].
    - [App]: src/app.ts and src/routes/index.ts: one request through
      [express.json], the three mounts and their [router.post] routes, and
      the handler the route selects, over the stores the routers share
      ([AppState]).  It composes [Init], [Webhook] and [EasyTrigger].

    What the theorems show (the claim ids of the doc comments):
    - C1-C3 (Tvl): the closed form of the TVL the code writes, its
      recurrence, and the per-token first record: the walk adds the
      record's own flow where the specification undoes the later record's
      flow, and only the global first record receives the snapshot (on
      the specification's scenario of §8, 5.0 where it expects 6.0).
    - C4, C5 (Fetcher, end to end): what [getTransferEvents] returns:
      fresh distinct objects holding the fetched records with their tags,
      each with the closed-form [tvl] read from the returned objects, and
      per-asset groups, present exactly for the assets the records have,
      that hold the records of each asset, in order, as the same objects.
    - C6, C28, C36 (App): the specification's data flow through the
      whole app, a watch registration followed by a webhook delivery for
      its webhook id; the append-only stores along every sequence of
      requests (rule induction on [rtc app_step]); and the stores each
      route may write.
    - C7, C8 (Scaling): for at most 22 decimals the result is the double
      nearest to [n / 10^decimals] (so the exact round trip of the
      specification fails at 18 decimals), and exactness of
      [BigInt(10 ** d)] exactly up to 22 (the first inexact case,
      [bigintHexToNumber_inexact_23], is kept as a lemma).
    - C9-C14, C26, C32, C33 (Registry): webhook binding and lookup, the
      store invariant, idempotence and the timestamp bump on
      re-registration, the reachable lost update of two concurrent
      registrations, the invariant on every interleaving (rule induction
      on [rtc upsert_step]) and that every interleaving can still finish,
      the document [updateMonitoredContract] leaves for an unknown
      contract, and the refinement of the specification's upsert over an
      abstract registry of user sets ([abstract], [spec_upsert]).
    - C15-C17, C27 (Webhook): the registration race resolved by the
      retry, the unmatched failure, the [uniqueId] of internal calls
      (the text after the first ["call_"], so that distinct traces
      collide), and the template-literal id of token logs, which still
      determines the hash and the log index.
    - C18-C21, C25 (Fetcher): termination of the paging loop, the query
      window, [InvalidTimeRange] swallowed, the insufficient-history
      error, the accuracy of estimated timestamps (the error surface as a
      whole is the lemma [getTransferEvents_errors]).
    - C22-C24 (BlockTiming): the anchor's margin before the next block,
      the 7 s (not 10 s) guarantee, the late-block case.
    - C29-C31 (Init): the partial writes left by a failed webhook
      creation, every history error answered as an unknown error, and
      alert seeding idempotent while the search's first page of 10 sees
      every alert of the user (past it a duplicate is written, the lemma
      [initAlertDefinitions_duplicate_past_page]; the successful
      registration and the 400 answer to an invalid body are the lemmas
      [alert_init_success] and [alert_init_validation]; C6 covers the
      former through the app).
    - C34, C35 (EasyTrigger): the allowlist decided by a client-supplied
      header, and the all-or-nothing effect of a request.

    Fuel and bounds.  The only loop that need not terminate is the
    [do … while (pageKey)] of [getAllAssetTransfers]: [fetch_pages] takes
    fuel and answers [None] when it runs out; [fetch_pages_complete] shows
    that every finite page chain (the big-step relation [paginate]) is
    fetched by every fuel from its length on, and [fetch_pages_sound] that
    what it returns is what the chain denotes.  The walk and the sort
    recurse structurally.  [split] recurses with fuel [length s + 1], which
    bounds its character steps.

    Numbers.  JS [number]s that carry token amounts are exact rationals
    [Q], compared with [Qeq] through the setoid [≡] on [option Q] ([None]
    for [undefined]/[NaN]); the rounding of float additions is not
    modelled.  Where exactness is the point the theorems are about
    integers ([BigInt] as [Z]), and the float operations of the scaling
    whose rounding matters, [10 ** decimals] and the final [Number(...)],
    are rounded to the nearest double (53-bit significand, ties to
    even).  Block
    numbers and millisecond timestamps are [Z]; the two [new Date()] reads
    of one request are read as one instant.

    Not modelled: the Discord plugin (src/plugins/discord/index.ts is
    entirely commented out), the construction of the ethers provider,
    wallet and contract objects and of the Alchemy clients (I/O behind
    the provider interfaces), the full WHATWG URL parser (only its law for
    plain host names is used), [app.listen] and the [decodeURIComponent]
    of route parameters (a Section variable of [App]), logging and
    [console] output (and the easy-trigger [resultMessage], which is only
    logged), and inherited properties of the [timeRanges] object (an
    inherited key such as ["constructor"] is not a number, the NaN block
    bound it yields makes [web3.utils.toHex] throw, and [getTransferEvents]
    rejects with "An unknown error occurred." as for any unknown range). *)

From Stdlib Require Export ZArith QArith Lqa.
From stdpp Require Export base list gmap strings.

Declare Scope alerthub_scope.
Delimit Scope alerthub_scope with ah.
Open Scope alerthub_scope.

(** ** Outcome of a JS async function *)

(** A promise that resolves to [a] ([Ok a]) or rejects with an [Error]
    whose [message] is [m] ([Throw m]). *)
Inductive outcome (A : Type) : Type :=
| Ok (a : A)
| Throw (msg : string).
Arguments Ok {A} a.
Arguments Throw {A} msg.

#[export] Instance outcome_ret : MRet outcome := λ A a, Ok a.
#[export] Instance outcome_bind : MBind outcome :=
  λ A B k c, match c with Ok a => k a | Throw m => Throw m end.
#[export] Instance outcome_fmap : FMap outcome :=
  λ A B f c, match c with Ok a => Ok (f a) | Throw m => Throw m end.

(** [try { c } catch (err) { h(err.message) }] *)
Definition try_catch {A} (c : outcome A) (h : string → outcome A) : outcome A :=
  match c with Ok a => Ok a | Throw m => h m end.

Notation "'throw' m" := (Throw m) (at level 10) : alerthub_scope.
Notation "c 'catch' h" := (try_catch c h) (at level 60) : alerthub_scope.

(** [await] of a promise that cannot reject. *)
Notation "'await' c" := (c : outcome _) (at level 10, only parsing) : alerthub_scope.

(** The value of a computation known to succeed ([d] otherwise); used to
    name the results of concrete runs. *)
Definition ok_or {A} (d : A) (o : outcome A) : A := match o with Ok a => a | Throw _ => d end.

Lemma outcome_bind_ok {A B} (a : A) (k : A → outcome B) : (Ok a ≫= k) = k a.
Proof. reflexivity. Qed.

Lemma outcome_bind_throw {A B} m (k : A → outcome B) : (Throw m ≫= k) = Throw m.
Proof. reflexivity. Qed.

Lemma outcome_bind_Ok_inv {A B} (c : outcome A) (k : A → outcome B) b :
  (c ≫= k) = Ok b → ∃ a, c = Ok a ∧ k a = Ok b.
Proof. destruct c; simpl; [eauto | discriminate]. Qed.

Lemma outcome_bind_Throw_inv {A B} (c : outcome A) (k : A → outcome B) m :
  (c ≫= k) = Throw m → c = Throw m ∨ ∃ a, c = Ok a ∧ k a = Throw m.
Proof. destruct c; simpl; [eauto | intros [= ->]; auto]. Qed.

Create HintDb alerthub.
Create Rewrite HintDb alerthub_rw.
#[export] Hint Rewrite @outcome_bind_ok @outcome_bind_throw : alerthub_rw.

(** [Promise.all(xs.map(f))]: every promise is awaited; the first rejection
    in list order is the result (the model runs them in list order). *)
Lemma mapM_outcome_Ok {A B} (f : A → outcome B) (l : list A) (k : list B) :
  mapM f l = Ok k ↔ Forall2 (λ x y, f x = Ok y) l k.
Proof.
  revert k. induction l as [|x l IH]; intros k; simpl.
  - split; [intros [= <-]; constructor | intros H; inversion H; done].
  - destruct (f x) as [y|m] eqn:Hf; simpl.
    + destruct (mapM f l) as [k'|m'] eqn:Hl; simpl.
      * split.
        -- intros [= <-]. constructor; [done | by apply IH].
        -- intros H. inversion H as [|? y' ? k'' Hy Hk]; subst.
           rewrite Hf in Hy. injection Hy as <-.
           apply IH in Hk. by injection Hk as <-.
      * split; [discriminate|].
        intros H. inversion H as [|? ? ? k'' _ Hk]; subst.
        apply IH in Hk. discriminate.
    + split; [discriminate|]. intros H. inversion H; subst. congruence.
Qed.

Lemma mapM_outcome_length {A B} (f : A → outcome B) l k :
  mapM f l = Ok k → length k = length l.
Proof. intros H. apply mapM_outcome_Ok in H. symmetry. by eapply Forall2_length. Qed.

(** Every result of a successful [mapM] comes from an input. *)
Lemma mapM_outcome_elem {A B} (f : A → outcome B) l k y :
  mapM f l = Ok k → y ∈ k → ∃ x, x ∈ l ∧ f x = Ok y.
Proof.
  rewrite mapM_outcome_Ok. intros H. revert y. induction H as [|x y' l k Hxy _ IH]; intros y Hy.
  - by apply elem_of_nil in Hy.
  - apply elem_of_cons in Hy as [->|Hy]; [exists x; split; [left | done]|].
    destruct (IH y Hy) as (x' & ? & ?). exists x'. split; [by right | done].
Qed.

(** ** Tactics shared by the development *)

Ltac invc H := inversion H; subst; clear H.

(** Close a decidable goal about concrete data by evaluation. *)
Ltac vm_decide := apply (bool_decide_unpack _); vm_compute; reflexivity.

(** Split the binds of an [outcome] computation that is known to succeed. *)
Ltac outcome_inv :=
  repeat match goal with
  | H : (_ ≫= _) = Ok _ |- _ =>
      apply outcome_bind_Ok_inv in H; destruct H as (? & ? & ?)
  | H : Ok _ = Ok _ |- _ => injection H as H; subst
  | H : Throw _ = Ok _ |- _ => discriminate H
  | H : Ok _ = Throw _ |- _ => discriminate H
  end.

(** ** Generic lemmas on lists and options *)

Lemma Forall_filter_sub {A} (P : A → Prop) `{∀ x, Decision (P x)} (Q : A → Prop) l :
  Forall Q l → Forall Q (filter P l).
Proof. rewrite !Forall_forall. intros HQ x [_ Hx]%list_elem_of_filter. auto. Qed.

#[export] Hint Resolve Forall_filter_sub : alerthub.

(** ** lodash's [_.groupBy] *)

(** [_.groupBy(array, key)]: lodash's [arrayAggregator] visits the array
    in order and, for an element whose key the result already owns, pushes
    it onto that key's array, and otherwise assigns the key a new array
    [[x]].  The result is an object with own keys only, a map here. *)
Definition groupBy {A} (key : A → string) (l : list A) : gmap string (list A) :=
  foldl (λ acc x, <[key x := default [] (acc !! key x) ++ [x]]> acc) ∅ l.

Lemma groupBy_foldl_lookup {A} (key : A → string) l (acc : gmap string (list A)) k :
  (∀ k', acc !! k' ≠ Some []) →
  foldl (λ acc x, <[key x := default [] (acc !! key x) ++ [x]]> acc) acc l !! k =
    match default [] (acc !! k) ++ filter (λ x, key x = k) l with [] => None | xs => Some xs end.
Proof.
  revert acc. induction l as [|x l IH]; intros acc Hne; simpl.
  - rewrite app_nil_r. destruct (acc !! k) as [[|y ys]|] eqn:E; [by apply Hne in E | done | done].
  - rewrite IH; last first.
    { intros k'. destruct (decide (key x = k')) as [<-|Hk].
      - rewrite lookup_insert_eq. by destruct (default _ _).
      - rewrite lookup_insert_ne by done. apply Hne. }
    rewrite filter_cons. destruct (decide (key x = k)) as [<-|Hk].
    + rewrite lookup_insert_eq. simpl. by rewrite <- app_assoc.
    + by rewrite lookup_insert_ne.
Qed.

(** The group of key [k] is the subsequence of the elements with key [k];
    a key no element has is absent. *)
Lemma groupBy_lookup {A} (key : A → string) l k :
  groupBy key l !! k =
    match filter (λ x, key x = k) l with [] => None | xs => Some xs end.
Proof. unfold groupBy. by rewrite groupBy_foldl_lookup by done. Qed.

(** Every element lies in the group of its key, and only there. *)
Lemma groupBy_elem {A} (key : A → string) l k xs x :
  groupBy key l !! k = Some xs → x ∈ xs ↔ x ∈ l ∧ key x = k.
Proof.
  rewrite groupBy_lookup. intros Hk.
  assert (xs = filter (λ x, key x = k) l) as -> by (by destruct (filter _ l); simplify_eq).
  rewrite list_elem_of_filter. tauto.
Qed.

(** A group related element-wise to a list [r]: present and non-empty
    exactly when [r] is not empty. *)
Lemma groupBy_lookup_Forall2 {A B} (key : A → string) (R : A → B → Prop) l k (r : list B) :
  Forall2 R (filter (λ x, key x = k) l) r →
  match groupBy key l !! k with Some xs => xs ≠ [] ∧ Forall2 R xs r | None => r = [] end.
Proof.
  rewrite groupBy_lookup. destruct (filter _ l) as [|x xs]; [by inversion 1 | done].
Qed.

(** Filtering two related lists by predicates that agree on related elements. *)
Lemma Forall2_filter {A B} (R : A → B → Prop) (P : A → Prop) (Q : B → Prop)
    `{∀ x, Decision (P x)} `{∀ y, Decision (Q y)} l k :
  Forall2 R l k → (∀ x y, R x y → P x ↔ Q y) → Forall2 R (filter P l) (filter Q k).
Proof.
  induction 1 as [|x y l k Hxy _ IH]; intros HPQ; [constructor|].
  rewrite !filter_cons. specialize (HPQ x y Hxy) as Hiff.
  repeat case_decide; try tauto. constructor; auto.
Qed.

(** ** Stores that only grow *)

(** A fold whose every step keeps the keys of the map keeps them all. *)
Lemma dom_foldl_mono `{Countable K} {V B} (f : gmap K V → B → gmap K V) (m : gmap K V) l :
  (∀ m x, dom m ⊆ dom (f m x)) → dom m ⊆ dom (foldl f m l).
Proof.
  intros Hf. revert m. induction l as [|x l IH]; intros m; simpl; [done|].
  etrans; [apply Hf | apply IH].
Qed.

Lemma dom_insert_mono `{Countable K} {V} (m : gmap K V) k v : dom m ⊆ dom (<[k := v]> m).
Proof. rewrite dom_insert_L. set_solver. Qed.

#[export] Hint Resolve dom_insert_mono : alerthub.
