(* ===== verification/JsString.v ===== *)
(** * JavaScript and web3 string primitives used by alert-hub

    The code builds and takes apart strings in four places: Redis keys
    ([`monitoredContract:${addr}`] and [doc.id.split(':').pop()]), the
    webhook's [uniqueId] ([hash + ':internal:' + trace.split('call_')[1]]),
    block numbers through [web3.utils.toHex] / [hexToNumber], and the decimal
    rendering of [bigintHexToNumber].  These are library functions, modelled
    from their documented behaviour: [js_split] is [String.prototype.split]
    with a non-empty separator, [js_pop] is [Array.prototype.pop] on a fresh
    array, [padStart] is [String.prototype.padStart] with a one-character
    filler, [N_toString] is [BigInt.prototype.toString()], [BigInt_of_string]
    is [BigInt(str)] on a decimal string, [toHex] and [hexToNumber] are
    web3-utils v4's [numberToHex] and [hexToNumber] (strict hex with a [0x]
    prefix, case-insensitive digits), and [Number_of_decimal] is the
    mathematical value that [Number(str)] rounds, of a literal [digits] or
    [digits.digits] (the rounding is [Scaling.round_Q]). *)

From S2P Require Import Prelude.
From Stdlib Require Import Ascii DecimalString HexadecimalString DecimalN HexadecimalN.

Local Open Scope string_scope.

(** ** Generic string lemmas *)

(** stdpp makes [String.append] opaque to [simpl]; these two equations
    are its computation rules. *)
Lemma string_app_nil_l (t : string) : "" +:+ t = t.
Proof. reflexivity. Qed.

Lemma string_app_cons c (s t : string) : String c s +:+ t = String c (s +:+ t).
Proof. reflexivity. Qed.

Lemma string_app_nil_r (s : string) : s +:+ "" = s.
Proof. induction s as [|c s IH]; [done | by rewrite string_app_cons, IH]. Qed.

Lemma string_app_assoc (a b c : string) : a +:+ (b +:+ c) = (a +:+ b) +:+ c.
Proof. induction a as [|x a IH]; [done | by rewrite !string_app_cons, IH]. Qed.

Lemma string_length_app (a b : string) :
  String.length (a +:+ b) = String.length a + String.length b.
Proof. induction a as [|x a IH]; [done | rewrite string_app_cons; simpl; lia]. Qed.

#[export] Hint Rewrite string_app_nil_l string_app_cons string_app_nil_r string_length_app : alerthub_rw.

Lemma last_cons_Some {A} (x : A) l a : last l = Some a → last (x :: l) = Some a.
Proof. destruct l; simpl; [discriminate | done]. Qed.

(** ** [String.prototype.split], [includes], [Array.prototype.pop] *)

(** The suffix of [s] after its first [n] characters. *)
Fixpoint sdrop (n : nat) (s : string) : string :=
  match n, s with
  | O, _ => s
  | S n', String _ s' => sdrop n' s'
  | S _, EmptyString => EmptyString
  end.

(** Scan [s], accumulating the current piece in [cur]; at every position
    where [sep] starts, close the piece and skip the separator.  [fuel]
    bounds the number of characters consumed ([String.length s + 1] is
    enough, see [js_split_aux_fuel]). *)
Fixpoint split_aux (fuel : nat) (sep s cur : string) : list string :=
  match fuel with
  | O => [cur +:+ s]
  | S f =>
      match s with
      | EmptyString => [cur]
      | String c s' =>
          if String.prefix sep s
          then cur :: split_aux f sep (sdrop (String.length sep) s) ""
          else split_aux f sep s' (cur +:+ String c "")
      end
  end.

(** ['a:b'.split(':')] with a non-empty separator; the empty separator
    splits into single characters. *)
Definition js_split (sep s : string) : list string :=
  match sep with
  | EmptyString => (λ c, String c "") <$> String.list_ascii_of_string s
  | _ => split_aux (S (String.length s)) sep s ""
  end.

(** [arr.pop()] on a fresh array returns its last element, or [undefined]. *)
Definition js_pop (l : list string) : option string := last l.

(** [arr[i]]: [undefined] out of range. *)
Definition js_index (l : list string) (i : nat) : option string := l !! i.

(** [s.includes(sub)] *)
Definition includes (s sub : string) : bool :=
  match String.index 0 sub s with Some _ => true | None => false end.

(** Whether the character [c] occurs in [s]. *)
Fixpoint has_char (c : Ascii.ascii) (s : string) : bool :=
  match s with
  | EmptyString => false
  | String d s' => if Ascii.ascii_dec c d then true else has_char c s'
  end.

(** Whether [sub] occurs in [s], at some position. *)
Fixpoint occurs (sub s : string) : bool :=
  String.prefix sub s ||
  match s with
  | EmptyString => false
  | String _ s' => occurs sub s'
  end.

(** No proper non-empty suffix of [sep] is a prefix of it, so that two
    occurrences of [sep] never overlap. *)
Definition unbordered (sep : string) : bool :=
  forallb (λ k, negb (String.prefix (sdrop k sep) sep)) (seq 1 (String.length sep - 1)).

(** [s.padStart(n, fill)] with a one-character [fill]. *)
Definition padStart (s : string) (n : nat) (fill : Ascii.ascii) : string :=
  String.string_of_list_ascii (replicate (n - String.length s) fill) +:+ s.

(** ** Numbers and their renderings *)

(** [n.toString()] for a non-negative [BigInt]. *)
Definition N_toString (n : N) : string :=
  DecimalString.NilEmpty.string_of_uint (N.to_uint n).

(** [BigInt.prototype.toString()]: decimal, with a leading [-] when negative. *)
Definition Z_toString (z : Z) : string :=
  if decide (z < 0)%Z then "-" +:+ N_toString (Z.to_N (- z)) else N_toString (Z.to_N z).

Definition parse_N_decimal (s : string) : option N :=
  N.of_uint <$> DecimalString.NilEmpty.uint_of_string s.

(** [BigInt(s)] on a string of decimal digits with an optional leading [-]
    (the empty string is [0n]); a [SyntaxError] otherwise. *)
Definition BigInt_of_string (s : string) : outcome Z :=
  match s with
  | String "-" rest =>
      match rest, parse_N_decimal rest with
      | String _ _, Some n => Ok (- Z.of_N n)%Z
      | _, _ => throw ("Cannot convert " +:+ s +:+ " to a BigInt")
      end
  | _ =>
      match parse_N_decimal s with
      | Some n => Ok (Z.of_N n)
      | None => throw ("Cannot convert " +:+ s +:+ " to a BigInt")
      end
  end.

Definition lower_char (c : Ascii.ascii) : Ascii.ascii :=
  let n := Ascii.nat_of_ascii c in
  if decide (65 ≤ n ≤ 90)%nat then Ascii.ascii_of_nat (n + 32) else c.

Fixpoint lower (s : string) : string :=
  match s with
  | EmptyString => EmptyString
  | String c s' => String (lower_char c) (lower s')
  end.

(** Lower-case hexadecimal digits of [n], without prefix. *)
Definition N_toHexDigits (n : N) : string :=
  HexadecimalString.NilEmpty.string_of_uint (N.to_hex_uint n).

(** [web3.utils.toHex(n)] on an integer [number]. *)
Definition toHex (z : Z) : string :=
  if decide (z < 0)%Z then "-0x" +:+ N_toHexDigits (Z.to_N (- z))
  else "0x" +:+ N_toHexDigits (Z.to_N z).

Definition parse_hex_digits (s : string) : option N :=
  match s with
  | EmptyString => None
  | _ => N.of_hex_uint <$> HexadecimalString.NilEmpty.uint_of_string (lower s)
  end.

(** [web3.utils.hexToNumber(s)]: the strict form [(-)?0x[0-9a-f]+] or the
    bare [0x], case-insensitively; anything else is rejected. *)
Definition hexToNumber (s : string) : outcome Z :=
  match s with
  | String "0" (String x rest) =>
      if decide (lower_char x = "x"%char) then
        match rest with
        | EmptyString => Ok 0%Z
        | _ => match parse_hex_digits rest with
               | Some n => Ok (Z.of_N n)
               | None => throw ("value " +:+ s +:+ " not valid hex")
               end
        end
      else throw ("value " +:+ s +:+ " not valid hex")
  | String "-" (String "0" (String x rest)) =>
      if decide (lower_char x = "x"%char) then
        match parse_hex_digits rest with
        | Some n => Ok (- Z.of_N n)%Z
        | None => throw ("value " +:+ s +:+ " not valid hex")
        end
      else throw ("value " +:+ s +:+ " not valid hex")
  | _ => throw ("value " +:+ s +:+ " not valid hex")
  end.

(** [Number(s)] on a decimal literal [I] or [I.F] (both digit strings,
    [I] non-empty); [None] stands for [NaN]. *)
Definition Number_of_decimal (s : string) : option Q :=
  match js_split "." s with
  | [i] => match DecimalString.NilEmpty.uint_of_string i with
           | Some di => if decide (i = "") then None else Some (Qmake (Z.of_N (N.of_uint di)) 1)
           | None => None
           end
  | [i; f] =>
      match DecimalString.NilEmpty.uint_of_string i,
            DecimalString.NilEmpty.uint_of_string f with
      | Some di, Some df =>
          if decide (i = "") then None
          else Some (Qmake (Z.of_N (N.of_uint di)) 1
                     + Qmake (Z.of_N (N.of_uint df)) (Z.to_pos (10 ^ Z.of_nat (String.length f))))%Q
      | _, _ => None
      end
  | _ => None
  end.

(** ** Splitting *)

Lemma has_char_app c (a b : string) :
  has_char c (a +:+ b) = has_char c a || has_char c b.
Proof.
  induction a as [|d a IH]; [done|].
  rewrite string_app_cons; simpl. by destruct (Ascii.ascii_dec c d).
Qed.

(** A string without the separator is one piece. *)
Lemma split_aux_no_sep c (s cur : string) f :
  String.length s < f → has_char c s = false →
  split_aux f (String c "") s cur = [cur +:+ s].
Proof.
  revert f cur. induction s as [|d s IH]; intros [|f] cur Hf Hc; simpl in *; try lia.
  - by rewrite string_app_nil_r.
  - destruct (Ascii.ascii_dec c d); [discriminate|].
    rewrite IH by (done || lia). by rewrite <- string_app_assoc.
Qed.

(** A string with exactly one separator is two pieces. *)
Lemma split_aux_two c (p a cur : string) f :
  S (String.length p + String.length a) < f →
  has_char c p = false → has_char c a = false →
  split_aux f (String c "") (p +:+ String c a) cur = [cur +:+ p; a].
Proof.
  revert f cur. induction p as [|d p IH]; intros [|f] cur Hf Hp Ha; simpl in *; try lia.
  - destruct (Ascii.ascii_dec c c); [|done].
    rewrite split_aux_no_sep by (done || lia).
    replace (String.prefix "" a) with true by (by destruct a).
    by rewrite string_app_nil_l, string_app_nil_r.
  - destruct (Ascii.ascii_dec c d); [discriminate|].
    rewrite IH by (done || lia). by rewrite <- string_app_assoc.
Qed.

Lemma js_split_two c (p a : string) :
  has_char c p = false → has_char c a = false →
  js_split (String c "") (p +:+ String c a) = [p; a].
Proof.
  intros Hp Ha. unfold js_split.
  rewrite split_aux_two; [done | | done | done].
  rewrite string_length_app. simpl. lia.
Qed.

(** [(prefix + ':' + a).split(':').pop()] recovers [a]. *)
Lemma js_pop_split_key c (p a : string) :
  has_char c p = false → has_char c a = false →
  js_pop (js_split (String c "") (p +:+ String c a)) = Some a.
Proof. intros. by rewrite js_split_two. Qed.

(** ** Decimal digits *)

Lemma string_of_uint_length u :
  String.length (DecimalString.NilEmpty.string_of_uint u) = Decimal.nb_digits u.
Proof. induction u; simpl; lia. Qed.

Lemma string_of_uint_no_char c u :
  (48 ≤ Ascii.nat_of_ascii c → 57 < Ascii.nat_of_ascii c)%nat →
  has_char c (DecimalString.NilEmpty.string_of_uint u) = false.
Proof.
  intros Hc. induction u; simpl; try done;
    match goal with |- context [Ascii.ascii_dec c ?d] =>
      destruct (Ascii.ascii_dec c d) as [->|]; [vm_compute in Hc; lia | done] end.
Qed.

Lemma parse_N_decimal_toString n : parse_N_decimal (N_toString n) = Some n.
Proof.
  unfold parse_N_decimal, N_toString.
  by rewrite DecimalString.NilEmpty.usu; simpl; rewrite DecimalN.Unsigned.of_to.
Qed.

Lemma N_toString_nonempty_digit n :
  ∃ c s, N_toString n = String c s ∧ c ≠ "-"%char.
Proof.
  unfold N_toString. destruct (N.to_uint n) eqn:E;
    [| eexists _, _; split; [reflexivity | discriminate] ..].
  exfalso. destruct n; [discriminate|].
  by apply (DecimalPos.Unsigned.to_uint_nonnil p).
Qed.

(** [BigInt(z.toString()) === z]. *)
Lemma BigInt_of_toString z : BigInt_of_string (Z_toString z) = Ok z.
Proof.
  unfold Z_toString. case_decide.
  - destruct (N_toString_nonempty_digit (Z.to_N (- z))) as (c & s & Hs & _).
    rewrite string_app_cons, string_app_nil_l. simpl.
    rewrite Hs, <- Hs, parse_N_decimal_toString. f_equal. lia.
  - destruct (N_toString_nonempty_digit (Z.to_N z)) as (c & s & Hs & Hc).
    unfold BigInt_of_string. rewrite Hs.
    destruct (Ascii.ascii_dec c "-"%char) as [->|_]; [done|].
    assert (Hp := parse_N_decimal_toString (Z.to_N z)). rewrite Hs in Hp.
    destruct c as [[] [] [] [] [] [] [] []]; try done; rewrite Hp; f_equal; lia.
Qed.

Lemma prefix_app (p s : string) : String.prefix p (p +:+ s) = true.
Proof.
  induction p as [|c p IH]; [by destruct s|].
  rewrite string_app_cons. simpl. destruct (Ascii.ascii_dec c c); [exact IH | done].
Qed.

(** [(p + s).includes(p)] for a non-empty [p]. *)
Lemma includes_prefix (p s : string) : p ≠ ""%string → includes (p +:+ s) p = true.
Proof.
  intros Hp. unfold includes. destruct p as [|c p]; [done|].
  rewrite string_app_cons. simpl. destruct (Ascii.ascii_dec c c); [|done].
  by rewrite prefix_app.
Qed.

(** [String(z)] is injective. *)
Lemma Z_toString_inj z1 z2 : Z_toString z1 = Z_toString z2 → z1 = z2.
Proof.
  intros H. assert (Hb := BigInt_of_toString z1). rewrite H, BigInt_of_toString in Hb.
  by injection Hb.
Qed.

Lemma string_app_inj_l (p a b : string) : p +:+ a = p +:+ b → a = b.
Proof.
  induction p as [|c p IH]; [by rewrite !string_app_nil_l|].
  rewrite !string_app_cons. intros [= H]. auto.
Qed.

(** Splitting on a separator of several characters. *)

Lemma sdrop_app (a b : string) : sdrop (String.length a) (a +:+ b) = b.
Proof. induction a as [|c a IH]; [done | exact IH]. Qed.

Lemma sdrop_length n (s : string) : String.length (sdrop n s) = (String.length s - n)%nat.
Proof. revert s. induction n as [|n IH]; intros [|c s]; simpl; rewrite ?IH; lia. Qed.

(** A prefix of [p ++ t] lies in [p], or covers [p] and goes on into [t]. *)
Lemma prefix_app_inv (sep p t : string) :
  String.prefix sep (p +:+ t) = true →
  String.prefix sep p = true ∨
  ((String.length p < String.length sep)%nat ∧ String.prefix (sdrop (String.length p) sep) t = true).
Proof.
  revert p. induction sep as [|a sep IH]; intros p H; [by left; destruct p|].
  destruct p as [|b p]; [right; simpl; split; [lia | done]|].
  rewrite ?string_app_cons in H. simpl in *.
  destruct (Ascii.ascii_dec a b); [|done].
  destruct (IH p H) as [?|[? ?]]; [by left | right; split; [lia | done]].
Qed.

(** A prefix of [v ++ s] no longer than [v] is a prefix of [v]. *)
Lemma prefix_app_short (u v s : string) :
  String.prefix u (v +:+ s) = true → (String.length u ≤ String.length v)%nat → String.prefix u v = true.
Proof.
  revert v. induction u as [|a u IH]; intros v H Hl; [by destruct v|].
  destruct v as [|b v]; simpl in *; [lia|].
  rewrite ?string_app_cons in H. simpl in H.
  destruct (Ascii.ascii_dec a b); [apply IH; [done | lia] | done].
Qed.

(** An unbordered separator does not start inside a non-empty [p] that
    does not hold it and runs on into the separator. *)
Lemma prefix_sep_shift (sep p s : string) :
  unbordered sep = true → p ≠ "" → occurs sep p = false →
  String.prefix sep (p +:+ sep +:+ s) = false.
Proof.
  intros Hu Hp Ho. apply not_true_iff_false. intros H.
  destruct (prefix_app_inv sep p (sep +:+ s) H) as [H'|[Hl H']].
  - revert Ho. destruct p; cbn [occurs]; [done|]. by rewrite H'.
  - apply prefix_app_short in H'; [|rewrite sdrop_length; lia].
    unfold unbordered in Hu. rewrite forallb_forall in Hu.
    assert (Hin : String.length p ∈ seq 1 (String.length sep - 1)).
    { apply elem_of_seq. destruct p; simpl in *; [done | lia]. }
    apply list_elem_of_In, Hu in Hin. by rewrite H' in Hin.
Qed.

Lemma split_aux_no_occ (sep s cur : string) f :
  sep ≠ "" → (String.length s < f)%nat → occurs sep s = false →
  split_aux f sep s cur = [cur +:+ s].
Proof.
  intros Hs. revert f cur. induction s as [|d s IH]; intros [|f] cur Hf Ho; simpl in *; try lia.
  - by rewrite string_app_nil_r.
  - apply orb_false_iff in Ho as [Hp Ho]. rewrite Hp, IH by (done || lia).
    by rewrite <- string_app_assoc.
Qed.

Lemma split_aux_once (sep p s cur : string) f :
  sep ≠ "" → unbordered sep = true → occurs sep p = false → occurs sep s = false →
  (String.length (p +:+ sep +:+ s) < f)%nat →
  split_aux f sep (p +:+ sep +:+ s) cur = [cur +:+ p; s].
Proof.
  intros Hs Hu. revert f cur. induction p as [|d p IH]; intros f cur Hp Ho Hf;
    rewrite !string_length_app in Hf; (destruct f as [|f]; [lia|]).
  - destruct sep as [|c sep']; [done|]. rewrite string_app_nil_l, string_app_cons. cbn [split_aux].
    rewrite <- string_app_cons, prefix_app, sdrop_app.
    rewrite split_aux_no_occ; [| done | simpl in Hf; lia | done].
    by rewrite string_app_nil_r, string_app_nil_l.
  - rewrite string_app_cons. cbn [split_aux]. rewrite <- string_app_cons, prefix_sep_shift by done.
    cbn [occurs] in Hp. apply orb_false_iff in Hp as [_ Hp].
    rewrite IH; [| done | done | rewrite !string_length_app; simpl in Hf; lia].
    by rewrite <- string_app_assoc.
Qed.

(** [s.split(sep)] of a string without [sep] is [[s]]. *)
Lemma js_split_no_occ (sep s : string) :
  sep ≠ "" → occurs sep s = false → js_split sep s = [s].
Proof.
  intros Hs Ho. unfold js_split. destruct sep as [|c sep']; [done|].
  rewrite split_aux_no_occ; [done | done | lia | done].
Qed.

(** [(p + sep + s).split(sep)] is [[p, s]] when neither holds [sep]. *)
Lemma js_split_once (sep p s : string) :
  sep ≠ "" → unbordered sep = true → occurs sep p = false → occurs sep s = false →
  js_split sep (p +:+ sep +:+ s) = [p; s].
Proof.
  intros Hs Hu Hp Ho. unfold js_split. destruct sep as [|c sep']; [done|].
  rewrite split_aux_once; [done | done | done | done | done | lia].
Qed.

(** Most significant digit first: the value of [Dk t] is
    [k * 10^(digits t) + value t]. *)
Lemma N_of_uint_msd u :
  u ≠ Decimal.Nil →
  N.of_uint u = (DecimalPos.Unsigned.hd u * 10 ^ N.of_nat (Decimal.nb_digits (DecimalPos.Unsigned.tl u))
                 + N.of_uint (DecimalPos.Unsigned.tl u))%N.
Proof.
  assert (Hsz : ∀ t, DecimalPos.Unsigned.usize t = N.of_nat (Decimal.nb_digits t)).
  { induction t; simpl; try rewrite IHt; lia. }
  intros Hu. change N.of_uint with Pos.of_uint.
  rewrite !DecimalPos.Unsigned.of_uint_alt.
  destruct u as [|t|t|t|t|t|t|t|t|t|t]; [done| ..];
    unfold Decimal.rev; simpl Decimal.revapp;
    rewrite DecimalPos.Unsigned.of_lu_revapp, Hsz; simpl; unfold Decimal.rev; lia.
Qed.

Lemma N_of_uint_lt u : (N.of_uint u < 10 ^ N.of_nat (Decimal.nb_digits u))%N.
Proof.
  induction u as [|t IH|t IH|t IH|t IH|t IH|t IH|t IH|t IH|t IH|t IH]; [done| ..];
    rewrite N_of_uint_msd by done; simpl DecimalPos.Unsigned.hd; simpl DecimalPos.Unsigned.tl;
    simpl Decimal.nb_digits; rewrite Nat2N.inj_succ, N.pow_succ_r'; lia.
Qed.

(** Leading zeros do not change the value. *)
Lemma N_of_uint_zeros k u : N.of_uint (Nat.iter k Decimal.D0 u) = N.of_uint u.
Proof.
  induction k as [|k IH]; [done|].
  rewrite <- DecimalN.Unsigned.of_uint_norm. simpl Nat.iter.
  change (Decimal.unorm (Decimal.D0 (Nat.iter k Decimal.D0 u)))
    with (Decimal.unorm (Nat.iter k Decimal.D0 u)).
  by rewrite DecimalN.Unsigned.of_uint_norm.
Qed.

(** [n.toString()] has at most [d] digits when [n < 10^d] and [d ≥ 1]. *)
Lemma N_toString_length_le (n : N) (d : nat) :
  (1 ≤ d)%nat → (n < 10 ^ N.of_nat d)%N → (String.length (N_toString n) ≤ d)%nat.
Proof.
  intros Hd Hn. unfold N_toString. rewrite string_of_uint_length.
  destruct (decide (n = 0%N)) as [->|Hn0]; [simpl; lia|].
  assert (Hnorm : N.to_uint n = Decimal.unorm (N.to_uint n)).
  { by rewrite <- DecimalN.Unsigned.to_of, DecimalN.Unsigned.of_to. }
  set (u := N.to_uint n) in *.
  assert (Hval : N.of_uint u = n) by apply DecimalN.Unsigned.of_to.
  assert (Hhd : u ≠ Decimal.Nil ∧ (1 ≤ DecimalPos.Unsigned.hd u)%N).
  { rewrite Hnorm. unfold Decimal.unorm.
    assert (Hz : Decimal.nzhead u ≠ Decimal.Nil).
    { intros Hz. apply Hn0. rewrite <- Hval, Hnorm. unfold Decimal.unorm. by rewrite Hz. }
    destruct (Decimal.nzhead u) eqn:E; [done|..]; split; try done; simpl; try lia.
    exfalso. clear -E. induction u; simpl in E; try discriminate; auto. }
  destruct Hhd as [Hnil Hhd].
  rewrite N_of_uint_msd in Hval by done.
  assert (Hlen : Decimal.nb_digits u = S (Decimal.nb_digits (DecimalPos.Unsigned.tl u))).
  { destruct u; done. }
  assert (10 ^ N.of_nat (Decimal.nb_digits (DecimalPos.Unsigned.tl u)) < 10 ^ N.of_nat d)%N by nia.
  apply N.pow_lt_mono_r_iff in H; lia.
Qed.

(** ** Hexadecimal *)

Lemma lower_hex_digits u :
  lower (HexadecimalString.NilEmpty.string_of_uint u) = HexadecimalString.NilEmpty.string_of_uint u.
Proof. induction u; simpl; try rewrite IHu; reflexivity. Qed.

Lemma N_toHexDigits_nonempty n : N_toHexDigits n ≠ "".
Proof.
  unfold N_toHexDigits.
  destruct (N.to_hex_uint n) eqn:E; try discriminate.
  assert (Hn : n = 0%N) by (rewrite <- (HexadecimalN.Unsigned.of_to n), E; reflexivity).
  subst n. discriminate.
Qed.

Lemma parse_hex_digits_N_toHexDigits n : parse_hex_digits (N_toHexDigits n) = Some n.
Proof.
  pose proof (N_toHexDigits_nonempty n) as Hne. unfold parse_hex_digits.
  destruct (N_toHexDigits n) eqn:E; [done|]. rewrite <- E. unfold N_toHexDigits.
  rewrite lower_hex_digits, HexadecimalString.NilEmpty.usu. simpl.
  by rewrite HexadecimalN.Unsigned.of_to.
Qed.

(** [hexToNumber(toHex(z)) === z]: block numbers survive the provider's hex
    encoding. *)
Lemma hexToNumber_toHex z : hexToNumber (toHex z) = Ok z.
Proof.
  pose proof (parse_hex_digits_N_toHexDigits (Z.to_N (Z.abs z))) as Hp.
  pose proof (N_toHexDigits_nonempty (Z.to_N (Z.abs z))) as Hne.
  unfold toHex. case_decide.
  - rewrite !string_app_cons, string_app_nil_l. cbn -[parse_hex_digits N_toHexDigits].
    replace (Z.to_N (- z)) with (Z.to_N (Z.abs z)) by lia. rewrite Hp. f_equal. lia.
  - rewrite !string_app_cons, string_app_nil_l. cbn -[parse_hex_digits N_toHexDigits].
    replace (Z.to_N z) with (Z.to_N (Z.abs z)) by lia.
    destruct (N_toHexDigits (Z.to_N (Z.abs z))) eqn:E; [done|]. rewrite Hp. f_equal. lia.
Qed.
