(* ===== verification/BlockTiming.v ===== *)
(** * Block timing: the anchor block of a new watch

    Models [getCurrentBlock] and [getNumOfBlocks] of
    src/plugins/eth-data/transfer-events.ts.  [getCurrentBlock] reads the
    latest block; when it is more than 5 s old it sleeps
    [12000 - diff + 1000] ms ([setTimeout] clamps a negative delay to 0) and
    returns the next block number.  The model returns the block number and
    the delay actually slept, so that the time at which the caller resumes
    is explicit.  Times are milliseconds since the epoch, as [Z]. *)

From S2P Require Import Prelude.

Module BlockTiming.

(** The fields of [alchemy.core.getBlock('latest')] that the code reads. *)
Record Block := mkBlock {
  number : Z;       (** block height *)
  timestamp : Z     (** seconds since the epoch *)
}.

(** [getCurrentBlock()], given the provider's answer and [new Date()]:
    the anchor block and the delay slept before returning. *)
Definition getCurrentBlock (latest : outcome Block) (now : Z) : outcome (Z * Z) :=
  block ← latest;
  let blockNum := number block in
  let diff := (now - timestamp block * 1000)%Z in
  if decide (diff > 5000)%Z then
    let waitFor := (12000 - diff + 1000)%Z in
    Ok ((blockNum + 1)%Z, Z.max 0 waitFor)
  else Ok (blockNum, 0%Z).

(** [getNumOfBlocks(minutes)]: [Math.floor(minutes * 60 / 12)]. *)
Definition getNumOfBlocks (minutes : Z) : Z := (minutes * 60 / 12)%Z.

(** The block-production schedule the code assumes: block [b] after the
    latest one is expected [12 * b] seconds after it. *)
Definition expected_time (latest : Block) (b : Z) : Z :=
  (timestamp latest * 1000 + 12000 * (b - number latest))%Z.

Lemma getCurrentBlock_cases latest now b w :
  getCurrentBlock (Ok latest) now = Ok (b, w) →
  ((now - timestamp latest * 1000 ≤ 5000)%Z ∧ b = number latest ∧ w = 0%Z) ∨
  ((now - timestamp latest * 1000 > 5000)%Z ∧ b = (number latest + 1)%Z ∧
   w = Z.max 0 (13000 - (now - timestamp latest * 1000))%Z).
Proof.
  unfold getCurrentBlock. simpl. case_decide; intros [= <- <-]; [right | left]; split_and!; lia.
Qed.

(** A provider failure is the only way [getCurrentBlock] rejects, and it
    rejects with the provider's error. *)
Lemma getCurrentBlock_Throw latest now m :
  getCurrentBlock latest now = Throw m ↔ latest = Throw m.
Proof.
  unfold getCurrentBlock. destruct latest as [blk|m']; simpl.
  - case_decide; split; discriminate.
  - split; by intros [= ->].
Qed.

(** C22: When the latest block is at most 13 s old ([0 ≤ drift ≤ 13000]),
    [getCurrentBlock] returns, after sleeping at most 8 s, a block that is
    due by the time it resumes, and the block after it is due at least 7 s
    later. *)
Theorem getCurrentBlock_schedule latest now :
  (0 ≤ now - timestamp latest * 1000 ≤ 13000)%Z →
  ∃ b w, getCurrentBlock (Ok latest) now = Ok (b, w) ∧
    (0 ≤ w < 8000)%Z ∧
    (expected_time latest b ≤ now + w)%Z ∧
    (7000 ≤ expected_time latest (b + 1) - (now + w))%Z.
Proof.
  intros Hd. destruct (getCurrentBlock (Ok latest) now) as [[b w]|m] eqn:E.
  - exists b, w. split; [done|].
    apply getCurrentBlock_cases in E. unfold expected_time.
    destruct E as [(? & -> & ->)|(? & -> & ->)]; lia.
  - unfold getCurrentBlock in E. simpl in E. case_decide; discriminate.
Qed.

Lemma getCurrentBlock_schedule_witness :
  (0 ≤ 1005000 - timestamp (mkBlock 100 1000) * 1000 ≤ 13000)%Z ∧
  getCurrentBlock (Ok (mkBlock 100 1000)) 1005000 = Ok (100%Z, 0%Z).
Proof.
  split; [simpl; lia|].
  destruct (getCurrentBlock_schedule (mkBlock 100 1000) 1005000) as (b & w & E & _); [simpl; lia|].
  rewrite E. apply getCurrentBlock_cases in E. simpl in E. f_equal. f_equal; lia.
Defined.

(** C23: The source comment promises "at least 10 seconds till the next
    block creation"; a block exactly 5 s old is used as the anchor with no
    wait, leaving only 7 s before the next block. *)
Theorem getCurrentBlock_margin_7s latest :
  getCurrentBlock (Ok latest) (timestamp latest * 1000 + 5000) = Ok (number latest, 0%Z) ∧
  (expected_time latest (number latest + 1) - (timestamp latest * 1000 + 5000) = 7000)%Z.
Proof.
  unfold getCurrentBlock, expected_time. simpl. case_decide; [lia|]. split; [done | lia].
Qed.

(** C24: When the latest block is more than 17 s old, the computed wait is
    negative: the code returns [latest + 1] at once, and fewer than 7 s
    remain before the block after the anchor is due (none at all beyond
    24 s), so the margin of C22 is lost. *)
Theorem getCurrentBlock_late_block latest now b w :
  (now - timestamp latest * 1000 > 17000)%Z →
  getCurrentBlock (Ok latest) now = Ok (b, w) →
  b = (number latest + 1)%Z ∧ w = 0%Z ∧
  (expected_time latest (b + 1) - (now + w) = 24000 - (now - timestamp latest * 1000))%Z ∧
  (expected_time latest (b + 1) - (now + w) < 7000)%Z.
Proof.
  intros Hd E. apply getCurrentBlock_cases in E. unfold expected_time.
  destruct E as [(? & -> & ->)|(? & -> & ->)]; lia.
Qed.

Lemma getCurrentBlock_late_block_witness :
  getCurrentBlock (Ok (mkBlock 100 1000)) 1030000 = Ok (101%Z, 0%Z) ∧
  (expected_time (mkBlock 100 1000) (101 + 1) - (1030000 + 0) < 0)%Z.
Proof.
  split; [reflexivity|].
  destruct (getCurrentBlock_late_block (mkBlock 100 1000) 1030000 101 0)
    as (_ & _ & Hm & _); [simpl; lia | reflexivity | simpl in Hm; lia].
Defined.

(** [getNumOfBlocks] converts minutes to whole 12-second blocks: five
    blocks per minute. *)
Theorem getNumOfBlocks_minutes m : (0 ≤ m)%Z → getNumOfBlocks m = (5 * m)%Z.
Proof.
  intros Hm. unfold getNumOfBlocks.
  replace (m * 60)%Z with ((5 * m) * 12)%Z by lia. apply Z.div_mul. lia.
Qed.

Lemma getNumOfBlocks_minutes_witness : (0 ≤ 5)%Z ∧ getNumOfBlocks 5 = 25%Z.
Proof. split; [lia | apply (getNumOfBlocks_minutes 5); lia]. Defined.

End BlockTiming.
