(* ===== verification/Transfers.v ===== *)
(** * Transfer records, their normalisation, and the object heap

    The types of src/plugins/eth-data/transfer-events.ts: the provider's
    [AssetTransfersResult] ([raw_transfer]), the SDK enum
    [AssetTransfersCategory], [RawContract], and the canonical
    [CleanTransfers]; [cleanTransfers] normalises a page of provider results.

    Transfer objects are shared: [getTransferEvents] returns the arrays whose
    objects [addCurrentTokenBalances] mutated (it writes [flow] and [tvl]),
    and the route stores those same objects.  The model keeps them in a
    [heap] (a [gmap] from locations to records), arrays hold locations, and
    a write through any array is visible through every array holding the
    location.

    Fields the pipeline never reads ([erc721TokenId], [erc1155Metadata],
    [tokenId]) are not modelled.  [value] is a [number] ([Q]): the queries
    ask only for ERC-20, external and internal transfers, whose value is
    never [null]. *)

From S2P Require Import Prelude JsString.

Module Transfers.

(** [AssetTransfersCategory] of alchemy-sdk. *)
Inductive AssetTransfersCategory :=
| EXTERNAL | INTERNAL | ERC20 | ERC721 | ERC1155 | SPECIALNFT.

#[export] Instance AssetTransfersCategory_eq_dec : EqDecision AssetTransfersCategory.
Proof. solve_decision. Defined.

Record RawContract := mkRawContract {
  rc_value : option string;
  rc_address : option string;    (** [null] for ETH *)
  rc_decimal : option string
}.

(** The fields of alchemy-sdk's [AssetTransfersResult] that the code reads. *)
Record raw_transfer := mkRaw {
  raw_uniqueId : string;
  raw_category : AssetTransfersCategory;
  raw_blockNum : string;          (** hex, e.g. ["0x1183577"] *)
  raw_from : string;
  raw_to : option string;
  raw_value : Q;
  raw_asset : option string;
  raw_hash : string;
  raw_rawContract : RawContract
}.

(** [CleanTransfers]; [tvl] and [flow] are optional fields ([undefined]
    until [addCurrentTokenBalances] writes them; [None] also stands for a
    [NaN] produced by arithmetic on [undefined]). *)
Record CleanTransfers := mkClean {
  from : string;
  to : option string;
  value : Q;
  asset : option string;
  category : AssetTransfersCategory;
  timestamp : Z;                  (** ms since the epoch, estimated *)
  tokenAddress : option string;   (** [null] (historical) or [""] (webhook) for ETH *)
  tvl : option Q;
  flow : option Z;
  blockNum : Z;
  uniqueId : string;
  hash : string;
  rawContract : RawContract
}.

Definition set_flow (f : Z) (t : CleanTransfers) : CleanTransfers :=
  mkClean (from t) (to t) (value t) (asset t) (category t) (timestamp t)
    (tokenAddress t) (tvl t) (Some f) (blockNum t) (uniqueId t) (hash t) (rawContract t).

Definition set_tvl (v : option Q) (t : CleanTransfers) : CleanTransfers :=
  mkClean (from t) (to t) (value t) (asset t) (category t) (timestamp t)
    (tokenAddress t) v (flow t) (blockNum t) (uniqueId t) (hash t) (rawContract t).

(** One element of [cleanTransfers(transfers, date, currentBlock)]: the
    timestamp is estimated from the block distance to the anchor block at
    12 s per block. *)
Definition cleanTransfer (date currentBlock : Z) (transfer : raw_transfer)
    : outcome CleanTransfers :=
  bn ← hexToNumber (raw_blockNum transfer);
  let ts := (date - (currentBlock - bn) * 12 * 1000)%Z in
  Ok (mkClean (raw_from transfer) (raw_to transfer) (raw_value transfer)
        (raw_asset transfer) (raw_category transfer) ts
        (rc_address (raw_rawContract transfer)) None None bn
        (raw_uniqueId transfer) (raw_hash transfer) (raw_rawContract transfer)).

Definition cleanTransfers (transfers : list raw_transfer) (date currentBlock : Z)
    : outcome (list CleanTransfers) :=
  mapM (cleanTransfer date currentBlock) transfers.

(** ** The object heap *)

Abbreviation loc := nat.
Abbreviation heap := (gmap nat CleanTransfers).

(** [new] objects for a list of records: fresh locations, in order. *)
Fixpoint alloc (h : heap) (ts : list CleanTransfers) : heap * list nat :=
  match ts with
  | [] => (h, [])
  | t :: ts' =>
      let l := fresh (dom h) in
      let '(h', ls) := alloc (<[l := t]> h) ts' in
      (h', l :: ls)
  end.

Lemma alloc_length h ts h' ls : alloc h ts = (h', ls) → length ls = length ts.
Proof.
  revert h h' ls. induction ts as [|t ts IH]; intros h h' ls; simpl; [by intros [= <- <-]|].
  destruct (alloc _ ts) as [h'' ls'] eqn:E. intros [= <- <-]. simpl. by rewrite (IH _ _ _ E).
Qed.

(** The records an array of locations denotes. *)
Definition deref (h : heap) (ls : list nat) : list CleanTransfers :=
  omap (λ l, h !! l) ls.

(** Locations that hold the given records, in order. *)
Lemma deref_Forall2 h ls ts : Forall2 (λ l t, h !! l = Some t) ls ts → deref h ls = ts.
Proof. induction 1 as [|l t ls ts Hl _ IH]; [done|]. rewrite <- IH. unfold deref. simpl. by rewrite Hl. Qed.

(** Facts about every location of an array of records. *)
Lemma Forall2_heap_impl (P : nat → CleanTransfers → Prop) (h : heap) ls ts :
  Forall2 (λ l t, h !! l = Some t) ls ts → (∀ l t, l ∈ ls → h !! l = Some t → P l t) →
  Forall2 P ls ts.
Proof.
  induction 1 as [|l t ls ts Hl _ IH]; intros HP; constructor.
  - apply HP; [apply list_elem_of_here | done].
  - apply IH. intros l' t' Hl'. apply HP. by apply list_elem_of_further.
Qed.

Lemma Forall2_heap_is_Some (h : heap) ls ts l :
  Forall2 (λ l t, h !! l = Some t) ls ts → l ∈ ls → is_Some (h !! l).
Proof.
  intros Hf (i & Hi)%list_elem_of_lookup_1.
  destruct (Forall2_lookup_l _ _ _ _ _ Hf Hi) as (t & _ & Ht). by eexists.
Qed.

(** [alloc] places the records at distinct locations unused before, in
    order, and leaves every other location as it was. *)
Lemma alloc_spec h ts h' ls :
  alloc h ts = (h', ls) →
  NoDup ls ∧ (∀ l, l ∈ ls → h !! l = None) ∧ (∀ l, l ∉ ls → h' !! l = h !! l) ∧
  Forall2 (λ l t, h' !! l = Some t) ls ts.
Proof.
  revert h h' ls. induction ts as [|t ts IH]; intros h h' ls; simpl.
  { intros [= <- <-]. split_and!; [constructor | set_solver | done | done]. }
  set (l := fresh (dom h)). destruct (alloc _ ts) as [h'' ls'] eqn:E. intros [= <- <-].
  destruct (IH _ _ _ E) as (Hnd & Hnew & Hold & Hat).
  assert (Hl : h !! l = None) by (apply not_elem_of_dom, is_fresh).
  assert (Hl' : l ∉ ls') by (intros Hin; specialize (Hnew l Hin); by rewrite lookup_insert_eq in Hnew).
  split_and!.
  - by constructor.
  - intros l' [->|Hin]%elem_of_cons; [done|]. specialize (Hnew l' Hin).
    by apply lookup_insert_None in Hnew as [? _].
  - intros l' [Hne Hin]%not_elem_of_cons. by rewrite Hold, lookup_insert_ne by done.
  - constructor; [by rewrite Hold, lookup_insert_eq | done].
Qed.

End Transfers.
