(* ===== verification/Scaling.v ===== *)
(** * Decimal scaling of raw balances: [bigintHexToNumber]

    Models [bigintHexToNumber(hex, decimals)] of
    src/plugins/eth-data/transfer-events.ts (lines 80-89):
    [BigInt(web3.utils.hexToNumberString(hex))] divided (truncating) by
    [BigInt(10 ** decimals)], rendered as [`${intPart}.${fraction}`] with the
    fraction left-padded with zeros to [decimals] digits, and read back with
    [Number(...)].

    [10 ** decimals] is a float: [round_to_double] rounds an integer to the
    nearest IEEE-754 double (ties to even, [None] beyond the largest finite
    double), and [BigInt] of a non-integer or infinite number throws.  The
    final [Number(...)] is the mathematical value of the decimal literal
    ([JsString.Number_of_decimal]) rounded to the nearest double
    ([round_Q]: ties to even, subnormals below [2^-1022], [None] for
    [Infinity], which a [uint256] balance never reaches).  This is the
    correctly rounded conversion V8 performs; the ECMAScript standard also
    allows an approximation of literals with more than 20 significant
    digits. *)

From S2P Require Import Prelude JsString.
From Stdlib Require Import Ascii DecimalString DecimalN DecimalFacts.

Module Scaling.

Local Open Scope Z_scope.

(** The double nearest to the positive integer [x], ties to even;
    [None] when it overflows to [Infinity]. *)
Definition round_to_double (x : Z) : option Z :=
  let k := Z.log2 x in
  let r :=
    if decide (k ≤ 52) then x
    else
      let s := k - 52 in
      let q := x / 2 ^ s in
      let rem := x mod 2 ^ s in
      let half := 2 ^ (s - 1) in
      let q' := if decide (half < rem) then q + 1
                else if decide (rem = half) then (if Z.odd q then q + 1 else q)
                else q in
      q' * 2 ^ s in
  if decide (2 ^ 1024 ≤ r) then None else Some r.

(** [BigInt(10 ** decimals)]. *)
Definition pow10_bigint (decimals : Z) : outcome Z :=
  if decide (decimals < 0) then
    throw "RangeError: The number cannot be converted to a BigInt because it is not an integer"
  else match round_to_double (10 ^ decimals) with
       | Some r => Ok r
       | None => throw "RangeError: The number Infinity cannot be converted to a BigInt because it is not an integer"
       end.

(** [web3.utils.hexToNumberString(hex)]. *)
Definition hexToNumberString (hex : string) : outcome string :=
  z ← hexToNumber hex; Ok (Z_toString z).

(** The decimal literal [`${intPart}.${fractionalAsString}`] built by
    [bigintHexToNumber]. *)
Definition bigintHexToLiteral (hex : string) (decimals : Z) : outcome string :=
  s ← hexToNumberString hex;
  bigIntValue ← BigInt_of_string s;
  scaleFactor ← pow10_bigint decimals;
  let intPart := Z.quot bigIntValue scaleFactor in
  let fractionalPart := Z.rem bigIntValue scaleFactor in
  let fractionalAsString := padStart (Z_toString fractionalPart) (Z.to_nat decimals) "0"%char in
  Ok (Z_toString intPart +:+ "." +:+ fractionalAsString).

(** The integer nearest to [a / b] ([b > 0]), ties to even. *)
Definition round_half_even (a b : Z) : Z :=
  let q := a / b in
  let r := a mod b in
  if decide (b < 2 * r) then q + 1
  else if decide (2 * r = b) then (if Z.odd q then q + 1 else q) else q.

(** The double nearest to the non-negative rational [n / d]: its binade
    [2^E ≤ n/d < 2^(E+1)] ([Z.log2] of numerator and denominator gives [E]
    or [E + 1]), the quantum [2^s] with [s = max (E - 52) (-1074)], and the
    significand [n / (d * 2^s)] rounded ties to even; [None] is
    [Infinity]. *)
Definition round_double_frac (n : Z) (d : positive) : option Q :=
  if decide (n ≤ 0) then Some 0%Q else
  let e0 := Z.log2 n - Z.log2 (Zpos d) in
  let E := if decide (Zpos d * 2 ^ Z.max 0 e0 ≤ n * 2 ^ Z.max 0 (- e0)) then e0 else e0 - 1 in
  let s := Z.max (E - 52) (-1074) in
  let m := round_half_even (n * 2 ^ Z.max 0 (- s)) (Zpos d * 2 ^ Z.max 0 s) in
  if decide (0 ≤ s) then
    (if decide (2 ^ 1024 ≤ m * 2 ^ s) then None else Some (inject_Z (m * 2 ^ s)))
  else Some (Qred (Qmake m (Z.to_pos (2 ^ (- s))))).

(** The Number value of a mathematical value: the nearest double of the
    rational, read in lowest terms so that equal rationals give the same
    double. *)
Definition round_Q (q : Q) : option Q :=
  let q' := Qred q in round_double_frac (Qnum q') (Qden q').

(** [bigintHexToNumber(hex, decimals)]: [Number] of the literal; [None] is
    [NaN]. *)
Definition bigintHexToNumber (hex : string) (decimals : Z) : outcome (option Q) :=
  s ← bigintHexToLiteral hex decimals;
  Ok (match Number_of_decimal s with Some v => round_Q v | None => None end).

(** [10 ** decimals] is exact exactly when the code can represent it. *)
Definition pow10_exact (d : Z) : bool :=
  match pow10_bigint d with Ok r => r =? 10 ^ d | Throw _ => false end.

Lemma pow10_exact_table :
  forallb (λ n, Bool.eqb (pow10_exact (Z.of_nat n)) (Z.of_nat n <=? 22)) (seq 0 309) = true.
Proof. vm_compute. reflexivity. Qed.

(** C8: For every token precision the provider can report short of
    overflow ([0 ≤ decimals ≤ 308]), [BigInt(10 ** decimals)] equals
    [10^decimals] exactly when [decimals ≤ 22]: from 23 decimals on the
    scale factor is the nearest double, not the power of ten. *)
Theorem pow10_bigint_exact_iff d :
  0 ≤ d ≤ 308 → (pow10_bigint d = Ok (10 ^ d) ↔ d ≤ 22).
Proof.
  intros Hd.
  assert (Ht := pow10_exact_table). rewrite forallb_forall in Ht.
  specialize (Ht (Z.to_nat d)). rewrite Z2Nat.id in Ht by lia.
  assert (Hin : In (Z.to_nat d) (seq 0 309)) by (apply in_seq; lia).
  specialize (Ht Hin). apply Bool.eqb_prop in Ht.
  unfold pow10_exact in Ht. destruct (pow10_bigint d) as [r|m].
  - split.
    + intros [= ->]. rewrite Z.eqb_refl in Ht. symmetry in Ht. by apply Z.leb_le.
    + intros Hle. apply Z.leb_le in Hle. rewrite Hle in Ht. apply Z.eqb_eq in Ht. by subst.
  - split; [discriminate|]. intros Hle. apply Z.leb_le in Hle. congruence.
Qed.

Lemma pow10_bigint_exact_iff_witness : (0 ≤ 18 ≤ 308 ∧ pow10_bigint 18 = Ok (10 ^ 18)) ∧
  (0 ≤ 23 ≤ 308 ∧ pow10_bigint 23 ≠ Ok (10 ^ 23)).
Proof.
  split; split; [lia | apply (pow10_bigint_exact_iff 18); lia | lia |].
  intros H. apply (pow10_bigint_exact_iff 23) in H; lia.
Defined.

Lemma string_of_list_ascii_length l : String.length (String.string_of_list_ascii l) = length l.
Proof. induction l; simpl; congruence. Qed.

Lemma zeros_string_of_uint k u :
  String.string_of_list_ascii (replicate k "0"%char) +:+ DecimalString.NilEmpty.string_of_uint u =
  DecimalString.NilEmpty.string_of_uint (Nat.iter k Decimal.D0 u).
Proof. induction k as [|k IH]; [done|]. simpl. rewrite string_app_cons. by f_equal. Qed.

Lemma has_char_zeros c k :
  c ≠ "0"%char → has_char c (String.string_of_list_ascii (replicate k "0"%char)) = false.
Proof.
  intros Hc. induction k as [|k IH]; [done|]. simpl.
  destruct (Ascii.ascii_dec c "0"); [done | exact IH].
Qed.

Lemma has_char_dot_N_toString n : has_char "." (N_toString n) = false.
Proof. apply string_of_uint_no_char. vm_compute. lia. Qed.

(** The value of the literal [`${i}.${f.toString().padStart(k, '0')}`]. *)
Lemma Number_of_decimal_literal (i f : N) (k : nat) :
  Number_of_decimal (N_toString i +:+ "." +:+ padStart (N_toString f) k "0"%char) =
  Some (Qmake (Z.of_N i) 1 + Qmake (Z.of_N f)
          (Z.to_pos (10 ^ Z.of_nat (k - String.length (N_toString f) + String.length (N_toString f)))))%Q.
Proof.
  unfold Number_of_decimal. rewrite string_app_cons, string_app_nil_l.
  rewrite js_split_two.
  2: apply has_char_dot_N_toString.
  2: { unfold padStart. rewrite has_char_app, has_char_zeros by done. apply has_char_dot_N_toString. }
  destruct (N_toString_nonempty_digit i) as (c & s & Hs & _).
  case_decide as Hne; [by rewrite Hs in Hne|].
  unfold padStart, N_toString.
  rewrite zeros_string_of_uint, !DecimalString.NilEmpty.usu.
  rewrite N_of_uint_zeros, !DecimalN.Unsigned.of_to.
  do 3 f_equal. rewrite !string_of_uint_length, DecimalFacts.nb_digits_iter_D0. lia.
Qed.

Lemma Z_toString_nonneg z : 0 ≤ z → Z_toString z = N_toString (Z.to_N z).
Proof. intros Hz. unfold Z_toString. case_decide; [lia | done]. Qed.

Lemma round_Q_Qeq p q : (p == q)%Q → round_Q p = round_Q q.
Proof. intros H. unfold round_Q. by rewrite (Qred_complete p q H). Qed.

(** C7: Scaling.  For a non-negative raw balance [n] and a precision
    [0 ≤ decimals ≤ 22], [bigintHexToNumber(toHex(n), decimals)] is the
    double nearest to [n / 10^decimals]: the integer division, the padded
    fraction and the literal lose nothing, and the only error is the final
    [Number(...)] rounding.  So the specification's exact round trip holds
    only when [n / 10^decimals] is a double: at 18 decimals a balance of
    [10^18 + 1] minor units becomes [1]. *)
Theorem bigintHexToNumber_rounded (n d : Z) :
  0 ≤ n → 0 ≤ d ≤ 22 →
  bigintHexToNumber (toHex n) d = Ok (round_Q (inject_Z n / inject_Z (10 ^ d))).
Proof.
  intros Hn Hd.
  assert (∃ s q, bigintHexToLiteral (toHex n) d = Ok s ∧ Number_of_decimal s = Some q ∧
         (q * inject_Z (10 ^ d) == inject_Z n)%Q) as (s & q & Hs & Hq & Heq).
  { assert (Hp : pow10_bigint d = Ok (10 ^ d)) by (apply pow10_bigint_exact_iff; lia).
    assert (H10 : 0 < 10 ^ d) by (apply Z.pow_pos_nonneg; lia).
    unfold bigintHexToLiteral, hexToNumberString.
    rewrite hexToNumber_toHex. simpl. rewrite BigInt_of_toString. simpl. rewrite Hp. simpl.
    rewrite Z.quot_div_nonneg, Z.rem_mod_nonneg by lia.
    pose proof (Z.mod_pos_bound n (10 ^ d) H10) as Hmod.
    rewrite !Z_toString_nonneg by (apply Z.div_pos || idtac; lia).
    eexists _, _. split; [reflexivity|]. rewrite Number_of_decimal_literal. split; [reflexivity|].
    set (L := String.length (N_toString (Z.to_N (n mod 10 ^ d)))).
    assert (HL : (Z.to_nat d - L + L)%nat = Z.to_nat d ∨ n mod 10 ^ d = 0).
    { destruct (decide (d = 0)) as [->|Hd0]; [right; apply Z.mod_1_r|left].
      assert (L ≤ Z.to_nat d)%nat; [|lia].
      apply N_toString_length_le; [lia|].
      apply N2Z.inj_lt. rewrite N2Z.inj_pow, nat_N_Z, Z2Nat.id, Z2N.id by lia. lia. }
    pose proof (Z.div_mod n (10 ^ d) ltac:(lia)) as Hdm.
    assert (Hpos : ∀ m, 0 < 10 ^ Z.of_nat m) by (intros; apply Z.pow_pos_nonneg; lia).
    destruct HL as [-> | H0].
    - unfold Qeq, Qmult, Qplus, inject_Z; simpl.
      rewrite !Z2Pos.id, Z2Nat.id, !Z2N.id by (auto; lia || apply Z.div_pos; lia). nia.
    - rewrite H0 in Hdm |- *. unfold Qeq, Qmult, Qplus, inject_Z; simpl.
      rewrite !Z2N.id by (apply Z.div_pos; lia). nia. }
  unfold bigintHexToNumber. rewrite Hs. simpl. rewrite Hq. f_equal. apply round_Q_Qeq.
  assert (H10 : ¬ (inject_Z (10 ^ d) == 0)%Q).
  { unfold Qeq; simpl. pose proof (Z.pow_pos_nonneg 10 d). lia. }
  rewrite <- Heq. field. exact H10.
Qed.

Lemma bigintHexToNumber_rounded_witness :
  (0 ≤ 10 ^ 18 + 1 ∧ 0 ≤ 18 ≤ 22) ∧
  bigintHexToNumber (toHex (10 ^ 18 + 1)) 18 = Ok (round_Q (inject_Z (10 ^ 18 + 1) / inject_Z (10 ^ 18))) ∧
  round_Q (inject_Z (10 ^ 18 + 1) / inject_Z (10 ^ 18)) = Some 1%Q.
Proof.
  split; [lia|]. split; [apply bigintHexToNumber_rounded; lia | vm_compute; reflexivity].
Defined.

(** At 23 decimals the scale factor is the double nearest [10^23], and a
    balance of exactly one token ([10^23] minor units) gives the literal
    ["1.00000000000000008388608"], not ["1.0..."]; its nearest double
    happens to be [1]. *)
Theorem bigintHexToNumber_inexact_23 :
  bigintHexToLiteral (toHex (10 ^ 23)) 23 = Ok "1.00000000000000008388608" ∧
  bigintHexToNumber (toHex (10 ^ 23)) 23 = Ok (Some 1%Q).
Proof. split; vm_compute; reflexivity. Qed.

End Scaling.
