(* ===== verification/Tvl.v ===== *)
(** * TVL reconstruction: [addCurrentTokenBalances]

    Models [addCurrentTokenBalances(inflow, outflow, address, currentBlock)]
    of src/plugins/eth-data/transfer-events.ts (lines 91-165), the heart of
    the pipeline.  The function

    - tags every inflow object [flow = 1] and every outflow object
      [flow = -1] (a write through the shared objects: [tag_flow]);
    - collects the distinct non-ETH token addresses ([allTokenAddresses]:
      [uniqBy], [map], [pull(null)], [pull('')]);
    - asks the provider for their current balances and metadata, scales them
      with [bigintHexToNumber], and records them per token address and per
      symbol ([scale_tokens]); adds the ETH balance when an ETH transfer is
      present ([hasEthTransfer]);
    - sorts the transfers by [timestamp] (lodash's stable [sortBy]) and
      reverses, then walks them ([walk]): the first record (global index 0)
      takes the snapshot balance of its token, every later record takes
      [currentTokenTvl[token] + t.flow * t.value], and the result is written
      back both into the running map and into the record's [tvl].

    The provider is an interface ([BalanceProvider]): every theorem holds for
    any provider.  Amounts are [option Q] ([num]): [None] is [undefined] or
    [NaN], which JS arithmetic propagates.  Amounts are compared with [≡]
    (rational equality lifted to [option]), and the walk respects it
    ([Proper] instances).

    Section [Run] proves the walk's closed form once; [run_final_closed_form]
    restates it in terms of the heap after the run alone (the walk writes
    only [tvl], [tvl_only]), which is the form [Fetcher] composes with the
    allocation of the fetched records. *)

From S2P Require Import Prelude JsString Transfers Scaling.
From Stdlib Require Import Sorted Permutation.

Module Tvl.
Import Transfers.

(** ** Amounts *)

#[export] Instance Q_equiv : Equiv Q := Qeq.
#[export] Instance Q_equivalence : Equivalence (≡@{Q}).
Proof. apply Q_Setoid. Qed.

(** A JS number that may be [undefined] or [NaN]. *)
Abbreviation num := (option Q).

(** [running + flow * value], [NaN] when either operand is missing. *)
Definition add_flow (running : num) (f : option Z) (v : Q) : num :=
  match running, f with
  | Some r, Some f => Some (r + inject_Z f * v)%Q
  | _, _ => None
  end.

#[export] Instance add_flow_proper : Proper ((≡) ==> (=) ==> (≡) ==> (≡)) add_flow.
Proof.
  intros [r|] [r'|] Hr f ? <- v v' Hv; inv Hr; destruct f; constructor.
  match goal with H : r ≡ r' |- _ => change (r == r')%Q in H end.
  change (r + inject_Z z * v == r' + inject_Z z * v')%Q.
  unfold equiv, Q_equiv in Hv. rewrite H1, Hv. reflexivity.
Qed.

(** ** Provider interface *)

Record TokenBalance := mkTokenBalance {
  contractAddress : string;
  tokenBalance : option string      (** hex, or [null] *)
}.

Record TokenMetadata := mkTokenMetadata {
  decimals : option Z;
  symbol : option string
}.

(** The three alchemy-sdk calls of [addCurrentTokenBalances]. *)
Class BalanceProvider := {
  getTokenBalances : string → list string → outcome (list TokenBalance);
  getTokenMetadata : string → outcome TokenMetadata;
  getBalance : string → Z → outcome string      (** the [_hex] field *)
}.

(** ** Sorting: lodash [sortBy] is stable and ascending *)

Fixpoint insert_by {A} (key : A → Z) (x : A) (l : list A) : list A :=
  match l with
  | [] => [x]
  | y :: l' => if decide (key x < key y)%Z then x :: l else y :: insert_by key x l'
  end.

Definition sortBy {A} (key : A → Z) (l : list A) : list A :=
  foldl (λ acc x, insert_by key x acc) [] l.

(** ** The steps of [addCurrentTokenBalances] *)

(** [xs.forEach((t) => (t.flow = f))] *)
Definition tag_flow (f : Z) (h : heap) (ls : list nat) : heap :=
  foldl (λ h l, alter (set_flow f) l h) h ls.

(** [_.uniqBy(xs, key)]: the first element of each key, in order. *)
Fixpoint uniqBy_aux {A B} `{EqDecision B} (key : A → B) (seen : list B) (l : list A) : list A :=
  match l with
  | [] => []
  | x :: l' =>
      if decide (key x ∈ seen) then uniqBy_aux key seen l'
      else x :: uniqBy_aux key (key x :: seen) l'
  end.

Definition uniqBy {A B} `{EqDecision B} (key : A → B) (l : list A) : list A :=
  uniqBy_aux key [] l.

(** [_.chain(transfers).uniqBy('tokenAddress').map('tokenAddress')
      .pull(null).pull('').value()] *)
Definition allTokenAddresses (ts : list CleanTransfers) : list string :=
  omap (λ a, match a with
             | Some s => if decide (s = ""%string) then None else Some s
             | None => None
             end)
       (tokenAddress <$> uniqBy tokenAddress ts).

(** [tokenBalances.reduce((acc, b) => { acc[b.contractAddress] = b.tokenBalance!; ... }, {})] *)
Definition balancesByAddress (bs : list TokenBalance) : gmap string (option string) :=
  foldl (λ acc b, <[contractAddress b := tokenBalance b]> acc) ∅ bs.

(** [_.find(transfers, {tokenAddress: null}) || _.find(transfers, {tokenAddress: ''})] *)
Definition hasEthTransfer (ts : list CleanTransfers) : bool :=
  bool_decide (Exists (λ t, tokenAddress t = None) ts) ||
  bool_decide (Exists (λ t, tokenAddress t = Some ""%string) ts).

(** The key of a record in the running map: [t.tokenAddress || 'ETH']. *)
Definition tvlKey (t : CleanTransfers) : string :=
  match tokenAddress t with
  | Some s => if decide (s = ""%string) then "ETH"%string else s
  | None => "ETH"%string
  end.

(** [JSON key] of a symbol: a [null] symbol becomes the key ["null"]. *)
Definition symbolKey (s : option string) : string := default "null"%string s.

Section WithProvider.
Context `{BalanceProvider}.

(** The per-token body of [Promise.all(allTokenAddresses.map(async ...))],
    run in list order: scale the balance with the token's decimals and
    record it under the token address and under the symbol. *)
Fixpoint scale_tokens (hex : gmap string (option string)) (tokens : list string)
    (byAddr bySym : gmap string num) : outcome (gmap string num * gmap string num) :=
  match tokens with
  | [] => Ok (byAddr, bySym)
  | tokenAddr :: rest =>
      meta ← getTokenMetadata tokenAddr;
      v ← (match hex !! tokenAddr with
           | Some (Some hx) => Scaling.bigintHexToNumber hx (default 0%Z (decimals meta))
           | _ => throw "invalid hex value"%string
           end);
      scale_tokens hex rest (<[tokenAddr := v]> byAddr) (<[symbolKey (symbol meta) := v]> bySym)
  end.

(** The backward walk over the sorted locations: global index [i], the
    shared heap and the running per-token map. *)
Fixpoint walk (i : nat) (ls : list nat) (h : heap) (bal : gmap string num)
    : heap * gmap string num :=
  match ls with
  | [] => (h, bal)
  | l :: ls' =>
      match h !! l with
      | None => walk (S i) ls' h bal
      | Some t =>
          let key := tvlKey t in
          let runningTvl := default None (bal !! key) in
          let tvl := if decide (i = 0) then runningTvl else add_flow runningTvl (flow t) (value t) in
          walk (S i) ls' (<[l := set_tvl tvl t]> h) (<[key := tvl]> bal)
      end
  end.

Definition timestampAt (h : heap) (l : nat) : Z := default 0%Z (timestamp <$> h !! l).

(** Lines 97-98: [inflow.forEach(t => t.flow = 1); outflow.forEach(t => t.flow = -1)]. *)
Definition tagged (h : heap) (inflow outflow : list nat) : heap :=
  tag_flow (-1) (tag_flow 1 h inflow) outflow.

(** Lines 100-150: the balance snapshot, per token address (the walk's
    starting point [currentTokenTvl]) and per symbol (the result). *)
Definition currentTokenBalances (h : heap) (transfers : list nat)
    (address : string) (currentBlock : Z) : outcome (gmap string num * gmap string num) :=
  let recs := deref h transfers in
  let tokens := allTokenAddresses recs in
  hex ← (match tokens with
         | [] => Ok ∅
         | _ => bs ← getTokenBalances address tokens; Ok (balancesByAddress bs)
         end);
  '(byAddr, bySym) ← scale_tokens hex tokens ∅ ∅;
  if hasEthTransfer recs then
    ethHex ← getBalance address currentBlock;
    v ← Scaling.bigintHexToNumber ethHex 18;
    Ok (<["ETH"%string := v]> byAddr, <["ETH"%string := v]> bySym)
  else Ok (byAddr, bySym).

(** [addCurrentTokenBalances(inflow, outflow, address, currentBlock)]: the
    heap after the writes, and the returned [currentTokenTvlSymbols]. *)
Definition addCurrentTokenBalances (h : heap) (inflow outflow : list nat)
    (address : string) (currentBlock : Z) : outcome (heap * gmap string num) :=
  let h2 := tagged h inflow outflow in
  let transfers := inflow ++ outflow in
  '(byAddr, bySym) ← currentTokenBalances h2 transfers address currentBlock;
  let sorted := reverse (sortBy (timestampAt h2) transfers) in
  Ok (fst (walk 0 sorted h2 byAddr), bySym).

End WithProvider.

(** ** The walk, as a closed form *)

(** The running value of a key ([undefined] when absent). *)
Definition get (m : gmap string num) (k : string) : num := default None (m !! k).

Definition add_sum (n : num) (q : Q) : num := (λ r, r + q)%Q <$> n.

(** What the walk reads from a record: its key, flow and value. *)
Abbreviation entry := (string * option Z * Q)%type.
Definition entry_of (t : CleanTransfers) : entry := (tvlKey t, flow t, value t).
Definition entries (h : heap) (ls : list nat) : list entry := entry_of <$> deref h ls.

(** [Σ flow * value] over the entries of key [k]. *)
Fixpoint flow_sum (k : string) (es : list entry) : Q :=
  match es with
  | [] => 0%Q
  | (k', f, v) :: es' =>
      ((if decide (k' = k) then inject_Z (default 0%Z f) * v else 0) + flow_sum k es')%Q
  end.

#[export] Instance add_sum_proper : Proper ((≡) ==> (≡) ==> (≡)) add_sum.
Proof.
  intros [r|] [r'|] Hr q q' Hq; inv Hr; constructor.
  unfold equiv, Q_equiv in *. by rewrite H1, Hq.
Qed.

Lemma add_sum_0 n : add_sum n 0 ≡ n.
Proof. destruct n; constructor. unfold equiv, Q_equiv. simpl. ring. Qed.

Lemma add_flow_add_sum n q f v :
  add_flow (add_sum n q) (Some f) v ≡ add_sum n (q + inject_Z f * v)%Q.
Proof. destruct n; constructor. unfold equiv, Q_equiv. simpl. ring. Qed.

Lemma flow_sum_app k es1 es2 : flow_sum k (es1 ++ es2) ≡ (flow_sum k es1 + flow_sum k es2)%Q.
Proof.
  unfold equiv, Q_equiv. induction es1 as [|[[k' f] v] es1 IH]; simpl; [ring|].
  rewrite IH. ring.
Qed.

Lemma flow_sum_one_ne k k' f v : k' ≠ k → flow_sum k [(k', f, v)] ≡ 0%Q.
Proof. intros Hk. unfold equiv, Q_equiv. simpl. case_decide; [done|]. ring. Qed.

Lemma flow_sum_one_eq k f v : flow_sum k [(k, f, v)] ≡ (inject_Z (default 0%Z f) * v)%Q.
Proof. unfold equiv, Q_equiv. simpl. case_decide; [ring | done]. Qed.

Lemma get_insert m k k' v : get (<[k := v]> m) k' = if decide (k = k') then v else get m k'.
Proof. unfold get. case_decide; subst; [by rewrite lookup_insert_eq | by rewrite lookup_insert_ne]. Qed.

Lemma entries_cons h l ls :
  entries h (l :: ls) = (match h !! l with Some t => [entry_of t] | None => [] end) ++ entries h ls.
Proof. unfold entries, deref. simpl. by destruct (h !! l). Qed.

Lemma entries_insert_set_tvl h l t v ls :
  h !! l = Some t → entries (<[l := set_tvl v t]> h) ls = entries h ls.
Proof.
  intros Ht. induction ls as [|l' ls IH]; [done|].
  rewrite !entries_cons, IH. f_equal.
  destruct (decide (l = l')) as [<-|Hne].
  - by rewrite lookup_insert_eq, Ht.
  - by rewrite lookup_insert_ne.
Qed.

(** Locations the walk does not visit are left alone. *)
Lemma walk_frame i ls h bal l :
  l ∉ ls → (walk i ls h bal).1 !! l = h !! l.
Proof.
  revert i h bal. induction ls as [|l' ls IH]; intros i h bal Hl; [done|].
  apply not_elem_of_cons in Hl as [Hne Hl]. simpl.
  destruct (h !! l'); rewrite IH by done; [by rewrite lookup_insert_ne | done].
Qed.

(** The running map after the prefix [P] of entries has been walked. *)
Definition walk_inv (bal0 bal : gmap string num) (P : list entry) : Prop :=
  ∀ k, get bal k ≡ add_sum (get bal0 k) (flow_sum k (drop 1 P)).

Lemma walk_inv_init bal0 : walk_inv bal0 bal0 [].
Proof. intros k. simpl. symmetry. apply add_sum_0. Qed.

(** One step of the walk, at global index [length P]. *)
Lemma walk_inv_step bal0 bal P t f :
  walk_inv bal0 bal P → flow t = Some f →
  let v := if decide (length P = 0) then get bal (tvlKey t)
           else add_flow (get bal (tvlKey t)) (flow t) (value t) in
  walk_inv bal0 (<[tvlKey t := v]> bal) (P ++ [entry_of t]).
Proof.
  intros Hinv Hf v k. rewrite get_insert. unfold v, entry_of. rewrite Hf.
  destruct P as [|e P].
  - simpl. case_decide as Hk; [subst k|]; apply Hinv.
  - rewrite drop_app_le by (simpl; lia).
    destruct (decide (length (e :: P) = 0)) as [Hl|_]; [simpl in Hl; lia|].
    rewrite flow_sum_app. case_decide as Hk.
    + subst k. rewrite (Hinv (tvlKey t)), add_flow_add_sum, flow_sum_one_eq. done.
    + rewrite (Hinv k), flow_sum_one_ne by done.
      apply add_sum_proper; [done|]. unfold equiv, Q_equiv. ring.
Qed.

(** Every visited record is written once, with the closed form of its
    index: the snapshot plus [Σ flow * value] of the same key over the
    walked entries after the first one, up to and including its own. *)
Lemma walk_spec bal0 ls : ∀ P h bal,
  walk_inv bal0 bal P → NoDup ls →
  (∀ l, l ∈ ls → ∃ t f, h !! l = Some t ∧ flow t = Some f) →
  ∀ j l t, ls !! j = Some l → h !! l = Some t →
  ∃ v, (walk (length P) ls h bal).1 !! l = Some (set_tvl v t) ∧
       v ≡ add_sum (get bal0 (tvlKey t))
                   (flow_sum (tvlKey t) (drop 1 (P ++ take (S j) (entries h ls)))).
Proof.
  induction ls as [|l0 ls IH]; intros P h bal Hinv Hnd Hdef j l t Hj Ht; [done|].
  apply NoDup_cons in Hnd as [Hl0 Hnd].
  destruct (Hdef l0 (list_elem_of_here _ _)) as (t0 & f0 & Ht0 & Hf0).
  pose proof (walk_inv_step bal0 bal P t0 f0 Hinv Hf0) as Hinv'. simpl in Hinv'.
  set (v0 := if decide (length P = 0) then get bal (tvlKey t0)
             else add_flow (get bal (tvlKey t0)) (flow t0) (value t0)) in Hinv'.
  simpl. rewrite Ht0. fold v0.
  replace (S (length P)) with (length (P ++ [entry_of t0])) by (rewrite length_app; simpl; lia).
  rewrite entries_cons, Ht0.
  destruct j as [|j].
  - injection Hj as <-. rewrite Ht0 in Ht. injection Ht as <-.
    exists v0. split.
    + rewrite walk_frame by done. by rewrite lookup_insert_eq.
    + specialize (Hinv' (tvlKey t0)). rewrite get_insert in Hinv'.
      destruct (decide (tvlKey t0 = tvlKey t0)); [|done]. exact Hinv'.
  - simpl in Hj.
    assert (Hne : l0 ≠ l) by (intros <-; apply Hl0; by eapply list_elem_of_lookup_2).
    destruct (IH (P ++ [entry_of t0]) (<[l0 := set_tvl v0 t0]> h) (<[tvlKey t0 := v0]> bal)
                 Hinv' Hnd) with (j := j) (l := l) (t := t) as (v & Hv & Heq).
    { intros l' Hl'. destruct (Hdef l' (list_elem_of_further _ _ _ Hl')) as (t' & f' & Ht' & Hf').
      exists t', f'. rewrite lookup_insert_ne; [done|]. by intros <-. }
    { exact Hj. }
    { by rewrite lookup_insert_ne. }
    exists v. split; [exact Hv|]. rewrite Heq, entries_insert_set_tvl by done.
    simpl take. by rewrite <- app_assoc.
Qed.

(** ** Flow tagging through the shared objects *)

Lemma tag_flow_lookup f h ls l :
  tag_flow f h ls !! l = if decide (l ∈ ls) then set_flow f <$> h !! l else h !! l.
Proof.
  unfold tag_flow. revert h. induction ls as [|l' ls IH]; intros h; simpl.
  - destruct (decide (l ∈ [])) as [Hl|]; [by apply not_elem_of_nil in Hl | done].
  - rewrite IH. destruct (decide (l' = l)) as [<-|Hne].
    + rewrite lookup_alter_eq. destruct (h !! l'); simpl;
        repeat case_decide; (reflexivity || set_solver).
    + rewrite lookup_alter_ne by done. repeat case_decide; (reflexivity || set_solver).
Qed.

(** Lines 97-98 as seen through any array holding the object: the outflow
    tag is written last, so an object in both arrays ends with [-1]. *)
Lemma tagged_lookup h inflow outflow l :
  tagged h inflow outflow !! l =
    if decide (l ∈ outflow) then set_flow (-1) <$> h !! l
    else if decide (l ∈ inflow) then set_flow 1 <$> h !! l
    else h !! l.
Proof.
  unfold tagged. rewrite !tag_flow_lookup.
  repeat case_decide; try done; by destruct (h !! l).
Qed.

(** ** Sorting *)

Lemma insert_by_perm {A} (key : A → Z) x l : insert_by key x l ≡ₚ x :: l.
Proof.
  induction l as [|y l IH]; simpl; [done|].
  case_decide; [done|]. rewrite IH. apply perm_swap.
Qed.

Lemma sortBy_perm {A} (key : A → Z) l : sortBy key l ≡ₚ l.
Proof.
  unfold sortBy. rewrite <- (app_nil_l l) at 2. generalize (@nil A) as acc.
  induction l as [|x l IH]; intros acc; simpl; [by rewrite app_nil_r|].
  rewrite IH, insert_by_perm. by rewrite <- Permutation_middle.
Qed.

Lemma insert_by_HdRel {A} (key : A → Z) x y l :
  (key y ≤ key x)%Z → HdRel (λ a b, key a ≤ key b)%Z y l →
  HdRel (λ a b, key a ≤ key b)%Z y (insert_by key x l).
Proof.
  intros Hxy Hl. destruct l as [|z l]; simpl; [by constructor|].
  case_decide; constructor; [done|]. by inv Hl.
Qed.

Lemma insert_by_sorted {A} (key : A → Z) x l :
  Sorted (λ a b, key a ≤ key b)%Z l → Sorted (λ a b, key a ≤ key b)%Z (insert_by key x l).
Proof.
  induction l as [|y l IH]; intros Hs; simpl; [by repeat constructor|].
  apply Sorted_inv in Hs as [Hl Hy].
  case_decide.
  - constructor; [by constructor | constructor; lia].
  - constructor; [by apply IH|]. apply insert_by_HdRel; [lia | done].
Qed.

Lemma sortBy_sorted {A} (key : A → Z) l : Sorted (λ a b, key a ≤ key b)%Z (sortBy key l).
Proof.
  unfold sortBy. cut (∀ acc, Sorted (λ a b, key a ≤ key b)%Z acc →
    Sorted (λ a b, key a ≤ key b)%Z (foldl (λ acc x, insert_by key x acc) acc l)).
  { intros H. apply H. constructor. }
  induction l as [|x l IH]; intros acc Hacc; simpl; [done|]. by apply IH, insert_by_sorted.
Qed.

Lemma sorted_transfers_perm h ls :
  reverse (sortBy (timestampAt h) ls) ≡ₚ ls.
Proof. by rewrite reverse_Permutation, sortBy_perm. Qed.

Lemma tagged_flow_defined h inflow outflow l :
  l ∈ inflow ++ outflow → is_Some (h !! l) →
  ∃ t f, tagged h inflow outflow !! l = Some t ∧ flow t = Some f.
Proof.
  intros Hl [t Ht]. rewrite tagged_lookup, Ht.
  repeat case_decide; simpl; eauto. set_solver.
Qed.

(** ** The recurrence of the walk *)

(** The sum the closed form attaches to sorted position [j]. *)
Definition prefix_flow (es : list entry) (k : string) (j : nat) : Q :=
  flow_sum k (drop 1 (take (S j) es)).

Lemma flow_sum_zero k es : Forall (λ e : entry, e.1.1 ≠ k) es → flow_sum k es ≡ 0%Q.
Proof.
  unfold equiv, Q_equiv. induction 1 as [|[[k' f] v] es Hk _ IH]; simpl in *; [done|].
  case_decide; [done|]. rewrite IH. ring.
Qed.

(** Between two positions [i < j] with no entry of key [k] strictly in
    between, the sum grows by the contribution of position [j] alone. *)
Lemma prefix_flow_step es k i j e :
  (i < j)%nat → es !! j = Some e →
  (∀ m e', (i < m < j)%nat → es !! m = Some e' → e'.1.1 ≠ k) →
  prefix_flow es k j ≡ (prefix_flow es k i + flow_sum k [e])%Q.
Proof.
  intros Hij Hj Hmid. unfold prefix_flow.
  assert (Hlen : (j < length es)%nat) by (by apply lookup_lt_Some in Hj).
  assert (Hsplit : take (S j) es = take (S i) es ++ take (j - S i) (drop (S i) es) ++ [e]).
  { replace (S j) with (S i + S (j - S i))%nat by lia. rewrite <- take_take_drop. f_equal.
    apply take_S_r. rewrite lookup_drop. by replace (S i + (j - S i))%nat with j by lia. }
  rewrite Hsplit, drop_app_le by (rewrite length_take; lia).
  rewrite !flow_sum_app, (flow_sum_zero k (take _ (drop _ _))).
  - unfold equiv, Q_equiv. ring.
  - apply Forall_lookup. intros m e' Hm. rewrite lookup_take_Some in Hm.
    destruct Hm as [Hm Hlt]. rewrite lookup_drop in Hm. apply (Hmid (S i + m)%nat); [lia | done].
Qed.

(** The [tvl] field of the object at [l] ([undefined] when absent). *)
Definition tvlAt (h : heap) (l : nat) : num :=
  match h !! l with Some t => tvl t | None => None end.

(** Reading the [j]-th entry of an array whose objects all exist. *)
Lemma entries_lookup hh ls :
  (∀ l, l ∈ ls → is_Some (hh !! l)) →
  ∀ m e, entries hh ls !! m = Some e ↔ ∃ l t, ls !! m = Some l ∧ hh !! l = Some t ∧ e = entry_of t.
Proof.
  induction ls as [|l0 ls IH]; intros Hall m e; [split; [done | by intros (? & ? & ? & _)]|].
  destruct (Hall l0 (list_elem_of_here _ _)) as [t0 Ht0].
  rewrite entries_cons, Ht0.
  assert (Hall' : ∀ l, l ∈ ls → is_Some (hh !! l)) by (intros; apply Hall; by apply list_elem_of_further).
  destruct m as [|m]; simpl.
  - split; [intros [= <-]; eauto | by intros (l & t & [= <-] & Ht & ->); rewrite Ht in Ht0; injection Ht0 as ->].
  - apply IH, Hall'.
Qed.

(** The flow tags touch only the objects of the two arrays. *)
Lemma tagged_frame h inflow outflow l :
  l ∉ inflow ++ outflow → tagged h inflow outflow !! l = h !! l.
Proof. intros Hl. rewrite tagged_lookup. repeat case_decide; set_solver. Qed.

(** [addCurrentTokenBalances] writes only the objects of its two arrays. *)
Lemma addCurrentTokenBalances_frame `{BalanceProvider} h inflow outflow address cb h' sym l :
  addCurrentTokenBalances h inflow outflow address cb = Ok (h', sym) →
  l ∉ inflow ++ outflow → h' !! l = h !! l.
Proof.
  unfold addCurrentTokenBalances. intros E Hl. outcome_inv.
  match goal with p : (gmap string num * gmap string num)%type |- _ => destruct p end.
  simplify_eq/=. rewrite walk_frame, tagged_frame by (rewrite ?sorted_transfers_perm; done). done.
Qed.

(** A successful run went through a successful balance snapshot, whose
    per-symbol map it returns. *)
Lemma addCurrentTokenBalances_Ok_inv `{BalanceProvider} h inflow outflow address cb h' sym :
  addCurrentTokenBalances h inflow outflow address cb = Ok (h', sym) →
  ∃ byAddr, currentTokenBalances (tagged h inflow outflow) (inflow ++ outflow) address cb = Ok (byAddr, sym).
Proof.
  unfold addCurrentTokenBalances. intros E. outcome_inv.
  match goal with p : (gmap string num * gmap string num)%type |- _ => destruct p end.
  simplify_eq/=. eauto.
Qed.

(** ** Reading the results back from the final heap *)

(** Two heaps agree on the objects of [ls] except for their [tvl]. *)
Definition tvl_only (h h' : heap) (ls : list nat) : Prop :=
  ∀ l, l ∈ ls → ∃ t v, h !! l = Some t ∧ h' !! l = Some (set_tvl v t).

Lemma insert_by_ext {A} (f g : A → Z) x l :
  (∀ y, y ∈ x :: l → f y = g y) → insert_by f x l = insert_by g x l.
Proof.
  induction l as [|y l IH]; intros Hfg; simpl; [done|].
  rewrite (Hfg x), (Hfg y) by set_solver. case_decide; [done|]. f_equal. apply IH. set_solver.
Qed.

Lemma sortBy_ext {A} (f g : A → Z) l :
  (∀ x, x ∈ l → f x = g x) → sortBy f l = sortBy g l.
Proof.
  intros Hfg. unfold sortBy.
  assert (Hgen : ∀ acc, (∀ x, x ∈ acc ++ l → f x = g x) →
            foldl (λ acc x, insert_by f x acc) acc l = foldl (λ acc x, insert_by g x acc) acc l).
  { clear Hfg. induction l as [|x l IH]; intros acc Hacc; simpl; [done|].
    rewrite (insert_by_ext f g) by (intros y Hy; apply Hacc; set_solver).
    apply IH. intros y [Hy|Hy]%elem_of_app; apply Hacc; [|set_solver].
    rewrite (insert_by_perm g x acc) in Hy. set_solver. }
  by apply Hgen.
Qed.

Lemma uniqBy_aux_keys {A B} `{EqDecision B} (key : A → B) seen (l l' : list A) :
  key <$> l = key <$> l' → key <$> uniqBy_aux key seen l = key <$> uniqBy_aux key seen l'.
Proof.
  revert seen l'. induction l as [|x l IH]; intros seen [|x' l'] Hk; simpl in *; try discriminate; [done|].
  injection Hk as Hx Hl. rewrite Hx. case_decide; [exact (IH _ _ Hl)|]. simpl. by rewrite Hx, (IH _ l' Hl).
Qed.

(** The balance snapshot reads the records' token addresses only. *)
Lemma currentTokenBalances_ext `{BalanceProvider} h h' ls address cb :
  tokenAddress <$> deref h ls = tokenAddress <$> deref h' ls →
  currentTokenBalances h ls address cb = currentTokenBalances h' ls address cb.
Proof.
  intros Hk. unfold currentTokenBalances, allTokenAddresses, hasEthTransfer, uniqBy. cbv zeta.
  rewrite (uniqBy_aux_keys _ [] _ _ Hk).
  assert (HE : ∀ P `{∀ x, Decision (P x)},
            bool_decide (Exists (λ t, P (tokenAddress t)) (deref h ls)) =
            bool_decide (Exists (λ t, P (tokenAddress t)) (deref h' ls))).
  { intros P ?. apply bool_decide_ext.
    transitivity (Exists P (tokenAddress <$> deref h ls)); [by rewrite Exists_fmap|].
    rewrite Hk. by rewrite Exists_fmap. }
  by rewrite (HE (λ a, a = None)), (HE (λ a, a = Some ""%string) (λ a, decide_rel (=) a (Some ""%string))).
Qed.

Lemma tvl_only_deref h h' ls :
  tvl_only h h' ls → ∀ {B} (f : CleanTransfers → B),
  (∀ t v, f (set_tvl v t) = f t) → f <$> deref h' ls = f <$> deref h ls.
Proof.
  induction ls as [|l ls IH]; intros Hto B f Hf; [done|]. unfold deref in *. simpl.
  destruct (Hto l (list_elem_of_here _ _)) as (t & v & -> & ->). simpl.
  rewrite Hf, IH; [done| |done]. intros l' Hl'. apply Hto. by apply list_elem_of_further.
Qed.

(** ** One run of [addCurrentTokenBalances] *)

Section Run.
Context `{BalanceProvider} (h : heap) (inflow outflow : list nat) (address : string) (cb : Z)
        (byAddr bySym : gmap string num).
Hypothesis Hnd : NoDup (inflow ++ outflow).
Hypothesis Hdom : ∀ l, l ∈ inflow ++ outflow → is_Some (h !! l).
Hypothesis Hsnap :
  currentTokenBalances (tagged h inflow outflow) (inflow ++ outflow) address cb = Ok (byAddr, bySym).

Local Abbreviation h2 := (tagged h inflow outflow).
Local Abbreviation sorted := (reverse (sortBy (timestampAt h2) (inflow ++ outflow))).
Local Abbreviation es := (entries h2 sorted).

Lemma run_closed_form h' sym :
  addCurrentTokenBalances h inflow outflow address cb = Ok (h', sym) →
  sym = bySym ∧
  ∀ j l t, sorted !! j = Some l → h2 !! l = Some t →
    ∃ v, h' !! l = Some (set_tvl v t) ∧ v ≡ add_sum (get byAddr (tvlKey t)) (prefix_flow es (tvlKey t) j).
Proof.
  unfold addCurrentTokenBalances. rewrite Hsnap. simpl. intros [= <- <-].
  split; [done|]. intros j l t Hj Ht.
  apply (walk_spec byAddr _ [] _ byAddr (walk_inv_init _)); [| | done | done].
  - by rewrite sorted_transfers_perm.
  - intros l' Hl'. rewrite sorted_transfers_perm in Hl'. apply tagged_flow_defined; auto.
Qed.

Lemma run_all_defined l : l ∈ sorted → is_Some (h2 !! l).
Proof.
  intros Hl. rewrite sorted_transfers_perm in Hl.
  destruct (tagged_flow_defined h inflow outflow l Hl (Hdom l Hl)) as (? & ? & -> & _). by eexists.
Qed.

Lemma run_entry m e :
  es !! m = Some e ↔ ∃ l t, sorted !! m = Some l ∧ h2 !! l = Some t ∧ e = entry_of t.
Proof. apply entries_lookup, run_all_defined. Qed.

(** The closed form read through the records as they were before the
    flow tags: the object keeps its record, with its tag and the [tvl]. *)
Lemma run_tagged_closed_form h' sym :
  addCurrentTokenBalances h inflow outflow address cb = Ok (h', sym) →
  sym = bySym ∧
  ∀ j l t0, sorted !! j = Some l → h !! l = Some t0 →
    ∃ v, h' !! l = Some (set_tvl v (set_flow (if decide (l ∈ outflow) then -1 else 1)%Z t0)) ∧
         v ≡ add_sum (get byAddr (tvlKey t0)) (prefix_flow es (tvlKey t0) j).
Proof.
  intros E. destruct (run_closed_form h' sym E) as [-> Hcf]. split; [done|].
  intros j l t0 Hj Ht0.
  assert (Hl : l ∈ inflow ++ outflow) by (rewrite <- sorted_transfers_perm; by eapply list_elem_of_lookup_2).
  assert (Ht : h2 !! l = Some (set_flow (if decide (l ∈ outflow) then -1 else 1)%Z t0)).
  { rewrite tagged_lookup, Ht0. repeat case_decide; set_solver || done. }
  exact (Hcf j l _ Hj Ht).
Qed.

(** Every object of the two arrays ends with its flow tag and a [tvl]. *)
Lemma run_tagged_elem h' sym l t0 :
  addCurrentTokenBalances h inflow outflow address cb = Ok (h', sym) →
  l ∈ inflow ++ outflow → h !! l = Some t0 →
  ∃ v, h' !! l = Some (set_tvl v (set_flow (if decide (l ∈ outflow) then -1 else 1)%Z t0)).
Proof.
  intros E Hl Ht0. destruct (run_tagged_closed_form h' sym E) as [_ Hcf].
  assert (Hs : l ∈ sorted) by (by rewrite sorted_transfers_perm).
  apply list_elem_of_lookup_1 in Hs as [j Hj].
  destruct (Hcf j l t0 Hj Ht0) as (v & Hv & _). eauto.
Qed.

(** The walk changes only the [tvl] of the objects. *)
Lemma run_tvl_only h' sym :
  addCurrentTokenBalances h inflow outflow address cb = Ok (h', sym) → tvl_only h2 h' (inflow ++ outflow).
Proof.
  intros E l Hl. destruct (run_closed_form h' sym E) as [_ Hcf].
  assert (Hs : l ∈ sorted) by (by rewrite sorted_transfers_perm).
  destruct (run_all_defined l Hs) as [t Ht].
  apply list_elem_of_lookup_1 in Hs as [j Hj].
  destruct (Hcf j l t Hj Ht) as (v & Hv & _). eauto.
Qed.

(** The closed form read back from the final heap alone: the order of the
    objects, their keys, flows and values and the balance snapshot are
    those the objects carry once the walk is over. *)
Lemma run_final_closed_form h' sym :
  addCurrentTokenBalances h inflow outflow address cb = Ok (h', sym) →
  currentTokenBalances h' (inflow ++ outflow) address cb = Ok (byAddr, sym) ∧
  ∀ j l t, reverse (sortBy (timestampAt h') (inflow ++ outflow)) !! j = Some l → h' !! l = Some t →
    tvl t ≡ add_sum (get byAddr (tvlKey t))
              (prefix_flow (entries h' (reverse (sortBy (timestampAt h') (inflow ++ outflow)))) (tvlKey t) j).
Proof.
  intros E. pose proof (run_tvl_only h' sym E) as Hto.
  destruct (run_closed_form h' sym E) as [-> Hcf].
  assert (Hsort : sortBy (timestampAt h') (inflow ++ outflow) = sortBy (timestampAt h2) (inflow ++ outflow)).
  { apply sortBy_ext. intros l Hl. destruct (Hto l Hl) as (t & v & Ht & Ht').
    unfold timestampAt. by rewrite Ht, Ht'. }
  assert (Hes : entries h' sorted = es).
  { apply (tvl_only_deref h2 h'); [|done].
    intros l Hl. apply Hto. by rewrite <- sorted_transfers_perm. }
  split.
  - rewrite <- Hsnap. apply currentTokenBalances_ext. by apply (tvl_only_deref h2 h').
  - rewrite Hsort, Hes. intros j l t Hj Ht.
    assert (Hl : l ∈ inflow ++ outflow) by (rewrite <- sorted_transfers_perm; by eapply list_elem_of_lookup_2).
    destruct (Hto l Hl) as (t0 & v0 & Ht0 & _).
    destruct (Hcf j l t0 Hj Ht0) as (v & Hv & Heq). rewrite Hv in Ht. by injection Ht as <-.
Qed.

(** C1: The running TVL the code writes.  Whenever the balance snapshot
    succeeds, [addCurrentTokenBalances] succeeds and returns the snapshot by
    symbol; the object at position [j] of the timestamp-descending order,
    which held the record [t0], now holds [t0] with its flow tag ([-1] when
    it is in [outflow], [1] otherwise) and
    [tvl = snapshot[token] + Σ flow * value] over the records of the same
    token at positions [1..j]: its own flow included, the flows of the more
    recent records not undone.  (Position 0 gets the snapshot itself.) *)
Theorem addCurrentTokenBalances_runningTvl :
  ∃ h', addCurrentTokenBalances h inflow outflow address cb = Ok (h', bySym) ∧
    ∀ j l t0, sorted !! j = Some l → h !! l = Some t0 →
      ∃ v, h' !! l = Some (set_tvl v (set_flow (if decide (l ∈ outflow) then -1 else 1)%Z t0)) ∧
           v ≡ add_sum (get byAddr (tvlKey t0)) (prefix_flow es (tvlKey t0) j).
Proof.
  destruct (addCurrentTokenBalances h inflow outflow address cb) as [[h' sym]|m] eqn:E.
  - destruct (run_tagged_closed_form h' sym E) as [-> Hcf]. by exists h'.
  - exfalso. revert E. unfold addCurrentTokenBalances. by rewrite Hsnap.
Qed.

(** C2: The recurrence the code implements.  For two records [i < j] of
    the same token in the timestamp-descending order, with no record of that
    token in between, the earlier record (position [j]) gets
    [tvl_j = tvl_i + flow_j * value_j]: it adds its own flow to the more
    recent record's balance.  The specification's invariant is
    [tvl_j = tvl_i - flow_i * value_i]. *)
Theorem addCurrentTokenBalances_recurrence h' sym i j li lj ti tj :
  addCurrentTokenBalances h inflow outflow address cb = Ok (h', sym) →
  (i < j)%nat → sorted !! i = Some li → sorted !! j = Some lj →
  h2 !! li = Some ti → h2 !! lj = Some tj → tvlKey ti = tvlKey tj →
  (∀ m lm tm, (i < m < j)%nat → sorted !! m = Some lm → h2 !! lm = Some tm → tvlKey tm ≠ tvlKey tj) →
  tvlAt h' lj ≡ add_flow (tvlAt h' li) (flow tj) (value tj).
Proof.
  intros E Hij Hi Hj Hti Htj Hk Hmid.
  destruct (run_closed_form h' sym E) as [_ Hcf].
  destruct (Hcf i li ti Hi Hti) as (vi & Hvi & Hei).
  destruct (Hcf j lj tj Hj Htj) as (vj & Hvj & Hej).
  unfold tvlAt. rewrite Hvi, Hvj. simpl. rewrite Hej, Hei, Hk.
  destruct (tagged_flow_defined h inflow outflow lj) as (tj' & f & Htj' & Hf).
  { rewrite <- sorted_transfers_perm. by eapply list_elem_of_lookup_2. }
  { apply Hdom. rewrite <- sorted_transfers_perm. by eapply list_elem_of_lookup_2. }
  rewrite Htj in Htj'. injection Htj' as <-. rewrite Hf, add_flow_add_sum.
  apply add_sum_proper; [done|].
  rewrite (prefix_flow_step es (tvlKey tj) i j (entry_of tj)); [| done | by apply run_entry; eauto |].
  - unfold entry_of. rewrite flow_sum_one_eq, Hf. done.
  - intros m e' Hm (lm & tm & Hlm & Htm & ->)%run_entry. by apply (Hmid m lm tm).
Qed.

(** C3: The most recent record of a token is not always given the
    snapshot.  Only the record at global position 0 is; a record at
    position [j > 0] with no record of its token at positions [1..j-1]
    gets [snapshot[token] + flow * value].  (The specification promises the
    snapshot for the most recent record of every token.) *)
Theorem addCurrentTokenBalances_first_of_token h' sym j lj tj :
  addCurrentTokenBalances h inflow outflow address cb = Ok (h', sym) →
  (0 < j)%nat → sorted !! j = Some lj → h2 !! lj = Some tj →
  (∀ m lm tm, (0 < m < j)%nat → sorted !! m = Some lm → h2 !! lm = Some tm → tvlKey tm ≠ tvlKey tj) →
  tvlAt h' lj ≡ add_flow (get byAddr (tvlKey tj)) (flow tj) (value tj).
Proof.
  intros E Hj0 Hj Htj Hmid.
  destruct (run_closed_form h' sym E) as [_ Hcf].
  destruct (Hcf j lj tj Hj Htj) as (vj & Hvj & Hej).
  unfold tvlAt. rewrite Hvj. simpl. rewrite Hej.
  destruct (tagged_flow_defined h inflow outflow lj) as (tj' & f & Htj' & Hf).
  { rewrite <- sorted_transfers_perm. by eapply list_elem_of_lookup_2. }
  { apply Hdom. rewrite <- sorted_transfers_perm. by eapply list_elem_of_lookup_2. }
  rewrite Htj in Htj'. injection Htj' as <-. rewrite Hf.
  rewrite <- (add_sum_0 (get byAddr (tvlKey tj))) at 2. rewrite add_flow_add_sum.
  apply add_sum_proper; [done|].
  rewrite (prefix_flow_step es (tvlKey tj) 0 j (entry_of tj)); [| done | by apply run_entry; eauto |].
  - unfold entry_of. rewrite flow_sum_one_eq, Hf. unfold prefix_flow.
    destruct es; simpl; unfold equiv, Q_equiv; ring.
  - intros m e' Hm (lm & tm & Hlm & Htm & ->)%run_entry. by apply (Hmid m lm tm).
Qed.

End Run.

(** ** Examples *)

Definition example_provider : BalanceProvider := {|
  getTokenBalances := λ _ _, Ok [];
  getTokenMetadata := λ _, Ok (mkTokenMetadata (Some 18%Z) None);
  getBalance := λ _ _, Ok (toHex 5000000000000000000)
|}.

Definition example_transfer (v : Q) (ts blk : Z) (uid : string) : CleanTransfers :=
  mkClean "0xc" (Some "0xd"%string) v (Some "ETH"%string) EXTERNAL ts None None None blk uid "0xh"
    (mkRawContract None None None).

(** An ETH inflow of 3 at 1000 ms and an ETH outflow of 1 at 2000 ms. *)
Definition example_heap : heap :=
  <[0 := example_transfer 3 1000 97 "u0"]> (<[1 := example_transfer 1 2000 98 "u1"]> ∅).




Lemma example_dom l : l ∈ [0; 1] → is_Some (example_heap !! l).
Proof.
  intros Hl. apply elem_of_cons in Hl as [->|Hl]; [by eexists|].
  apply elem_of_cons in Hl as [->|Hl]; [by eexists|]. by apply not_elem_of_nil in Hl.
Qed.

Lemma example_snapshot : ∃ byAddr bySym,
  currentTokenBalances (H:=example_provider) (tagged example_heap [0] [1]) [0; 1] "0xc" 100
    = Ok (byAddr, bySym).
Proof. eexists _, _. vm_compute. reflexivity. Qed.

Lemma addCurrentTokenBalances_runningTvl_witness :
  ∃ bySym h', addCurrentTokenBalances (H:=example_provider) example_heap [0] [1] "0xc" 100 = Ok (h', bySym).
Proof.
  destruct example_snapshot as (byAddr & bySym & E).
  destruct (@addCurrentTokenBalances_runningTvl example_provider example_heap [0] [1] "0xc" 100
              byAddr bySym) as (h' & Hh' & _).
  - vm_decide.
  - exact example_dom.
  - exact E.
  - exists bySym, h'. exact Hh'.
Defined.


Lemma addCurrentTokenBalances_recurrence_witness :
  ∃ h' sym, addCurrentTokenBalances (H:=example_provider) example_heap [0] [1] "0xc" 100 = Ok (h', sym) ∧
    tvlAt h' 0 ≡ add_flow (tvlAt h' 1) (Some 1%Z) 3.
Proof.
  destruct example_snapshot as (byAddr & bySym & E).
  destruct (addCurrentTokenBalances (H:=example_provider) example_heap [0] [1] "0xc" 100)
    as [[h' sym]|m] eqn:Eh; [|exfalso; vm_compute in Eh; discriminate].
  exists h', sym. split; [done|].
  refine (@addCurrentTokenBalances_recurrence example_provider example_heap [0] [1] "0xc" 100
            byAddr bySym _ example_dom E h' sym 0 1 1 0
            (set_flow (-1) (example_transfer 1 2000 98 "u1")) (set_flow 1 (example_transfer 3 1000 97 "u0"))
            Eh _ _ _ _ _ _ _).
  all: first [ vm_decide | lia | (intros ? ? ? ?; lia) | (vm_compute; reflexivity) ].
Defined.

Lemma addCurrentTokenBalances_first_of_token_witness :
  ∃ h' sym byAddr, addCurrentTokenBalances (H:=example_provider) example_heap [0] [1] "0xc" 100 = Ok (h', sym) ∧
    tvlAt h' 0 ≡ add_flow (get byAddr "ETH") (Some 1%Z) 3.
Proof.
  destruct example_snapshot as (byAddr & bySym & E).
  destruct (addCurrentTokenBalances (H:=example_provider) example_heap [0] [1] "0xc" 100)
    as [[h' sym]|m] eqn:Eh; [|exfalso; vm_compute in Eh; discriminate].
  exists h', sym, byAddr. split; [done|].
  refine (@addCurrentTokenBalances_first_of_token example_provider example_heap [0] [1] "0xc" 100
            byAddr bySym _ example_dom E h' sym 1 0
            (set_flow 1 (example_transfer 3 1000 97 "u0")) Eh _ _ _ _).
  all: first [ vm_decide | lia | (intros ? ? ? ?; lia) | (vm_compute; reflexivity) ].
Defined.

End Tvl.
