(* ===== verification/Registry.v ===== *)
(** * The monitored-contract registry

    Models src/plugins/db/monitored-contracts.ts over the Redis JSON store.
    The store is a [gmap] from keys to JSON documents; a document is a
    [Partial<MonitoredContract>] ([MCDoc]: every field optional), since
    [updateMonitoredContract] writes [{...null, ...update}] when the key is
    missing.  ISO timestamps ([new Date().toISOString()]) are modelled by the
    instant they denote, in ms.

    - [addMonitoredContract] (lines 17-51): read the key, add the user if
      absent, set the webhook id if a truthy one is given, write back only
      when something changed; create the document when the key is missing.
    - [updateMonitoredContract] (lines 53-67): read, spread the update over
      the document, bump [updatedAt], write.
    - [getMonitoredContractByAlchemyWebhookId] (lines 69-87): RediSearch on
      the [alchemyWebhookId] tag over the [monitoredContract:] documents;
      the first hit, with [contractAddress] recovered from the key by
      [split(':').pop()].

    [addMonitoredContract] is a read followed by a write.  Section
    [Concurrent] runs two of them as threads whose steps interleave
    ([upsert_step]), the way two simultaneous [POST /alert/init] requests
    for the same contract do. *)

From S2P Require Import Prelude JsString.
From Stdlib Require Import Ascii.

Module Registry.

Local Open Scope string_scope.

(** [Partial<MonitoredContract>] as stored in Redis. *)
Record MCDoc := mkDoc {
  userIds : option (list string);
  createdAt : option Z;
  updatedAt : option Z;
  alchemyWebhookId : option string;
  lastTvlSync : option Z
}.

Abbreviation store := (gmap string MCDoc).

Definition baseKey : string := "monitoredContract".

(** [`${baseKey}:${contractAddress}`] *)
Definition keyOf (contractAddress : string) : string := baseKey +:+ ":" +:+ contractAddress.

(** A truthy string: [if (alchemyWebhookId)]. *)
Definition truthy (s : option string) : option string :=
  match s with Some w => if decide (w = "") then None else Some w | None => None end.

(** The document written back by the existing-contract branch. *)
Definition with_change (d : MCDoc) (ids : list string) (wh : option string) (now : Z) : MCDoc :=
  mkDoc (Some ids) (createdAt d) (Some now) wh (lastTvlSync d).

(** The pure part of [addMonitoredContract] once the document is read:
    [None] when nothing changed (no write), else the document to write. *)
Definition upsert_doc (existing : option MCDoc) (userId : string) (whId : option string) (now : Z)
    : outcome (option MCDoc) :=
  match existing with
  | Some d =>
      match userIds d with
      | None => throw "TypeError: Cannot read properties of undefined (reading 'includes')"
      | Some ids =>
          let addUser := bool_decide (userId ∉ ids) in
          let ids' := if addUser then (ids ++ [userId])%list else ids in
          let wh' := match truthy whId with Some w => Some w | None => alchemyWebhookId d end in
          let hasChange := addUser || bool_decide (is_Some (truthy whId)) in
          Ok (if hasChange then Some (with_change d ids' wh' now) else None)
      end
  | None => Ok (Some (mkDoc (Some [userId]) (Some now) (Some now) (truthy whId) (Some now)))
  end.

(** [addMonitoredContract(contractAddress, userId, alchemyWebhookId?)] at
    time [now]. *)
Definition addMonitoredContract (db : store) (contractAddress userId : string)
    (alchemyWebhookId : option string) (now : Z) : outcome store :=
  let key := keyOf contractAddress in
  w ← upsert_doc (db !! key) userId alchemyWebhookId now;
  Ok (match w with Some d => <[key := d]> db | None => db end).

(** [updateMonitoredContract(contractAddress, update)]: [{...existing,
    ...update, updatedAt: now}]; a field of [update] wins when present
    (an [update] field set explicitly to [undefined], which the spread
    copies, is read as absent: the only call, commented out in
    src/routes/alchemy/index.ts, passes a defined [lastTvlSync]). *)
Definition updateMonitoredContract (db : store) (contractAddress : string) (update : MCDoc) (now : Z)
    : store :=
  let key := keyOf contractAddress in
  let e := default (mkDoc None None None None None) (db !! key) in
  let pick {A} (u old : option A) := match u with Some _ => u | None => old end in
  <[key := mkDoc (pick (userIds update) (userIds e)) (pick (createdAt update) (createdAt e))
                 (Some now) (pick (alchemyWebhookId update) (alchemyWebhookId e))
                 (pick (lastTvlSync update) (lastTvlSync e))]> db.

(** A search hit: the document and the key's last [:]-separated part. *)
Record MonitoredContract := mkMC {
  mc_doc : MCDoc;
  contractAddress : option string
}.

(** Whether a key belongs to the [idx:monitoredContract] index. *)
Definition indexed (key : string) : bool := String.prefix (baseKey +:+ ":") key.

(** [getMonitoredContractByAlchemyWebhookId(webhookId)]: the documents of
    the index whose [alchemyWebhookId] tag equals [webhookId], in the
    store's enumeration order; the first one, or [null]. *)
Definition getMonitoredContractByAlchemyWebhookId (db : store) (webhookId : string)
    : option MonitoredContract :=
  let hits := filter (λ kd : string * MCDoc, indexed kd.1 = true ∧ alchemyWebhookId kd.2 = Some webhookId)
                (map_to_list db) in
  match hits with
  | (k, d) :: _ => Some (mkMC d (js_pop (js_split ":" k)))
  | [] => None
  end.

(** ** Well-formed documents *)

(** A document [addMonitoredContract] can work with: a non-empty,
    duplicate-free [userIds] and its timestamps. *)
Definition wf_doc (d : MCDoc) : Prop :=
  ∃ ids, userIds d = Some ids ∧ ids ≠ [] ∧ NoDup ids ∧
         is_Some (createdAt d) ∧ is_Some (updatedAt d) ∧ is_Some (lastTvlSync d).

Definition wf_store (db : store) : Prop := ∀ k d, db !! k = Some d → wf_doc d.

Lemma upsert_doc_wf e u w now :
  (∀ d, e = Some d → wf_doc d) →
  ∃ r, upsert_doc e u w now = Ok r ∧ ∀ d, r = Some d → wf_doc d.
Proof.
  intros He. destruct e as [d|]; simpl.
  - destruct (He d eq_refl) as (ids & Hids & Hne & Hnd & Hc & Hu & Hl). rewrite Hids.
    eexists; split; [reflexivity|]. intros d'.
    case_match; [|done]. intros [= <-].
    case_bool_decide as Hin.
    + exists (ids ++ [u])%list. split_and!; simpl; try done.
      * by destruct ids.
      * apply NoDup_app. split_and!; [done | | apply NoDup_singleton]. set_solver.
    + exists ids. split_and!; simpl; done.
  - eexists; split; [reflexivity|]. intros d' [= <-].
    exists [u]. split_and!; simpl; try done. apply NoDup_singleton.
Qed.

(** Writing a well-formed document back keeps the store well-formed. *)
Lemma wf_store_write db k r :
  wf_store db → (∀ d, r = Some d → wf_doc d) →
  wf_store (match r with Some d => <[k := d]> db | None => db end).
Proof.
  intros Hwf Hd. destruct r as [d|]; [|done]. intros k' d' Hk.
  destruct (decide (k' = k)) as [->|Hne].
  - rewrite lookup_insert_eq in Hk. injection Hk as <-. by apply Hd.
  - rewrite lookup_insert_ne in Hk by done. by apply (Hwf k').
Qed.

(** A successful registration keeps a well-formed store well-formed and
    deletes no contract. *)
Lemma addMonitoredContract_grows db c u w now db' :
  addMonitoredContract db c u w now = Ok db' →
  dom db ⊆ dom db' ∧ (wf_store db → wf_store db').
Proof.
  unfold addMonitoredContract. intros E. outcome_inv.
  split; [by case_match; [apply dom_insert_mono|] |].
  intros Hwf. destruct (upsert_doc_wf (db !! keyOf c) u w now) as (r & Hr & Hd).
  { intros d Hk. by apply (Hwf (keyOf c)). }
  match goal with H : upsert_doc _ _ _ _ = Ok _ |- _ => rewrite Hr in H; injection H as <- end.
  by apply wf_store_write.
Qed.

(** C10: [addMonitoredContract] never fails on a well-formed store and
    keeps it well-formed: every stored contract keeps a non-empty,
    duplicate-free list of users. *)
Theorem addMonitoredContract_wf db c u w now :
  wf_store db → ∃ db', addMonitoredContract db c u w now = Ok db' ∧ wf_store db'.
Proof.
  intros Hwf. unfold addMonitoredContract.
  destruct (upsert_doc_wf (db !! keyOf c) u w now) as (r & Hr & Hd).
  { intros d Hk. by apply (Hwf (keyOf c)). }
  rewrite Hr. simpl. eexists; split; [reflexivity|]. by apply wf_store_write.
Qed.

Lemma addMonitoredContract_wf_witness :
  wf_store ∅ ∧ ∃ db', addMonitoredContract ∅ "0xc" "u1" None 7 = Ok db' ∧ wf_store db'.
Proof.
  split; [intros k d Hk; by rewrite lookup_empty in Hk|].
  apply addMonitoredContract_wf. intros k d Hk. by rewrite lookup_empty in Hk.
Defined.

(** ** Lookup by webhook id *)

Lemma indexed_keyOf c : indexed (keyOf c) = true.
Proof. unfold indexed, keyOf. by rewrite string_app_assoc, prefix_app. Qed.

(** [doc.id.split(':').pop()] on the key of [c]. *)
Lemma key_roundtrip c : has_char ":" c = false → js_pop (js_split ":" (keyOf c)) = Some c.
Proof.
  intros Hc. unfold keyOf. rewrite string_app_cons, string_app_nil_l.
  by apply js_pop_split_key.
Qed.

(** The search returns an indexed document that carries the webhook id,
    and any such document when it is the only one. *)
Lemma getMC_unique db w k d :
  db !! k = Some d → indexed k = true → alchemyWebhookId d = Some w →
  (∀ k' d', db !! k' = Some d' → indexed k' = true → alchemyWebhookId d' = Some w → k' = k) →
  getMonitoredContractByAlchemyWebhookId db w = Some (mkMC d (js_pop (js_split ":" k))).
Proof.
  intros Hk Hi Hw Huniq. unfold getMonitoredContractByAlchemyWebhookId.
  assert (Hin : (k, d) ∈ filter (λ kd : string * MCDoc, indexed kd.1 = true ∧ alchemyWebhookId kd.2 = Some w)
                  (map_to_list db)).
  { apply list_elem_of_filter. split; [done|]. by apply elem_of_map_to_list. }
  destruct (filter _ _) as [|[k' d'] hits] eqn:Ef; [set_solver|].
  assert (Hhd : (k', d') ∈ filter (λ kd : string * MCDoc, indexed kd.1 = true ∧ alchemyWebhookId kd.2 = Some w)
                  (map_to_list db)) by (rewrite Ef; left).
  apply list_elem_of_filter in Hhd as [[Hi' Hw'] Hm%elem_of_map_to_list]. simpl in *.
  assert (k' = k) as -> by (eapply Huniq; eauto).
  rewrite Hk in Hm. by injection Hm as ->.
Qed.

(** No document carries [w]: the lookup misses. *)
Lemma getMC_none db w :
  (∀ k d, db !! k = Some d → alchemyWebhookId d ≠ Some w) →
  getMonitoredContractByAlchemyWebhookId db w = None.
Proof.
  intros Hno. unfold getMonitoredContractByAlchemyWebhookId.
  destruct (filter _ _) as [|[k d] hits] eqn:E; [done|].
  assert (Hin : (k, d) ∈ filter (λ kd : string * MCDoc, indexed kd.1 = true ∧ alchemyWebhookId kd.2 = Some w)
                  (map_to_list db)) by (rewrite E; left).
  apply list_elem_of_filter in Hin as [[_ Hw] Hkd]. apply elem_of_map_to_list in Hkd.
  by destruct (Hno k d Hkd).
Qed.

(** After binding [w] to [c], the webhook lookup finds [c]'s document. *)
Lemma add_webhook_lookup db c u w now db' :
  w ≠ "" → has_char ":" c = false →
  (∀ k d, db !! k = Some d → k ≠ keyOf c → alchemyWebhookId d ≠ Some w) →
  addMonitoredContract db c u (Some w) now = Ok db' →
  ∃ d ids, getMonitoredContractByAlchemyWebhookId db' w = Some (mkMC d (Some c)) ∧
           alchemyWebhookId d = Some w ∧ userIds d = Some ids ∧ u ∈ ids.
Proof.
  intros Hw Hc Hother. unfold addMonitoredContract.
  destruct (upsert_doc (db !! keyOf c) u (Some w) now) as [r|m] eqn:Hup; simpl; [|discriminate].
  intros [= <-].
  unfold upsert_doc in Hup. unfold truthy in Hup. case_decide; [done|].
  assert (∃ d, r = Some d ∧ alchemyWebhookId d = Some w ∧ ∃ ids, userIds d = Some ids ∧ u ∈ ids)
    as (d & -> & Hdw & ids & Hids & Hu).
  { destruct (db !! keyOf c) as [e|]; [destruct (userIds e) as [ids|]|]; simpl in Hup; inv Hup.
    - rewrite orb_true_r. eexists; split_and!; [done | done |].
      case_bool_decide; eexists; (split; [done|]); set_solver.
    - eexists; split_and!; [done | done |]. eexists; split; [done | set_solver]. }
  exists d, ids. split_and!; [| done | done | done].
  rewrite <- key_roundtrip by done. apply getMC_unique.
  - apply lookup_insert_eq.
  - apply indexed_keyOf.
  - done.
  - intros k' d' Hk' _ Hw'. destruct (decide (k' = keyOf c)) as [->|Hne]; [done|].
    rewrite lookup_insert_ne in Hk' by done. exfalso. by apply (Hother k' d').
Qed.

(** C9: Binding a webhook.  After [addMonitoredContract(c, userId, w)]
    with a non-empty [w], when no other contract carries [w] and [c] has no
    [:] (a hex address), the webhook lookup finds the document of [c]: its
    [contractAddress] is [c], it carries [w], and its users include
    [userId]. *)
Theorem addMonitoredContract_then_lookup db c u w now db' :
  w ≠ "" → has_char ":" c = false →
  (∀ k d, db !! k = Some d → k ≠ keyOf c → alchemyWebhookId d ≠ Some w) →
  addMonitoredContract db c u (Some w) now = Ok db' →
  ∃ d ids, getMonitoredContractByAlchemyWebhookId db' w = Some (mkMC d (Some c)) ∧
           alchemyWebhookId d = Some w ∧ userIds d = Some ids ∧ u ∈ ids.
Proof. apply add_webhook_lookup. Qed.

Lemma addMonitoredContract_then_lookup_witness :
  ∃ db' d ids, addMonitoredContract ∅ "0xc" "u1" (Some "wh_1") 7 = Ok db' ∧
    getMonitoredContractByAlchemyWebhookId db' "wh_1" = Some (mkMC d (Some "0xc")) ∧
    alchemyWebhookId d = Some "wh_1" ∧ userIds d = Some ids ∧ "u1" ∈ ids.
Proof.
  set (db' := <[keyOf "0xc" := mkDoc (Some ["u1"]) (Some 7%Z) (Some 7%Z) (Some "wh_1") (Some 7%Z)]> ∅ : store).
  exists db'.
  destruct (addMonitoredContract_then_lookup ∅ "0xc" "u1" "wh_1" 7 db') as (d & ids & H1 & H2 & H3 & H4).
  - done.
  - reflexivity.
  - intros k d Hk. by rewrite lookup_empty in Hk.
  - reflexivity.
  - exists d, ids. split_and!; [reflexivity | exact H1 | done | done | done].
Defined.

(** ** Repeated upserts *)

Lemma addMonitoredContract_user_in db c u w now db' :
  addMonitoredContract db c u w now = Ok db' →
  ∃ d ids, db' !! keyOf c = Some d ∧ userIds d = Some ids ∧ u ∈ ids.
Proof.
  unfold addMonitoredContract, upsert_doc.
  destruct (db !! keyOf c) as [e|] eqn:He; [destruct (userIds e) as [ids|] eqn:Hids|]; simpl;
    [| discriminate | intros [= <-]; rewrite lookup_insert_eq; do 2 eexists; split_and!; [done | done | set_solver]].
  intros [= <-]. case_bool_decide as Hu; simpl.
  - rewrite lookup_insert_eq. do 2 eexists; split_and!; [done | done | set_solver].
  - destruct (bool_decide (is_Some (truthy w))).
    + rewrite lookup_insert_eq. do 2 eexists; split_and!; [done | done | set_solver].
    + do 2 eexists; split_and!; [done | done | set_solver].
Qed.

(** C11: Re-registering a user without a webhook id is a no-op: the
    second [addMonitoredContract(c, userId)] writes nothing (no
    [updatedAt] bump). *)
Theorem addMonitoredContract_idempotent db c u now now' db' :
  addMonitoredContract db c u None now = Ok db' →
  addMonitoredContract db' c u None now' = Ok db'.
Proof.
  intros H. destruct (addMonitoredContract_user_in db c u None now db' H) as (d & ids & Hd & Hids & Hu).
  unfold addMonitoredContract, upsert_doc. rewrite Hd, Hids. simpl.
  case_bool_decide; [done|]. reflexivity.
Qed.

Lemma addMonitoredContract_idempotent_witness :
  ∃ db', addMonitoredContract ∅ "0xc" "u1" None 7 = Ok db' ∧ addMonitoredContract db' "0xc" "u1" None 9 = Ok db'.
Proof.
  eexists. split; [reflexivity|]. by apply (addMonitoredContract_idempotent ∅ "0xc" "u1" 7 9).
Defined.

(** C12: Re-registering the same user with the same webhook id is not a
    no-op: the document is rewritten with a new [updatedAt] although
    neither the users nor the webhook id change (specification §4.4:
    "no-op (no timestamp bump) if neither changes"). *)
Theorem addMonitoredContract_same_webhook_bumps db c u w d ids now :
  db !! keyOf c = Some d → userIds d = Some ids → u ∈ ids →
  alchemyWebhookId d = Some w → w ≠ "" →
  addMonitoredContract db c u (Some w) now =
    Ok (<[keyOf c := mkDoc (Some ids) (createdAt d) (Some now) (Some w) (lastTvlSync d)]> db).
Proof.
  intros Hd Hids Hu Hw Hne. unfold addMonitoredContract, upsert_doc, truthy.
  rewrite Hd, Hids. case_decide; [done|]. simpl.
  case_bool_decide; [done|]. simpl. reflexivity.
Qed.

Lemma addMonitoredContract_same_webhook_bumps_witness :
  let d := mkDoc (Some ["u1"]) (Some 7%Z) (Some 7%Z) (Some "wh_1") (Some 7%Z) in
  addMonitoredContract (<[keyOf "0xc" := d]> ∅) "0xc" "u1" (Some "wh_1") 9 =
    Ok (<[keyOf "0xc" := mkDoc (Some ["u1"]) (Some 7%Z) (Some 9%Z) (Some "wh_1") (Some 7%Z)]>
          (<[keyOf "0xc" := d]> ∅)).
Proof.
  intros d. apply (addMonitoredContract_same_webhook_bumps _ "0xc" "u1" "wh_1" d ["u1"] 9);
    [apply lookup_insert_eq | reflexivity | set_solver | reflexivity | done].
Defined.

(** C26: [updateMonitoredContract] on a contract that is not registered
    writes a document without [userIds]; every later [addMonitoredContract]
    for that contract then rejects with a [TypeError] (reading [includes]
    of [undefined]) instead of registering the user. *)
Theorem updateMonitoredContract_missing_breaks_add db c update now u w now' :
  db !! keyOf c = None → userIds update = None →
  ∃ m, addMonitoredContract (updateMonitoredContract db c update now) c u w now' = Throw m.
Proof.
  intros Hnone Hu. unfold addMonitoredContract, updateMonitoredContract.
  rewrite lookup_insert_eq, Hnone, Hu. simpl. by eexists.
Qed.

Lemma updateMonitoredContract_missing_breaks_add_witness :
  (∅ : store) !! keyOf "0xc" = None ∧ userIds (mkDoc None None None None (Some 5%Z)) = None ∧
  ∃ m, addMonitoredContract (updateMonitoredContract ∅ "0xc" (mkDoc None None None None (Some 5%Z)) 5)
         "0xc" "u1" None 6 = Throw m.
Proof.
  split_and!; [apply lookup_empty | reflexivity |].
  apply updateMonitoredContract_missing_breaks_add; [apply lookup_empty | reflexivity].
Defined.

(** ** The registry as the specification describes it

    Specification §3-§4.4: a monitored contract is a set of users and the
    webhook id once known; [upsert] adds the user and applies a provided
    webhook id.  [abstract] forgets the timestamps and the order of
    [userIds]. *)

Record Registration := mkReg { reg_users : gset string; reg_webhook : option string }.

Definition abs_doc (d : MCDoc) : option Registration :=
  (λ ids, mkReg (list_to_set ids) (alchemyWebhookId d)) <$> userIds d.

Definition abstract (db : store) : gmap string Registration := omap abs_doc db.

Definition spec_upsert (a : gmap string Registration) (k u : string) (w : option string)
    : gmap string Registration :=
  <[k := match a !! k with
         | Some r => mkReg (reg_users r ∪ {[u]}) (match truthy w with Some w' => Some w' | None => reg_webhook r end)
         | None => mkReg {[u]} (truthy w)
         end]> a.

(** C32: Refinement.  Whenever [addMonitoredContract] succeeds, the
    abstract registry after it is the specification's [upsert] of the one
    before: the user set gains [userId] and a truthy webhook id replaces
    the bound one. *)
Theorem addMonitoredContract_refines db c u w now db' :
  addMonitoredContract db c u w now = Ok db' →
  abstract db' = spec_upsert (abstract db) (keyOf c) u w.
Proof.
  unfold addMonitoredContract, spec_upsert, abstract. rewrite lookup_omap.
  destruct (db !! keyOf c) as [d|] eqn:Hk; simpl.
  - destruct (userIds d) as [ids|] eqn:Hids; simpl; [|discriminate].
    unfold abs_doc. rewrite Hids. simpl. intros [= <-].
    case_bool_decide as Hin; simpl.
    + erewrite omap_insert_Some by reflexivity. unfold with_change. simpl.
      do 2 f_equal. rewrite list_to_set_app_L. simpl. set_solver.
    + destruct (truthy w) as [w'|] eqn:Hw; simpl.
      * erewrite omap_insert_Some by reflexivity. unfold with_change. simpl. f_equal. f_equal. set_solver.
      * symmetry. apply insert_id. rewrite lookup_omap, Hk. simpl. unfold abs_doc. rewrite Hids. simpl.
        do 2 f_equal. set_solver.
  - intros [= <-]. erewrite omap_insert_Some by reflexivity. simpl. do 2 f_equal. set_solver.
Qed.

Lemma addMonitoredContract_refines_witness :
  abstract (<[keyOf "0xc" := mkDoc (Some ["u1"; "u2"]) (Some 1%Z) (Some 7%Z) (Some "wh_1") (Some 1%Z)]> ∅) =
  spec_upsert (abstract (<[keyOf "0xc" := mkDoc (Some ["u1"]) (Some 1%Z) (Some 1%Z) (Some "wh_1") (Some 1%Z)]> ∅))
    (keyOf "0xc") "u2" None.
Proof. apply (addMonitoredContract_refines _ "0xc" "u2" None 7). reflexivity. Defined.

(** ** Two concurrent upserts *)

Section Concurrent.

(** The contract both requests register, and the time of both writes. *)
Variable c : string.
Variable now : Z.

(** A request running [addMonitoredContract(c, u, w)]: before its
    [db.json.get], between the get and the [db.json.set] (holding what it
    read), finished, or rejected. *)
Inductive thread :=
| TPending (u : string) (w : option string)
| TRead (u : string) (w : option string) (seen : option MCDoc)
| TDone
| TFailed (m : string).

Record config := mkConfig { cdb : store; th1 : thread; th2 : thread }.

(** The [db.json.set] that ends a thread, from what it read. *)
Definition finish (db : store) (u : string) (w : option string) (seen : option MCDoc) : store * thread :=
  match upsert_doc seen u w now with
  | Ok (Some d) => (<[keyOf c := d]> db, TDone)
  | Ok None => (db, TDone)
  | Throw m => (db, TFailed m)
  end.

(** One step of either thread: its read or its write. *)
Inductive upsert_step : config → config → Prop :=
| read1 db u w t2 : upsert_step (mkConfig db (TPending u w) t2) (mkConfig db (TRead u w (db !! keyOf c)) t2)
| read2 db u w t1 : upsert_step (mkConfig db t1 (TPending u w)) (mkConfig db t1 (TRead u w (db !! keyOf c)))
| write1 db u w seen t2 :
    upsert_step (mkConfig db (TRead u w seen) t2) (mkConfig (finish db u w seen).1 (finish db u w seen).2 t2)
| write2 db u w seen t1 :
    upsert_step (mkConfig db t1 (TRead u w seen)) (mkConfig (finish db u w seen).1 t1 (finish db u w seen).2).

Definition thread_ok (t : thread) : Prop :=
  match t with
  | TRead _ _ seen => ∀ d, seen = Some d → wf_doc d
  | TFailed _ => False
  | _ => True
  end.

Definition config_ok (cfg : config) : Prop := wf_store (cdb cfg) ∧ thread_ok (th1 cfg) ∧ thread_ok (th2 cfg).

Lemma finish_ok db u w seen :
  wf_store db → (∀ d, seen = Some d → wf_doc d) →
  wf_store (finish db u w seen).1 ∧ thread_ok (finish db u w seen).2.
Proof.
  intros Hdb Hseen. destruct (upsert_doc_wf seen u w now Hseen) as (r & Hr & Hd).
  unfold finish. rewrite Hr. destruct r as [d|]; simpl; split; try done.
  intros k d' Hk. destruct (decide (k = keyOf c)) as [->|Hne].
  - rewrite lookup_insert_eq in Hk. injection Hk as <-. by apply Hd.
  - rewrite lookup_insert_ne in Hk by done. by apply (Hdb k).
Qed.

Lemma upsert_step_ok cfg cfg' : upsert_step cfg cfg' → config_ok cfg → config_ok cfg'.
Proof.
  intros Hs (Hdb & H1 & H2). inv Hs; simpl in *.
  - split_and!; [done | | done]. intros d Hd. by apply (Hdb (keyOf c)).
  - split_and!; [done | done |]. intros d Hd. by apply (Hdb (keyOf c)).
  - destruct (finish_ok db u w seen Hdb H1). by split_and!.
  - destruct (finish_ok db u w seen Hdb H2). by split_and!.
Qed.

Lemma upsert_rtc_ok cfg cfg' : rtc upsert_step cfg cfg' → config_ok cfg → config_ok cfg'.
Proof. induction 1; eauto using upsert_step_ok. Qed.

(** C14: However the two requests interleave, no request fails and the
    store stays well-formed: every reachable configuration from a
    well-formed store with two pending requests is well-formed. *)
Theorem upsert_interleavings_wf db u1 w1 u2 w2 cfg :
  wf_store db →
  rtc upsert_step (mkConfig db (TPending u1 w1) (TPending u2 w2)) cfg →
  config_ok cfg.
Proof.
  intros Hdb Hr. eapply upsert_rtc_ok; [exact Hr|]. by split_and!.
Qed.

(** C13: Lost update.  The upsert is a read followed by a write with no
    transaction: when both requests read the missing key before either
    writes, both finish and the store keeps only the user of the request
    that wrote last (specification §5 requires the upsert to be atomic). *)
Theorem upsert_lost_update db u1 u2 :
  db !! keyOf c = None →
  rtc upsert_step (mkConfig db (TPending u1 None) (TPending u2 None))
    (mkConfig (<[keyOf c := mkDoc (Some [u2]) (Some now) (Some now) None (Some now)]> db) TDone TDone).
Proof.
  intros Hnone.
  eapply rtc_l; [apply read1|]. eapply rtc_l; [apply read2|].
  eapply rtc_l; [apply write1|]. eapply rtc_l; [apply write2|].
  rewrite Hnone. unfold finish; simpl. rewrite insert_insert_eq. apply rtc_refl.
Qed.

(** A thread that read a well-formed document (or none) writes and is done. *)
Lemma finish_done db u w seen :
  (∀ d, seen = Some d → wf_doc d) → (finish db u w seen).2 = TDone.
Proof.
  intros Hs. destruct (upsert_doc_wf seen u w now Hs) as (r & Hr & _).
  unfold finish. rewrite Hr. by destruct r.
Qed.

Lemma thread1_finishes cfg :
  config_ok cfg → ∃ cfg', rtc upsert_step cfg cfg' ∧ th1 cfg' = TDone ∧ th2 cfg' = th2 cfg.
Proof.
  destruct cfg as [db t1 t2]. intros (Hdb & H1 & _). simpl in *.
  destruct t1 as [u w|u w seen| |m]; simpl in H1; [| | | done].
  - eexists. split; [eapply rtc_l; [apply read1|]; eapply rtc_l; [apply write1|]; apply rtc_refl|].
    split; [|done]. apply finish_done. intros d Hd. by apply (Hdb (keyOf c)).
  - eexists. split; [eapply rtc_l; [apply write1|]; apply rtc_refl|]. split; [by apply finish_done | done].
  - exists (mkConfig db TDone t2). split; [apply rtc_refl | done].
Qed.

Lemma thread2_finishes cfg :
  config_ok cfg → ∃ cfg', rtc upsert_step cfg cfg' ∧ th2 cfg' = TDone ∧ th1 cfg' = th1 cfg.
Proof.
  destruct cfg as [db t1 t2]. intros (Hdb & _ & H2). simpl in *.
  destruct t2 as [u w|u w seen| |m]; simpl in H2; [| | | done].
  - eexists. split; [eapply rtc_l; [apply read2|]; eapply rtc_l; [apply write2|]; apply rtc_refl|].
    split; [|done]. apply finish_done. intros d Hd. by apply (Hdb (keyOf c)).
  - eexists. split; [eapply rtc_l; [apply write2|]; apply rtc_refl|]. split; [by apply finish_done | done].
  - exists (mkConfig db t1 TDone). split; [apply rtc_refl | done].
Qed.

(** C33: Progress.  From every configuration two concurrent registrations
    can reach from a well-formed store, both requests can still run to
    completion: no interleaving gets stuck or makes a request fail. *)
Theorem upsert_interleavings_finish db u1 w1 u2 w2 cfg :
  wf_store db →
  rtc upsert_step (mkConfig db (TPending u1 w1) (TPending u2 w2)) cfg →
  ∃ cfg', rtc upsert_step cfg cfg' ∧ th1 cfg' = TDone ∧ th2 cfg' = TDone.
Proof.
  intros Hdb Hr. assert (Hok : config_ok cfg) by (eapply upsert_rtc_ok; [exact Hr | by split_and!]).
  destruct (thread1_finishes cfg Hok) as (cfg1 & H1 & Hd1 & _).
  destruct (thread2_finishes cfg1 (upsert_rtc_ok _ _ H1 Hok)) as (cfg2 & H2 & Hd2 & Heq).
  exists cfg2. split_and!; [by etrans | congruence | done].
Qed.

End Concurrent.

Lemma upsert_interleavings_wf_witness :
  wf_store ∅ ∧
  rtc (upsert_step "0xc" 7) (mkConfig ∅ (TPending "u1" None) (TPending "u2" None))
      (mkConfig ∅ (TRead "u1" None ((∅ : store) !! keyOf "0xc")) (TRead "u2" None ((∅ : store) !! keyOf "0xc"))) ∧
  config_ok (mkConfig ∅ (TRead "u1" None ((∅ : store) !! keyOf "0xc")) (TRead "u2" None ((∅ : store) !! keyOf "0xc"))).
Proof.
  assert (H0 : wf_store ∅) by (intros k d Hk; by rewrite lookup_empty in Hk).
  assert (Hr : rtc (upsert_step "0xc" 7) (mkConfig ∅ (TPending "u1" None) (TPending "u2" None))
      (mkConfig ∅ (TRead "u1" None ((∅ : store) !! keyOf "0xc")) (TRead "u2" None ((∅ : store) !! keyOf "0xc")))).
  { eapply rtc_l; [apply read1|]. eapply rtc_l; [apply read2|]. apply rtc_refl. }
  split_and!; [exact H0 | exact Hr |].
  exact (upsert_interleavings_wf "0xc" 7 ∅ "u1" None "u2" None _ H0 Hr).
Defined.

Lemma upsert_interleavings_finish_witness :
  ∃ cfg', rtc (upsert_step "0xc" 7)
      (mkConfig ∅ (TRead "u1" None ((∅ : store) !! keyOf "0xc")) (TRead "u2" None ((∅ : store) !! keyOf "0xc")))
      cfg' ∧ th1 cfg' = TDone ∧ th2 cfg' = TDone.
Proof.
  assert (H0 : wf_store ∅) by (intros k d Hk; by rewrite lookup_empty in Hk).
  apply (upsert_interleavings_finish "0xc" 7 ∅ "u1" None "u2" None).
  - exact H0.
  - eapply rtc_l; [apply read1|]. eapply rtc_l; [apply read2|]. apply rtc_refl.
Defined.

Lemma upsert_lost_update_witness :
  (∅ : store) !! keyOf "0xc" = None ∧
  rtc (upsert_step "0xc" 7) (mkConfig ∅ (TPending "u1" None) (TPending "u2" None))
    (mkConfig (<[keyOf "0xc" := mkDoc (Some ["u2"]) (Some 7%Z) (Some 7%Z) None (Some 7%Z)]> ∅) TDone TDone).
Proof. split; [apply lookup_empty | apply upsert_lost_update, lookup_empty]. Defined.

End Registry.
