(* ===== verification/Webhook.v ===== *)
(** * Webhook ingestion: [POST /alchemy/address-activity]

    Models the handler of src/routes/alchemy/index.ts (lines 71-176): drop
    the zero-value activity entries, resolve the webhook id to a monitored
    contract (one retry after 100 ms), normalise each entry into a
    [CleanTransfers] ([getUniqueId], the category, [flow], the block number)
    and persist the batch with [addAssetTransfersWithLastTvl].

    The registry is read twice: [db1] is the store at the first lookup and
    [db2] the store 100 ms later, so a registration that lands in between is
    seen by the retry.  [addAssetTransfersWithLastTvl] belongs to
    src/plugins/db/asset-transfers, which is not among the sources: it is
    the interface [AssetTransferStore], with the two promises of the
    specification's storage contract (the pipeline only appends; a record
    is stored under its contract and [uniqueId]), and the handler's
    theorems hold for every implementation.  The handler's result is [Ok]
    of the new transfer store for the [200 ok] answer, or the [Throw] its
    promise rejects with. *)

From S2P Require Import Prelude JsString Transfers Registry.
From Stdlib Require Import Ascii.

Module Webhook.

Import Transfers Registry.

(** [AddressActivityUpdateActivity], with the one field of [log] the code
    reads ([logIndex]); [None] is a missing [log]. *)
Record Activity := mkActivity {
  fromAddress : string;
  toAddress : string;
  a_blockNum : string;
  a_hash : string;
  a_value : Q;
  a_asset : string;
  a_category : string;                 (** ['token'], ['internal'], ['external'] *)
  typeTraceAddress : option string;
  a_rawContract : RawContract;
  a_logIndex : option string
}.

(** [AddressActivityUpdate]: [createdAt] as the instant it denotes, ms. *)
Record AddressActivityUpdate := mkUpdate {
  webhookId : string;
  u_createdAt : Z;
  activity : list Activity
}.

(** The transfer store: [(contractAddress, uniqueId)] to record. *)
Abbreviation tstore := (gmap (option string * string) CleanTransfers).

(** [addAssetTransfersWithLastTvl(contractAddress, transfers)]: how a
    record is written (its [tvl] filled from the last stored record, as the
    name says) is left open; what the handler may rely on is that an empty
    batch writes nothing, that no stored record disappears and that every
    record of the batch is then stored under its contract and
    [uniqueId]. *)
Class AssetTransferStore := {
  addAssetTransfersWithLastTvl : tstore → option string → list CleanTransfers → tstore;
  addAssetTransfers_nil st c : addAssetTransfersWithLastTvl st c [] = st;
  addAssetTransfers_grows st c b : dom st ⊆ dom (addAssetTransfersWithLastTvl st c b);
  addAssetTransfers_stores st c b t : t ∈ b → (c, uniqueId t) ∈ dom (addAssetTransfersWithLastTvl st c b)
}.

(** [!!e.value]: the value is a number here, so the [null] and [NaN]
    values that [!!] also drops are not represented. *)
Definition nonZero (e : Activity) : bool := negb (Qeq_bool (a_value e) 0).

(** [getUniqueId(transfer)]; ["undefined"] is what [+] makes of an
    out-of-range [split('call_')[1]]. *)
Definition getUniqueId (t : Activity) : outcome string :=
  let id := a_hash t in
  if decide (a_category t = "token"%string) then
    match a_logIndex t with
    | Some li => n ← hexToNumber li; Ok (id +:+ ":log:' + " +:+ Z_toString n)
    | None => throw "TypeError: Cannot read properties of undefined (reading 'logIndex')"
    end
  else if decide (a_category t = "internal"%string) then
    match typeTraceAddress t with
    | Some ta => Ok (id +:+ ":internal:" +:+ default "undefined" (js_index (js_split "call_" ta) 1))
    | None => throw "TypeError: Cannot read properties of undefined (reading 'split')"
    end
  else if decide (a_category t = "external"%string) then Ok (id +:+ ":external")
  else Ok id.

(** The category the record gets. *)
Definition webhookCategory (t : Activity) : AssetTransfersCategory :=
  if decide (a_category t = "token"%string) then ERC20 else EXTERNAL.

(** The element of the [nonZeroTransfers.map(...)] of lines 118-143, for
    the monitored contract's address and the webhook's time; fields are
    evaluated in the order of the object literal. *)
Definition normalize (contract : option string) (timestamp : Z) (t : Activity) : outcome CleanTransfers :=
  let f := if bool_decide (Some (fromAddress t) = contract) then (-1)%Z else 1%Z in
  bn ← hexToNumber (a_blockNum t);
  uid ← getUniqueId t;
  Ok (mkClean (fromAddress t) (Some (toAddress t)) (a_value t) (Some (a_asset t))
        (webhookCategory t) timestamp (Some (default "" (truthy (rc_address (a_rawContract t)))))
        None (Some f) bn uid (a_hash t) (a_rawContract t)).

Definition UnmatchedWebhook : string :=
  "Received address activity from alchemy without matching monitored Contract".

(** Lines 82-101: the lookup, and its retry on a miss. *)
Definition resolve (db1 db2 : store) (w : string) : outcome MonitoredContract :=
  match getMonitoredContractByAlchemyWebhookId db1 w with
  | Some mc => Ok mc
  | None =>
      match getMonitoredContractByAlchemyWebhookId db2 w with
      | Some mc => Ok mc
      | None => throw UnmatchedWebhook
      end
  end.

Section Handler.
Context `{AssetTransferStore}.

(** The handler of [POST /address-activity]. *)
Definition address_activity (db1 db2 : store) (st : tstore) (data : AddressActivityUpdate) : outcome tstore :=
  let nonZeroTransfers := filter (λ e, nonZero e = true) (activity data) in
  match nonZeroTransfers with
  | [] => Ok st
  | _ =>
      mc ← resolve db1 db2 (webhookId data);
      cleanTransfers ← mapM (normalize (contractAddress mc) (u_createdAt data)) nonZeroTransfers;
      Ok (addAssetTransfersWithLastTvl st (contractAddress mc) cleanTransfers)
  end.

(** C15: The registration race.  When the first lookup misses because the
    webhook id is not yet bound, and [addMonitoredContract] binds it to [c]
    during the 100 ms wait, the retry finds [c] and the batch is stored
    under [c]. *)
Theorem address_activity_race_retry db1 db2 st data c u now batch :
  webhookId data ≠ "" → has_char ":" c = false →
  (∀ k d, db1 !! k = Some d → alchemyWebhookId d ≠ Some (webhookId data)) →
  addMonitoredContract db1 c u (Some (webhookId data)) now = Ok db2 →
  mapM (normalize (Some c) (u_createdAt data)) (filter (λ e, nonZero e = true) (activity data)) = Ok batch →
  address_activity db1 db2 st data = Ok (addAssetTransfersWithLastTvl st (Some c) batch).
Proof.
  intros Hw Hc Hno Hadd Hb. unfold address_activity.
  destruct (filter _ (activity data)) as [|e es].
  { simpl in Hb. injection Hb as <-. by rewrite addAssetTransfers_nil. }
  destruct (add_webhook_lookup db1 c u (webhookId data) now db2) as (d & ids & Hl & _);
    [done | done | intros k d' Hk _; by apply (Hno k d') | done |].
  unfold resolve. rewrite getMC_none by done. rewrite Hl, outcome_bind_ok. cbn [contractAddress]. by rewrite Hb, outcome_bind_ok.
Qed.

(** C16: A second miss is a hard failure: when neither lookup finds the
    webhook id, a batch with a non-zero entry rejects with
    [UnmatchedWebhook] and writes nothing, and an all-zero batch is
    acknowledged without a lookup. *)
Theorem address_activity_unmatched db1 db2 st data :
  getMonitoredContractByAlchemyWebhookId db1 (webhookId data) = None →
  getMonitoredContractByAlchemyWebhookId db2 (webhookId data) = None →
  address_activity db1 db2 st data =
    if bool_decide (filter (λ e, nonZero e = true) (activity data) = []) then Ok st
    else Throw UnmatchedWebhook.
Proof.
  intros H1 H2. unfold address_activity, resolve. rewrite H1, H2.
  by destruct (filter _ (activity data)).
Qed.

(** The handler deletes no stored record. *)
Lemma address_activity_grows db1 db2 st data st' :
  address_activity db1 db2 st data = Ok st' → dom st ⊆ dom st'.
Proof.
  unfold address_activity. case_match; [by intros [= <-]|]. intros E. outcome_inv.
  apply addAssetTransfers_grows.
Qed.

End Handler.

(** ** The idempotency key *)

(** The first [c] of [a ++ c :: t] marks where [a] ends when [a] has no
    [c]. *)
Lemma string_app_char_inj c (a a' t t' : string) :
  has_char c a = false → has_char c a' = false →
  a +:+ String c t = a' +:+ String c t' → a = a' ∧ t = t'.
Proof.
  revert a'. induction a as [|d a IH]; intros [|d' a'] Ha Ha' H;
    rewrite ?string_app_nil_l, ?string_app_cons in H; simpl in Ha, Ha'.
  - by injection H.
  - injection H as -> _. by destruct (Ascii.ascii_dec d' d').
  - injection H as <- _. by destruct (Ascii.ascii_dec d d).
  - injection H as <- H.
    destruct (Ascii.ascii_dec c d); [done|]. destruct (IH a' Ha Ha' H) as [-> ->]. done.
Qed.

(** C27: The id of a token transfer is [hash + ":log:' + " + n] for its
    log index [n] (the template literal keeps the characters [' + ] of an
    earlier concatenation), and for transaction hashes without [':'] the
    id determines the hash and the log index: distinct logs get distinct
    ids. *)
Theorem getUniqueId_token_format a li n :
  a_category a = "token"%string → a_logIndex a = Some li → hexToNumber li = Ok n →
  getUniqueId a = Ok (a_hash a +:+ ":log:' + " +:+ Z_toString n) ∧
  ∀ a' li' n', a_category a' = "token"%string → a_logIndex a' = Some li' → hexToNumber li' = Ok n' →
    has_char ":"%char (a_hash a) = false → has_char ":"%char (a_hash a') = false →
    getUniqueId a' = getUniqueId a → a_hash a' = a_hash a ∧ n' = n.
Proof.
  assert (Hid : ∀ a li n, a_category a = "token"%string → a_logIndex a = Some li → hexToNumber li = Ok n →
            getUniqueId a = Ok (a_hash a +:+ ":log:' + " +:+ Z_toString n)).
  { intros a0 li0 n0 Hc Hl Hn. unfold getUniqueId. by rewrite Hc, Hl, decide_True, Hn. }
  intros Hc Hl Hn. split; [by apply (Hid a li n)|].
  intros a' li' n' Hc' Hl' Hn' Hh Hh'. rewrite (Hid a li n), (Hid a' li' n') by done.
  intros [= H]. apply string_app_char_inj in H as [-> H]; [|done..].
  injection H as H. by apply Z_toString_inj in H as ->.
Qed.

(** C17: [uniqueId] is not unique for internal calls.  The suffix of the
    id is [typeTraceAddress.split('call_')[1]]: a trace without ["call_"]
    gets [":internal:undefined"], and a trace [p + "call_" + s] (neither
    part holding ["call_"]) gets [s], whatever [p] is: the traces
    ["call_0_1"], ["delegatecall_0_1"] and ["staticcall_0_1"] of one
    transaction share one id, and so one stored record. *)
Theorem getUniqueId_internal_suffix a ta :
  a_category a = "internal"%string → typeTraceAddress a = Some ta →
  (occurs "call_" ta = false → getUniqueId a = Ok (a_hash a +:+ ":internal:undefined")) ∧
  (∀ p s, ta = (p +:+ "call_" +:+ s)%string → occurs "call_" p = false → occurs "call_" s = false →
     getUniqueId a = Ok (a_hash a +:+ ":internal:" +:+ s)).
Proof.
  intros Hc Ht. unfold getUniqueId. rewrite Hc, decide_False, decide_True, Ht by done.
  split.
  - intros Ho. by rewrite js_split_no_occ.
  - intros p s' -> Hp Hs. by rewrite js_split_once.
Qed.

Definition example_rc : RawContract := mkRawContract None None None.

(** A token transfer of transaction ["0xh"] with the given log index, and
    an internal call of it with the given trace address. *)
Definition token_log (li : string) : Activity :=
  mkActivity "0xaaa" "0xccc" "0x1183577" "0xh" 1 "USDC" "token" None
    (mkRawContract None (Some "0xa0b8") None) (Some li).

Definition internal_trace (ta : string) : Activity :=
  mkActivity "0xaaa" "0xccc" "0x1183577" "0xh" 1 "ETH" "internal" (Some ta) example_rc None.

(** The registry once [0xccc] is bound to [wh_1]. *)
Definition example_registry : store :=
  <[keyOf "0xccc" := mkDoc (Some ["u1"]) (Some 1%Z) (Some 1%Z) (Some "wh_1"%string) (Some 1%Z)]> ∅.

(** The store of the specification: a record replaces the one with its
    key. *)
Definition keyed_insert (st : tstore) (c : option string) (b : list CleanTransfers) : tstore :=
  foldl (λ st t, <[(c, uniqueId t) := t]> st) st b.

Lemma keyed_insert_stores st c b t :
  t ∈ b → (c, uniqueId t) ∈ dom (keyed_insert st c b).
Proof.
  unfold keyed_insert. revert st. induction b as [|t' b IH]; intros st Hin; [by apply elem_of_nil in Hin|].
  apply elem_of_cons in Hin as [->|Hin]; simpl; [|by apply IH].
  apply (dom_foldl_mono _ _ _ (λ m x, dom_insert_mono m _ x)). rewrite dom_insert_L. set_solver.
Qed.

Definition keyed_store : AssetTransferStore := {|
  addAssetTransfersWithLastTvl := keyed_insert;
  addAssetTransfers_nil st c := eq_refl;
  addAssetTransfers_grows st c b := dom_foldl_mono _ st b (λ m x, dom_insert_mono m _ x);
  addAssetTransfers_stores := keyed_insert_stores
|}.

#[local] Existing Instance keyed_store.

(** Another log of the same transaction, its index written in upper case,
    gets the same id, and the theorem reads back the same hash and index. *)
Lemma getUniqueId_token_format_witness :
  getUniqueId (token_log "0x13f") = Ok "0xh:log:' + 319"%string ∧
  a_hash (token_log "0x13F") = a_hash (token_log "0x13f") ∧ 319%Z = 319%Z.
Proof.
  destruct (getUniqueId_token_format (token_log "0x13f") "0x13f" 319%Z) as [H1 H2];
    [reflexivity | reflexivity | vm_compute; reflexivity |].
  split; [exact H1|].
  apply (H2 (token_log "0x13F") "0x13F" 319%Z); [reflexivity | reflexivity | vm_compute; reflexivity
    | reflexivity | reflexivity | vm_compute; reflexivity].
Defined.

Lemma getUniqueId_internal_suffix_witness :
  getUniqueId (internal_trace "create_0") = Ok "0xh:internal:undefined"%string ∧
  getUniqueId (internal_trace "call_0_1") = Ok "0xh:internal:0_1"%string ∧
  getUniqueId (internal_trace "delegatecall_0_1") = Ok "0xh:internal:0_1"%string.
Proof.
  split_and!.
  - apply (getUniqueId_internal_suffix (internal_trace "create_0") "create_0"); reflexivity.
  - apply (getUniqueId_internal_suffix (internal_trace "call_0_1") "call_0_1") with (p := ""%string);
      reflexivity.
  - apply (getUniqueId_internal_suffix (internal_trace "delegatecall_0_1") "delegatecall_0_1")
      with (p := "delegate"%string); reflexivity.
Defined.

(** ** Witnesses of the handler theorems *)

Definition example_update (w : string) (acts : list Activity) : AddressActivityUpdate :=
  mkUpdate w 1700000000000 acts.

Lemma address_activity_race_retry_witness :
  addMonitoredContract ∅ "0xccc" "u1" (Some "wh_1"%string) 1 = Ok example_registry ∧
  address_activity ∅ example_registry ∅ (example_update "wh_1" [token_log "0x13f"]) =
    Ok (addAssetTransfersWithLastTvl ∅ (Some "0xccc"%string)
          (ok_or [] (mapM (normalize (Some "0xccc"%string) 1700000000000) [token_log "0x13f"]))).
Proof.
  split; [vm_compute; reflexivity|].
  apply (address_activity_race_retry ∅ example_registry ∅ _ "0xccc" "u1" 1).
  - discriminate.
  - reflexivity.
  - intros k d Hk. by rewrite lookup_empty in Hk.
  - vm_compute. reflexivity.
  - vm_compute. reflexivity.
Defined.

Lemma address_activity_unmatched_witness :
  address_activity ∅ ∅ ∅ (example_update "wh_9" [token_log "0x13f"]) = Throw UnmatchedWebhook.
Proof.
  rewrite (address_activity_unmatched ∅ ∅ ∅ _); [vm_compute; reflexivity | |];
    vm_compute; reflexivity.
Defined.

End Webhook.
