(* ===== verification/Fetcher.v ===== *)
(** * Transfer fetcher: [getTransferEvents] and its helpers

    Models [timeRangeToMinutes], [getAllAssetTransfers],
    [getInflowAndOutflow], [getTransferEvents] and [addTvlToTransfers] of
    src/plugins/eth-data/transfer-events.ts (lines 199-329), with the
    [_.groupBy] of the result.

    [alchemy.core.getAssetTransfers] is the class [TransferProvider]: one
    page of results and the next page key for a direction, a page key and
    the hex block bounds of the request.  The [do … while (pageKey)] loop is
    [fetch_pages], with fuel: [None] means the provider was still returning
    page keys when the fuel ran out.  [paginate] is the loop's big-step
    semantics, and [fetch_pages_complete] shows that every finite page chain
    is fetched with enough fuel.

    Computations that page are [fuelled] ([option (outcome A)]): out of
    fuel, rejected, or resolved.  [new Date()] in [getTransferEvents] and in
    [getCurrentBlock] are read a provider round trip apart; the model reads
    both as the one instant [now].

    The result of [getTransferEvents] is composed with [Transfers] and
    [Tvl]: [getTransferEvents_objects] shows that the objects of the two
    arrays are fresh and distinct (the hypotheses of [Tvl]'s Section
    [Run]), and [getTransferEvents_runningTvl] and
    [getTransferEvents_perToken] state what the caller receives: the
    closed-form [tvl] read from the returned objects, and the
    [_.groupBy] of each array by asset ([perToken]). *)

From S2P Require Import Prelude JsString BlockTiming Transfers Tvl.

Module Fetcher.

Import BlockTiming Transfers Tvl.

(** The [timeRanges] table of [timeRangeToMinutes]. *)
Definition timeRanges : list (string * Z) :=
  [("24h", 60 * 24); ("12h", 60 * 12); ("6h", 60 * 6); ("3h", 60 * 3);
   ("1h", 60); ("30m", 30); ("5m", 5)]%string%Z.

(** [timeRangeToMinutes(timeRange)]: own keys of the table only. *)
Definition timeRangeToMinutes (timeRange : string) : outcome Z :=
  match snd <$> list_find (λ kv, kv.1 = timeRange) timeRanges with
  | Some (_, minutes) => if decide (minutes = 0%Z) then throw ("Invalid time range: " +:+ timeRange)
                         else Ok minutes
  | None => throw ("Invalid time range: " +:+ timeRange)
  end.

(** [AddressInfo]: the direction of a query. *)
Inductive AddressInfo := FromAddress (a : string) | ToAddress (a : string).

(** [alchemy.core.getAssetTransfers({...params, pageKey, fromBlock, toBlock,
    excludeZeroValue: true, category: [ERC20, EXTERNAL, INTERNAL]})]. *)
Class TransferProvider := {
  getAssetTransfers : AddressInfo → option string → string → string →
                      outcome (list raw_transfer * option string)
}.

(** A computation that may page without end: [None] when the fuel ran out. *)
Abbreviation fuelled A := (option (outcome A)).

Definition fbind {A B} (c : fuelled A) (k : A → fuelled B) : fuelled B :=
  match c with
  | None => None
  | Some (Throw m) => Some (Throw m)
  | Some (Ok a) => k a
  end.

Definition fmapF {A B} (f : A → B) (c : fuelled A) : fuelled B := fmap (M:=option) (fmap (M:=outcome) f) c.

Definition fcatch {A} (c : fuelled A) (h : string → outcome A) : fuelled A :=
  match c with Some (Throw m) => Some (h m) | _ => c end.

Section WithProvider.
Context `{TransferProvider}.

(** [pageKey] is truthy. *)
Definition more (k : option string) : option string :=
  match k with Some s => if decide (s = ""%string) then None else Some s | None => None end.

(** The [do … while (pageKey)] loop, [allAssetTransfers] being [acc]. *)
Fixpoint fetch_pages (fuel : nat) (params : AddressInfo) (fromBlock toBlock : string)
    (pageKey : option string) (acc : list raw_transfer) : fuelled (list raw_transfer) :=
  match fuel with
  | O => None
  | S f =>
      match getAssetTransfers params pageKey fromBlock toBlock with
      | Throw m => Some (Throw m)
      | Ok (transfers, next) =>
          match more next with
          | Some k => fetch_pages f params fromBlock toBlock (Some k) (acc ++ transfers)
          | None => Some (Ok (acc ++ transfers))
          end
      end
  end.

(** [getAllAssetTransfers(params, timeRange, currentBlock)]. *)
Definition getAllAssetTransfers (fuel : nat) (params : AddressInfo) (timeRange : string)
    (currentBlock : Z) : fuelled (list raw_transfer) :=
  match timeRangeToMinutes timeRange with
  | Throw m => Some (Throw m)
  | Ok minutes =>
      let fromBlock := (currentBlock - getNumOfBlocks minutes)%Z in
      fetch_pages fuel params (toHex fromBlock) (toHex (currentBlock - 2)) None []
  end.

(** [getInflowAndOutflow(address, now, timeRange, currentBlock)]: the two
    queries of [Promise.all] (the first failure in list order is the one
    reported), then [cleanTransfers] on each, outflow first. *)
Definition getInflowAndOutflow (fuel : nat) (address : string) (now : Z) (timeRange : string)
    (currentBlock : Z) : fuelled (list CleanTransfers * list CleanTransfers) :=
  fbind (getAllAssetTransfers fuel (FromAddress address) timeRange currentBlock) (λ outflowRaw,
  fbind (getAllAssetTransfers fuel (ToAddress address) timeRange currentBlock) (λ inflowRaw,
  Some (outflow ← cleanTransfers outflowRaw now currentBlock;
        inflow ← cleanTransfers inflowRaw now currentBlock;
        Ok (outflow, inflow)))).

(** The loop's big-step semantics: the page chain from [pageKey] ends, or
    a request fails, and the result is the pages' concatenation. *)
Inductive paginate (params : AddressInfo) (fromBlock toBlock : string)
    : option string → outcome (list raw_transfer) → Prop :=
| pg_last k ts next :
    getAssetTransfers params k fromBlock toBlock = Ok (ts, next) → more next = None →
    paginate params fromBlock toBlock k (Ok ts)
| pg_next k ts next k' r :
    getAssetTransfers params k fromBlock toBlock = Ok (ts, next) → more next = Some k' →
    paginate params fromBlock toBlock (Some k') r →
    paginate params fromBlock toBlock k (app ts <$> r)
| pg_error k m :
    getAssetTransfers params k fromBlock toBlock = Throw m →
    paginate params fromBlock toBlock k (Throw m).

(** The accumulator is a prefix of the result. *)
Lemma fetch_pages_acc fuel params fromBlock toBlock k acc :
  fetch_pages fuel params fromBlock toBlock k acc =
  fmapF (app acc) (fetch_pages fuel params fromBlock toBlock k []).
Proof.
  revert k acc. induction fuel as [|f IH]; intros k acc; [done|]. simpl.
  destruct (getAssetTransfers params k fromBlock toBlock) as [[ts next]|m]; [|done].
  destruct (more next) as [k'|]; [|done].
  rewrite IH, (IH _ ([] ++ ts)). destruct (fetch_pages f _ _ _ _ []) as [[l|m]|]; simpl; [|done..].
  by rewrite app_assoc.
Qed.

Lemma fetch_pages_step fuel params fromBlock toBlock k ts next k' :
  getAssetTransfers params k fromBlock toBlock = Ok (ts, next) → more next = Some k' →
  fetch_pages (S fuel) params fromBlock toBlock k [] =
  fmapF (app ts) (fetch_pages fuel params fromBlock toBlock (Some k') []).
Proof. intros Hg Hm. simpl. rewrite Hg, Hm. apply fetch_pages_acc. Qed.

(** What the loop returns is what the page chain denotes. *)
Lemma fetch_pages_sound fuel params fromBlock toBlock k r :
  fetch_pages fuel params fromBlock toBlock k [] = Some r → paginate params fromBlock toBlock k r.
Proof.
  revert k r. induction fuel as [|f IH]; intros k r; [done|].
  destruct (getAssetTransfers params k fromBlock toBlock) as [[ts next]|m] eqn:Hg.
  - destruct (more next) as [k'|] eqn:Hm.
    + rewrite (fetch_pages_step f _ _ _ _ _ _ _ Hg Hm).
      destruct (fetch_pages f _ _ _ _ []) as [r'|] eqn:Hf; [|done].
      intros [= <-]. eapply pg_next; eauto.
    + simpl. rewrite Hg, Hm. intros [= <-]. by eapply pg_last.
  - simpl. rewrite Hg. intros [= <-]. by apply pg_error.
Qed.

(** C18: Termination of the paging loop.  When the provider's page chain
    from [pageKey] ends (or a request fails), the loop returns the
    concatenation of the pages (or the failure) for every fuel from some
    bound on. *)
Theorem fetch_pages_complete params fromBlock toBlock k r :
  paginate params fromBlock toBlock k r →
  ∃ n, ∀ fuel, n ≤ fuel → fetch_pages fuel params fromBlock toBlock k [] = Some r.
Proof.
  induction 1 as [k ts next Hg Hm|k ts next k' r Hg Hm _ [n IH]|k m Hg].
  - exists 1%nat. intros [|f] Hf; [lia|]. simpl. by rewrite Hg, Hm.
  - exists (S n). intros [|f] Hf; [lia|].
    rewrite (fetch_pages_step f _ _ _ _ _ _ _ Hg Hm), IH by lia. done.
  - exists 1%nat. intros [|f] Hf; [lia|]. simpl. by rewrite Hg.
Qed.

(** C19: The query window.  For every supported time range of [m]
    minutes, [getAllAssetTransfers] pages through the blocks from
    [currentBlock - 5m] to [currentBlock - 2], given in hex; an unsupported
    range rejects before any request. *)
Theorem getAllAssetTransfers_window fuel params timeRange minutes currentBlock :
  (timeRange, minutes) ∈ timeRanges →
  getAllAssetTransfers fuel params timeRange currentBlock =
    fetch_pages fuel params (toHex (currentBlock - 5 * minutes)) (toHex (currentBlock - 2)) None [] ∧
  hexToNumber (toHex (currentBlock - 5 * minutes)) = Ok (currentBlock - 5 * minutes)%Z.
Proof.
  intros Hin. split; [|apply hexToNumber_toHex].
  repeat (apply elem_of_cons in Hin as [Hin|Hin]; [by simplify_eq|]).
  by apply elem_of_nil in Hin.
Qed.

End WithProvider.

(** The message [getTransferEvents] rethrows for a caught error. *)
Definition rethrow (message : string) : string :=
  if includes message "Not enough transfers found" then message else "An unknown error occurred.".

(** Lines 288-289: [_.groupBy(xs, 'asset')] over an array of objects.
    The key is the object's [asset] read as a property key ([null] becomes
    "null"); every location of the arrays is allocated, so the last case is
    never taken. *)
Definition assetKey (h : heap) (l : nat) : string :=
  match h !! l with Some t => default "null" (asset t) | None => "undefined" end.

Definition perToken (h : heap) (ls : list nat) : gmap string (list nat) :=
  groupBy (assetKey h) ls.

(** The result of [getTransferEvents]: the two arrays, their grouping by
    asset (arrays of the same objects), the time and the snapshot. *)
Record TransferEvents := mkTransferEvents {
  te_outflow : list nat;
  te_inflow : list nat;
  te_perTokenInflow : gmap string (list nat);
  te_perTokenOutflow : gmap string (list nat);
  te_now : Z;
  te_perTokenCurrentTvl : gmap string num
}.

Section Events.
Context `{TransferProvider} `{BalanceProvider}.

(** [getTransferEvents(address, timeRange)], given the latest block the
    provider reports and the time; the records live in the heap. *)
Definition getTransferEvents (fuel : nat) (h : heap) (address timeRange : string)
    (latest : outcome Block) (now : Z) : fuelled (heap * TransferEvents) :=
  fcatch
    (fbind (Some (getCurrentBlock latest now)) (λ '(currentBlock, _),
     fbind (getInflowAndOutflow fuel address now timeRange currentBlock) (λ '(outflowR, inflowR),
     let '(h1, outflow) := alloc h outflowR in
     let '(h2, inflow) := alloc h1 inflowR in
     Some (if bool_decide (outflow = [] ∨ inflow = [])
           then throw ("Not enough transfers found in the last " +:+ timeRange)
           else '(h3, perTokenCurrentTvl) ← addCurrentTokenBalances h2 inflow outflow address currentBlock;
                let perTokenInflow := perToken h3 inflow in
                let perTokenOutflow := perToken h3 outflow in
                Ok (h3, mkTransferEvents outflow inflow perTokenInflow perTokenOutflow now
                          perTokenCurrentTvl)))))
    (λ m, throw (rethrow m)).

(** [addTvlToTransfers(cleanTransfers, address)]: the records with
    [flow === 1] as inflow, those with [flow === -1] as outflow. *)
Definition addTvlToTransfers (h : heap) (ls : list nat) (address : string) (latest : outcome Block)
    : outcome heap :=
  block ← latest;
  let flowIs f l := bool_decide (flow <$> h !! l = Some (Some f)) in
  '(h', _) ← addCurrentTokenBalances h (filter (λ l, flowIs 1%Z l = true) ls)
                                       (filter (λ l, flowIs (-1)%Z l = true) ls) address (number block);
  Ok h'.

(** The steps of a successful [getTransferEvents]. *)
Lemma getTransferEvents_Ok fuel h address timeRange latest now h' ev :
  getTransferEvents fuel h address timeRange latest now = Some (Ok (h', ev)) →
  ∃ cb w outR inR h1 h2,
    getCurrentBlock latest now = Ok (cb, w) ∧
    getInflowAndOutflow fuel address now timeRange cb = Some (Ok (outR, inR)) ∧
    alloc h outR = (h1, te_outflow ev) ∧ alloc h1 inR = (h2, te_inflow ev) ∧
    te_outflow ev ≠ [] ∧ te_inflow ev ≠ [] ∧ te_now ev = now ∧
    addCurrentTokenBalances h2 (te_inflow ev) (te_outflow ev) address cb = Ok (h', te_perTokenCurrentTvl ev) ∧
    te_perTokenInflow ev = perToken h' (te_inflow ev) ∧ te_perTokenOutflow ev = perToken h' (te_outflow ev).
Proof.
  unfold getTransferEvents, fcatch, fbind.
  destruct (getCurrentBlock latest now) as [[cb w]|m] eqn:Hb; [|done].
  destruct (getInflowAndOutflow fuel address now timeRange cb) as [[[outR inR]|m]|] eqn:Hio; [|done|done].
  destruct (alloc h outR) as [h1 lo] eqn:E1. destruct (alloc h1 inR) as [h2 li] eqn:E2.
  case_bool_decide as Hne; [done|].
  destruct (addCurrentTokenBalances h2 li lo address cb) as [[h3 tvl]|m] eqn:Ea; [|done].
  intros [= <- <-]. eexists _, _, _, _, _, _. split_and!; simpl; eauto; naive_solver.
Qed.

(** What a successful [getTransferEvents] leaves in the heap: the fetched
    records in fresh, distinct objects, tagged and given a [tvl], the
    objects that existed before untouched, and the run of
    [addCurrentTokenBalances] over the new objects. *)
Lemma getTransferEvents_objects fuel h address timeRange latest now h' ev :
  getTransferEvents fuel h address timeRange latest now = Some (Ok (h', ev)) →
  ∃ cb w outR inR h2,
    getCurrentBlock latest now = Ok (cb, w) ∧
    getInflowAndOutflow fuel address now timeRange cb = Some (Ok (outR, inR)) ∧
    NoDup (te_inflow ev ++ te_outflow ev) ∧
    (∀ l, l ∈ te_inflow ev ++ te_outflow ev → h !! l = None ∧ is_Some (h2 !! l)) ∧
    (∀ l, l ∉ te_inflow ev ++ te_outflow ev → h' !! l = h !! l) ∧
    Forall2 (λ l r, ∃ v, h' !! l = Some (set_tvl v (set_flow (-1) r))) (te_outflow ev) outR ∧
    Forall2 (λ l r, ∃ v, h' !! l = Some (set_tvl v (set_flow 1 r))) (te_inflow ev) inR ∧
    addCurrentTokenBalances h2 (te_inflow ev) (te_outflow ev) address cb = Ok (h', te_perTokenCurrentTvl ev) ∧
    te_perTokenInflow ev = perToken h' (te_inflow ev) ∧ te_perTokenOutflow ev = perToken h' (te_outflow ev).
Proof.
  intros (cb & w & outR & inR & h1 & h2 & Hb & Hio & E1 & E2 & _ & _ & _ & Ea & Hpi & Hpo)%getTransferEvents_Ok.
  destruct (alloc_spec _ _ _ _ E1) as (Hnd1 & Hnew1 & Hold1 & Hat1).
  destruct (alloc_spec _ _ _ _ E2) as (Hnd2 & Hnew2 & Hold2 & Hat2).
  assert (Hdisj : ∀ l, l ∈ te_inflow ev → l ∉ te_outflow ev).
  { intros l Hi Ho. apply Hnew2 in Hi. destruct (Forall2_heap_is_Some _ _ _ l Hat1 Ho). congruence. }
  assert (Hat1' : Forall2 (λ l r, h2 !! l = Some r) (te_outflow ev) outR).
  { apply (Forall2_heap_impl _ _ _ _ Hat1). intros l t Hl Ht. rewrite Hold2; [done|].
    intros Hi. by apply (Hdisj l). }
  assert (Hnd : NoDup (te_inflow ev ++ te_outflow ev)) by (apply NoDup_app; split_and!; auto).
  assert (Hdom : ∀ l, l ∈ te_inflow ev ++ te_outflow ev → is_Some (h2 !! l)).
  { intros l [Hl|Hl]%elem_of_app; [exact (Forall2_heap_is_Some _ _ _ l Hat2 Hl) | exact (Forall2_heap_is_Some _ _ _ l Hat1' Hl)]. }
  destruct (addCurrentTokenBalances_Ok_inv _ _ _ _ _ _ _ Ea) as [byAddr Hsnap].
  pose proof (λ l t0, run_tagged_elem _ _ _ _ _ byAddr _ Hnd Hdom Hsnap _ _ l t0 Ea) as Htag.
  exists cb, w, outR, inR, h2. split_and!; try done.
  - intros l Hl. split; [|by apply Hdom]. apply elem_of_app in Hl as [Hl|Hl]; [|by apply Hnew1].
    rewrite <- Hold1 by (by apply Hdisj). by apply Hnew2.
  - intros l Hl. rewrite (addCurrentTokenBalances_frame _ _ _ _ _ _ _ _ Ea Hl), Hold2, Hold1; set_solver.
  - apply (Forall2_heap_impl _ _ _ _ Hat1'). intros l t Hl Ht.
    destruct (Htag l t) as [v Hv]; [set_solver | done |]. rewrite decide_True in Hv by done. eauto.
  - apply (Forall2_heap_impl _ _ _ _ Hat2). intros l t Hl Ht.
    destruct (Htag l t) as [v Hv]; [set_solver | done |]. rewrite decide_False in Hv by auto. eauto.
Qed.

Lemma rethrow_cases m : rethrow m = "An unknown error occurred."%string ∨
                        (rethrow m = m ∧ includes m "Not enough transfers found" = true).
Proof. unfold rethrow. destruct (includes m _) eqn:E; auto. Qed.

(** Error surface.  Whatever fails inside [getTransferEvents], it
    rejects either with a message that mentions "Not enough transfers
    found" or with "An unknown error occurred.": the provider's, the
    decoder's and the time-range errors are all replaced by the latter. *)
Theorem getTransferEvents_errors fuel h address timeRange latest now m :
  getTransferEvents fuel h address timeRange latest now = Some (Throw m) →
  m = "An unknown error occurred."%string ∨ includes m "Not enough transfers found" = true.
Proof.
  unfold getTransferEvents, fcatch.
  destruct (fbind _ _) as [[r|m']|]; intros [= <-].
  destruct (rethrow_cases m') as [->|[-> ?]]; auto.
Qed.

(** C20: [InvalidTimeRange] is swallowed.  For a time range the table
    does not have (whose error message does not itself mention "Not enough
    transfers found"), [getTransferEvents] rejects with "An unknown error
    occurred." once the anchor block is known, whatever the fuel: the
    caller is not told that its range was invalid (specification §7 asks
    for an [InvalidTimeRange] error). *)
Theorem getTransferEvents_invalid_range fuel h address timeRange latest now cb w m :
  getCurrentBlock latest now = Ok (cb, w) →
  timeRangeToMinutes timeRange = Throw m →
  includes m "Not enough transfers found" = false →
  getTransferEvents fuel h address timeRange latest now = Some (Throw "An unknown error occurred."%string).
Proof.
  intros Hb Ht Hm. unfold getTransferEvents, getInflowAndOutflow, getAllAssetTransfers.
  rewrite Hb, Ht. simpl. unfold rethrow. by rewrite Hm.
Qed.

(** C21: Insufficient history.  When both directions are fetched and
    either one has no transfer, [getTransferEvents] rejects with "Not enough
    transfers found in the last <timeRange>" before reading any balance. *)
Theorem getTransferEvents_insufficient fuel h address timeRange latest now cb w outflow inflow :
  getCurrentBlock latest now = Ok (cb, w) →
  getInflowAndOutflow fuel address now timeRange cb = Some (Ok (outflow, inflow)) →
  outflow = [] ∨ inflow = [] →
  getTransferEvents fuel h address timeRange latest now =
    Some (Throw ("Not enough transfers found in the last " +:+ timeRange)).
Proof.
  intros Hb Hio Hempty. unfold getTransferEvents. rewrite Hb. simpl. rewrite Hio. simpl.
  destruct (alloc h outflow) as [h1 lo] eqn:E1. destruct (alloc h1 inflow) as [h2 li] eqn:E2.
  rewrite bool_decide_true.
  - simpl. unfold rethrow.
    assert (Hs : "Not enough transfers found in the last "%string =
                 "Not enough transfers found" +:+ " in the last ") by reflexivity.
    by rewrite Hs, <- string_app_assoc, includes_prefix.
  - apply alloc_length in E1. apply alloc_length in E2.
    destruct Hempty as [->| ->]; [left|right]; apply nil_length_inv; simpl in *; lia.
Qed.

(** C4: What [getTransferEvents] returns, end to end.  On success the
    two arrays hold the fetched records in fresh objects, all distinct and
    unused before (so the walk's writes through one array never reach
    another record), the objects that existed before are untouched, each
    outflow object is its fetched record tagged [-1] and each inflow object
    its record tagged [1], each with a [tvl].  Reading the returned objects
    back: the snapshot is the one [addCurrentTokenBalances] takes of the
    returned objects' tokens, and the object at position [j] of the
    timestamp-descending order carries
    [tvl = snapshot[token] + Σ flow * value] over the objects of its token
    at positions [1..j]. *)
Theorem getTransferEvents_runningTvl fuel h address timeRange latest now h' ev :
  getTransferEvents fuel h address timeRange latest now = Some (Ok (h', ev)) →
  ∃ cb w outR inR byAddr,
    getCurrentBlock latest now = Ok (cb, w) ∧
    getInflowAndOutflow fuel address now timeRange cb = Some (Ok (outR, inR)) ∧
    NoDup (te_inflow ev ++ te_outflow ev) ∧
    (∀ l, l ∈ te_inflow ev ++ te_outflow ev → h !! l = None) ∧
    (∀ l, l ∉ te_inflow ev ++ te_outflow ev → h' !! l = h !! l) ∧
    Forall2 (λ l r, ∃ v, h' !! l = Some (set_tvl v (set_flow (-1) r))) (te_outflow ev) outR ∧
    Forall2 (λ l r, ∃ v, h' !! l = Some (set_tvl v (set_flow 1 r))) (te_inflow ev) inR ∧
    currentTokenBalances h' (te_inflow ev ++ te_outflow ev) address cb = Ok (byAddr, te_perTokenCurrentTvl ev) ∧
    ∀ j l t, reverse (sortBy (timestampAt h') (te_inflow ev ++ te_outflow ev)) !! j = Some l →
      h' !! l = Some t →
      tvl t ≡ add_sum (get byAddr (tvlKey t))
                (prefix_flow (entries h' (reverse (sortBy (timestampAt h') (te_inflow ev ++ te_outflow ev))))
                   (tvlKey t) j).
Proof.
  intros (cb & w & outR & inR & h2 & Hb & Hio & Hnd & Hnew & Hframe & Ho & Hi & Ea & _ & _)%getTransferEvents_objects.
  destruct (addCurrentTokenBalances_Ok_inv _ _ _ _ _ _ _ Ea) as [byAddr Hsnap].
  destruct (run_final_closed_form _ _ _ _ _ byAddr _ Hnd (λ l Hl, proj2 (Hnew l Hl)) Hsnap _ _ Ea) as [Hcb Hcf].
  exists cb, w, outR, inR, byAddr. split_and!; try done. intros l Hl. by apply Hnew.
Qed.

(** C5: [perTokenInflow] and [perTokenOutflow].  For every asset key [k]
    (a [null] asset is the key "null"), the group of [k] holds, in order,
    the objects of exactly the fetched records whose asset is [k]: the same
    objects as the inflow (outflow) array, so they carry the flow tag and
    the [tvl] the walk wrote; a key is present, with a non-empty group,
    exactly when some fetched record has it. *)
Theorem getTransferEvents_perToken fuel h address timeRange latest now h' ev :
  getTransferEvents fuel h address timeRange latest now = Some (Ok (h', ev)) →
  ∃ cb w outR inR,
    getCurrentBlock latest now = Ok (cb, w) ∧
    getInflowAndOutflow fuel address now timeRange cb = Some (Ok (outR, inR)) ∧
    ∀ k,
      match te_perTokenInflow ev !! k with
      | Some ls => ls ≠ [] ∧ Forall2 (λ l r, ∃ v, h' !! l = Some (set_tvl v (set_flow 1 r)))
                              ls (filter (λ r, default "null"%string (asset r) = k) inR)
      | None => filter (λ r, default "null"%string (asset r) = k) inR = []
      end ∧
      match te_perTokenOutflow ev !! k with
      | Some ls => ls ≠ [] ∧ Forall2 (λ l r, ∃ v, h' !! l = Some (set_tvl v (set_flow (-1) r)))
                              ls (filter (λ r, default "null"%string (asset r) = k) outR)
      | None => filter (λ r, default "null"%string (asset r) = k) outR = []
      end.
Proof.
  intros (cb & w & outR & inR & h2 & Hb & Hio & _ & _ & _ & Ho & Hi & _ & -> & ->)%getTransferEvents_objects.
  exists cb, w, outR, inR. split_and!; [done | done |]. intros k.
  unfold perToken. split; apply groupBy_lookup_Forall2, Forall2_filter; [done | | done |];
    intros l r [v Hv]; unfold assetKey; by rewrite Hv.
Qed.

(** The objects that existed before a successful [getTransferEvents] are
    still there, unchanged. *)
Lemma getTransferEvents_heap_mono fuel h address timeRange latest now h' ev :
  getTransferEvents fuel h address timeRange latest now = Some (Ok (h', ev)) → h ⊆ h'.
Proof.
  intros (? & ? & ? & ? & ? & _ & _ & _ & Hnew & Hframe & _)%getTransferEvents_objects.
  apply map_subseteq_spec. intros l t Hl.
  destruct (decide (l ∈ te_inflow ev ++ te_outflow ev)) as [Hin|Hin].
  - by rewrite (proj1 (Hnew l Hin)) in Hl.
  - by rewrite Hframe.
Qed.

End Events.

(** C25: Timestamp estimates.  When the latest block is at most 13 s old,
    the timestamp [cleanTransfers] gives a transfer of block [b] lies within
    (-7 s, +5 s] of the time block [b] is due on the 12-second schedule of
    the latest block. *)
Theorem cleanTransfer_timestamp_bound latest now cb w t r :
  (0 ≤ now - BlockTiming.timestamp latest * 1000 ≤ 13000)%Z →
  getCurrentBlock (Ok latest) now = Ok (cb, w) →
  cleanTransfer now cb t = Ok r →
  (-7000 < Transfers.timestamp r - expected_time latest (blockNum r) ≤ 5000)%Z.
Proof.
  intros Hd Hcb Hr. unfold cleanTransfer in Hr. outcome_inv. simpl.
  apply getCurrentBlock_cases in Hcb. unfold expected_time.
  destruct Hcb as [(? & -> & _)|(? & -> & _)]; lia.
Qed.

(** ** Witnesses *)

Section Examples.

Definition ex_raw (uid blk : string) : raw_transfer :=
  mkRaw uid ERC20 blk "0xaaa" (Some "0xccc"%string) 2 (Some "USDC"%string) "0xh"
    (mkRawContract None (Some "0xa0b8"%string) (Some "0x6"%string)).

(** Two pages of outgoing transfers, no incoming one. *)
#[local] Instance example_transfer_provider : TransferProvider := {|
  getAssetTransfers params k _ _ :=
    match params, k with
    | FromAddress _, None => Ok ([ex_raw "a" "0x64"], Some "p2"%string)
    | FromAddress _, Some _ => Ok ([ex_raw "b" "0x65"], None)
    | ToAddress _, _ => Ok ([], None)
    end
|}.

#[local] Existing Instance Tvl.example_provider.

Definition example_latest : outcome Block := Ok (mkBlock 100 1000).

Lemma fetch_pages_complete_witness :
  paginate (FromAddress "0xccc") "0x0" "0x1" None (Ok [ex_raw "a" "0x64"; ex_raw "b" "0x65"]) ∧
  ∃ n, ∀ fuel, n ≤ fuel →
    fetch_pages fuel (FromAddress "0xccc") "0x0" "0x1" None [] = Some (Ok [ex_raw "a" "0x64"; ex_raw "b" "0x65"]).
Proof.
  assert (Hp : paginate (FromAddress "0xccc") "0x0" "0x1" None (Ok [ex_raw "a" "0x64"; ex_raw "b" "0x65"])).
  { refine (pg_next _ _ _ None [ex_raw "a" "0x64"] (Some "p2"%string) "p2" (Ok [ex_raw "b" "0x65"]) _ _ _);
      [reflexivity | reflexivity |].
    by eapply pg_last. }
  split; [exact Hp | exact (fetch_pages_complete _ _ _ _ _ Hp)].
Defined.

Lemma getAllAssetTransfers_window_witness :
  ("5m"%string, 5%Z) ∈ timeRanges ∧
  getAllAssetTransfers 3 (FromAddress "0xccc") "5m" 1000 =
    fetch_pages 3 (FromAddress "0xccc") (toHex (1000 - 5 * 5)) (toHex (1000 - 2)) None [].
Proof.
  assert (Hin : ("5m"%string, 5%Z) ∈ timeRanges) by vm_decide.
  split; [exact Hin | apply (getAllAssetTransfers_window 3 (FromAddress "0xccc") "5m" 5 1000 Hin)].
Defined.

Lemma getTransferEvents_invalid_range_witness :
  getTransferEvents 3 ∅ "0xccc" "7m" example_latest 1005000 =
    Some (Throw "An unknown error occurred."%string).
Proof.
  apply (getTransferEvents_invalid_range _ _ _ _ _ _ 100 0 "Invalid time range: 7m");
    vm_compute; reflexivity.
Defined.

Lemma getTransferEvents_errors_witness :
  "An unknown error occurred."%string = "An unknown error occurred."%string ∨
  includes "An unknown error occurred." "Not enough transfers found" = true.
Proof.
  apply (getTransferEvents_errors 3 ∅ "0xccc" "7m" example_latest 1005000).
  vm_compute. reflexivity.
Defined.

Definition example_outflow : list CleanTransfers :=
  ok_or [] (cleanTransfers [ex_raw "a" "0x64"; ex_raw "b" "0x65"] 1005000 100).

Lemma getTransferEvents_insufficient_witness :
  getInflowAndOutflow 3 "0xccc" 1005000 "5m" 100 = Some (Ok (example_outflow, [])) ∧
  getTransferEvents 3 ∅ "0xccc" "5m" example_latest 1005000 =
    Some (Throw ("Not enough transfers found in the last 5m"%string)).
Proof.
  assert (Hio : getInflowAndOutflow 3 "0xccc" 1005000 "5m" 100 = Some (Ok (example_outflow, [])))
    by (vm_compute; reflexivity).
  split; [exact Hio|].
  apply (getTransferEvents_insufficient 3 ∅ "0xccc" "5m" example_latest 1005000 100 0 example_outflow []);
    [reflexivity | exact Hio | by right].
Defined.

Definition example_clean : CleanTransfers :=
  ok_or (example_transfer 0 0 0 "") (cleanTransfer 1009000 101 (ex_raw "a" "0x64")).

Lemma cleanTransfer_timestamp_bound_witness :
  getCurrentBlock example_latest 1009000 = Ok (101%Z, 4000%Z) ∧
  (-7000 < Transfers.timestamp example_clean - expected_time (mkBlock 100 1000) (blockNum example_clean) ≤ 5000)%Z.
Proof.
  split; [reflexivity|].
  apply (cleanTransfer_timestamp_bound (mkBlock 100 1000) 1009000 101 4000 (ex_raw "a" "0x64")).
  - simpl. lia.
  - reflexivity.
  - vm_compute. reflexivity.
Defined.

(** ** A successful run *)

(** One outgoing and one incoming USDC transfer. *)
Definition history_provider : TransferProvider := {|
  getAssetTransfers params _ _ _ :=
    match params with
    | FromAddress _ => Ok ([ex_raw "a" "0x64"], None)
    | ToAddress _ => Ok ([ex_raw "b" "0x63"], None)
    end
|}.

Definition usdc_provider : BalanceProvider := {|
  getTokenBalances := λ _ _, Ok [mkTokenBalance "0xa0b8" (Some "0x2dc6c0")];
  getTokenMetadata := λ _, Ok (mkTokenMetadata (Some 6%Z) (Some "USDC"));
  getBalance := λ _ _, Ok "0x0"
|}.

(** The heap and the result of the history fetch for [0xccc]. *)
Definition example_events : heap * TransferEvents :=
  match @getTransferEvents history_provider usdc_provider 3 ∅ "0xccc" "5m" example_latest 1005000 with
  | Some (Ok r) => r
  | _ => (∅, mkTransferEvents [] [] ∅ ∅ 0 ∅)
  end.

Lemma getTransferEvents_runningTvl_witness :
  @getTransferEvents history_provider usdc_provider 3 ∅ "0xccc" "5m" example_latest 1005000 =
    Some (Ok (example_events.1, example_events.2)) ∧
  ∃ cb w outR inR byAddr,
    getCurrentBlock example_latest 1005000 = Ok (cb, w) ∧
    @getInflowAndOutflow history_provider 3 "0xccc" 1005000 "5m" cb = Some (Ok (outR, inR)) ∧
    NoDup (te_inflow example_events.2 ++ te_outflow example_events.2) ∧
    (∀ l, l ∈ te_inflow example_events.2 ++ te_outflow example_events.2 → (∅ : heap) !! l = None) ∧
    (∀ l, l ∉ te_inflow example_events.2 ++ te_outflow example_events.2 →
          example_events.1 !! l = (∅ : heap) !! l) ∧
    Forall2 (λ l r, ∃ v, example_events.1 !! l = Some (set_tvl v (set_flow (-1) r)))
      (te_outflow example_events.2) outR ∧
    Forall2 (λ l r, ∃ v, example_events.1 !! l = Some (set_tvl v (set_flow 1 r)))
      (te_inflow example_events.2) inR ∧
    @currentTokenBalances usdc_provider example_events.1
      (te_inflow example_events.2 ++ te_outflow example_events.2) "0xccc" cb =
      Ok (byAddr, te_perTokenCurrentTvl example_events.2) ∧
    ∀ j l t,
      reverse (sortBy (timestampAt example_events.1)
                 (te_inflow example_events.2 ++ te_outflow example_events.2)) !! j = Some l →
      example_events.1 !! l = Some t →
      tvl t ≡ add_sum (get byAddr (tvlKey t))
                (prefix_flow (entries example_events.1
                   (reverse (sortBy (timestampAt example_events.1)
                      (te_inflow example_events.2 ++ te_outflow example_events.2)))) (tvlKey t) j).
Proof.
  assert (E : @getTransferEvents history_provider usdc_provider 3 ∅ "0xccc" "5m" example_latest 1005000 =
                Some (Ok (example_events.1, example_events.2))) by (vm_compute; reflexivity).
  split; [exact E|].
  exact (@getTransferEvents_runningTvl history_provider usdc_provider 3 ∅ "0xccc" "5m"
           example_latest 1005000 _ _ E).
Defined.

Lemma getTransferEvents_perToken_witness :
  @getTransferEvents history_provider usdc_provider 3 ∅ "0xccc" "5m" example_latest 1005000 =
    Some (Ok (example_events.1, example_events.2)) ∧
  ∃ cb w outR inR,
    getCurrentBlock example_latest 1005000 = Ok (cb, w) ∧
    @getInflowAndOutflow history_provider 3 "0xccc" 1005000 "5m" cb = Some (Ok (outR, inR)) ∧
    ∀ k,
      match te_perTokenInflow example_events.2 !! k with
      | Some ls => ls ≠ [] ∧ Forall2 (λ l r, ∃ v, example_events.1 !! l = Some (set_tvl v (set_flow 1 r)))
                              ls (filter (λ r, default "null"%string (asset r) = k) inR)
      | None => filter (λ r, default "null"%string (asset r) = k) inR = []
      end ∧
      match te_perTokenOutflow example_events.2 !! k with
      | Some ls => ls ≠ [] ∧ Forall2 (λ l r, ∃ v, example_events.1 !! l = Some (set_tvl v (set_flow (-1) r)))
                              ls (filter (λ r, default "null"%string (asset r) = k) outR)
      | None => filter (λ r, default "null"%string (asset r) = k) outR = []
      end.
Proof.
  assert (E : @getTransferEvents history_provider usdc_provider 3 ∅ "0xccc" "5m" example_latest 1005000 =
                Some (Ok (example_events.1, example_events.2))) by (vm_compute; reflexivity).
  split; [exact E|].
  exact (@getTransferEvents_perToken history_provider usdc_provider 3 ∅ "0xccc" "5m"
           example_latest 1005000 _ _ E).
Defined.

End Examples.

End Fetcher.
