(* ===== verification/Init.v ===== *)
(** * Watch registration: [POST /alert/init]

    Models the handler of src/routes/alert/index.ts (lines 11-57) and the
    two helpers it calls that the other files do not model:
    [initAlertDefinitions] of src/plugins/db/alert-definition.ts (the
    default threshold alert, written unless the user already has an equal
    one) and [addAddressActivityWebhook] of src/plugins/alchemy/index.ts
    (the interface [WebhookProvider]).

    The handler runs its steps in order, each one awaited: validate the
    body, lower-case the address, seed the alert definitions, fetch the
    history with [getTransferEvents(address, '5m')], store the inflow and
    then the outflow ([addAssetTransfers], plugins/db/asset-transfers, not
    among the sources: modelled from the specification like the webhook's
    store), create the webhook, register the contract.  The [World] is the
    state of the three stores and of the transfer objects; the [catch]
    answers 500 with the world as the failing step left it, so what the
    earlier steps wrote stays written.

    The RediSearch tag query of [filterDuplicates] is modelled as exact
    equality on [userId] and [contractAddress], and [db.ft.search] without
    a [LIMIT] returns the first 10 matching documents (RediSearch's default
    [LIMIT 0 10]), taken here in the store's enumeration order;
    [randomUUID()] values are an input, one per alert written. *)

From S2P Require Import Prelude JsString BlockTiming Transfers Tvl Registry Webhook Fetcher.
From Stdlib Require Import Ascii.

Module Init.

Import BlockTiming Transfers Tvl Registry Webhook Fetcher.

Local Open Scope string_scope.

(** ** Alert definitions *)

(** [ThresholdAlert & AlertDefinitionBase]. *)
Record AlertDoc := mkAlert {
  al_contractAddress : string;
  al_name : option string;
  al_userId : string;
  al_createdAt : Z;
  al_updatedAt : Z;
  al_target : string;
  al_timeRange : string;
  al_valueType : string;
  al_value : Z
}.

Abbreviation alertStore := (gmap string AlertDoc).

(** [getDefaultAlerts(props)]: one TVL alert, 30 % over 3 h. *)
Definition getDefaultAlerts (userId contractAddress : string) (name : option string) (now : Z)
    : list AlertDoc :=
  [mkAlert contractAddress name userId now now "TVL" "3h" "percentage" 30].

(** [_.find(allUserAlerts, _.omit(alert, ['createdAt', 'updatedAt', 'name']))]:
    [d] has every remaining field of [a]. *)
Definition matches (a d : AlertDoc) : Prop :=
  al_contractAddress d = al_contractAddress a ∧ al_userId d = al_userId a ∧
  al_target d = al_target a ∧ al_timeRange d = al_timeRange a ∧
  al_valueType d = al_valueType a ∧ al_value d = al_value a.

#[local] Instance matches_dec a d : Decision (matches a d).
Proof. unfold matches. apply _. Defined.

(** The documents of [idx:alertDefinition] that match the query
    [@userId:{..} @contractAddress:{..}]. *)
Definition userAlertDocs (db : alertStore) (userId contractAddress : string) : list AlertDoc :=
  filter (λ d, al_userId d = userId ∧ al_contractAddress d = contractAddress) (snd <$> map_to_list db).

(** The default page size of [FT.SEARCH]. *)
Definition searchLimit : nat := 10.

(** [(await db.ft.search(index, query)).documents.map((doc) => doc.value)]:
    the first page of the matches. *)
Definition userAlerts (db : alertStore) (userId contractAddress : string) : list AlertDoc :=
  take searchLimit (userAlertDocs db userId contractAddress).

(** [filterDuplicates(props, alerts)] *)
Definition filterDuplicates (db : alertStore) (userId contractAddress : string) (alerts : list AlertDoc)
    : list AlertDoc :=
  let allUserAlerts := userAlerts db userId contractAddress in
  filter (λ a, ¬ Exists (matches a) allUserAlerts) alerts.

(** [initAlertDefinitions(props)], the [i]-th alert under the [i]-th id. *)
Definition initAlertDefinitions (db : alertStore) (userId contractAddress : string) (name : option string)
    (now : Z) (uuids : list string) : alertStore :=
  let alerts := filterDuplicates db userId contractAddress (getDefaultAlerts userId contractAddress name now) in
  foldl (λ db '(id, alert), <[("alertDefinition:" +:+ id) := alert]> db) db (zip uuids alerts).

(** ** The webhook provider and the transfer store *)

(** [webhookAlchemy.notify.createWebhook(url, ADDRESS_ACTIVITY,
    {addresses: [contractAddress]})]: the new webhook's [id]. *)
Class WebhookProvider := {
  createWebhook : string → outcome string
}.

(** [addAssetTransfers(contractAddress, transfers)]. *)
Definition addAssetTransfers (st : tstore) (c : string) (ts : list CleanTransfers) : tstore :=
  foldl (λ st t, <[(Some c, uniqueId t) := t]> st) st ts.

(** ** The route *)

Record World := mkWorld {
  alerts : alertStore;
  assetTransfers : tstore;
  registry : store;
  objects : heap
}.

(** [req.body]: [None] for a field that is missing or not a string. *)
Record InitBody := mkBody {
  b_userId : option string;
  b_contractAddress : option string;
  b_name : option string
}.

Record Response := mkResponse { status : Z; body : string }.

Fixpoint js_join (sep : string) (l : list string) : string :=
  match l with
  | [] => ""
  | [x] => x
  | x :: l' => x +:+ sep +:+ js_join sep l'
  end.

Definition validationErrors (b : InitBody) : list string :=
  (if b_userId b is Some _ then [] else ["userId is missing"]) ++
  (if b_contractAddress b is Some _ then [] else ["contractAddress is missing"]).

Definition serverError : Response := mkResponse 500 "Unknown error".

Section Route.
Context `{TransferProvider} `{BalanceProvider} `{WebhookProvider}.

(** [router.post('/init', ...)] given the provider's latest block, the
    time and the [randomUUID()] values; [None] when the history's paging
    ran out of fuel. *)
Definition alert_init (fuel : nat) (w : World) (b : InitBody) (latest : outcome Block) (now : Z)
    (uuids : list string) : option (World * Response) :=
  match b_userId b, b_contractAddress b with
  | Some userId, Some contractAddress0 =>
      let contractAddress := lower contractAddress0 in
      let w1 := mkWorld (initAlertDefinitions (alerts w) userId contractAddress (b_name b) now uuids)
                  (assetTransfers w) (registry w) (objects w) in
      match getTransferEvents fuel (objects w1) contractAddress "5m" latest now with
      | None => None
      | Some (Throw _) => Some (w1, serverError)
      | Some (Ok (h, te)) =>
          let st := addAssetTransfers (assetTransfers w1) contractAddress (deref h (te_inflow te)) in
          let st := addAssetTransfers st contractAddress (deref h (te_outflow te)) in
          let w2 := mkWorld (alerts w1) st (registry w1) h in
          match createWebhook contractAddress with
          | Throw _ => Some (w2, serverError)
          | Ok webhookId =>
              match addMonitoredContract (registry w2) contractAddress userId (Some webhookId) now with
              | Throw _ => Some (w2, serverError)
              | Ok db => Some (mkWorld (alerts w2) (assetTransfers w2) db (objects w2), mkResponse 200 "ok")
              end
          end
      end
  | _, _ => Some (w, mkResponse 400 (js_join "; " (validationErrors b)))
  end.

Lemma alert_init_valid fuel w userId contractAddress name latest now uuids :
  alert_init fuel w (mkBody (Some userId) (Some contractAddress) name) latest now uuids =
  let c := lower contractAddress in
  let w1 := mkWorld (initAlertDefinitions (alerts w) userId c name now uuids)
              (assetTransfers w) (registry w) (objects w) in
  match getTransferEvents fuel (objects w) c "5m" latest now with
  | None => None
  | Some (Throw _) => Some (w1, serverError)
  | Some (Ok (h, te)) =>
      let st := addAssetTransfers (addAssetTransfers (assetTransfers w) c (deref h (te_inflow te)))
                  c (deref h (te_outflow te)) in
      let w2 := mkWorld (alerts w1) st (registry w) h in
      match createWebhook c with
      | Throw _ => Some (w2, serverError)
      | Ok webhookId =>
          match addMonitoredContract (registry w) c userId (Some webhookId) now with
          | Throw _ => Some (w2, serverError)
          | Ok db => Some (mkWorld (alerts w1) st db h, mkResponse 200 "ok")
          end
      end
  end.
Proof. reflexivity. Qed.

(** A body without a string [userId] or [contractAddress] is
    answered 400 with the missing fields joined by ["; "], and nothing is
    written. *)
Theorem alert_init_validation fuel w b latest now uuids :
  b_userId b = None ∨ b_contractAddress b = None →
  alert_init fuel w b latest now uuids = Some (w, mkResponse 400 (js_join "; " (validationErrors b))).
Proof.
  intros Hb. unfold alert_init.
  destruct (b_userId b), (b_contractAddress b); [by destruct Hb | done..].
Qed.

(** Registration.  When the history is fetched, the webhook is
    created with a non-empty id that no other contract carries, and the
    registry is well-formed, [POST /alert/init] answers 200, the fetched
    inflow and outflow records (with the TVL the walk wrote) are stored
    under the lower-cased address, and the webhook id resolves to that
    address. *)
Theorem alert_init_success fuel w userId c0 name latest now uuids h te webhookId :
  wf_store (registry w) →
  getTransferEvents fuel (objects w) (lower c0) "5m" latest now = Some (Ok (h, te)) →
  createWebhook (lower c0) = Ok webhookId →
  webhookId ≠ "" → has_char ":" (lower c0) = false →
  (∀ k d, registry w !! k = Some d → k ≠ keyOf (lower c0) → alchemyWebhookId d ≠ Some webhookId) →
  ∃ w' d, alert_init fuel w (mkBody (Some userId) (Some c0) name) latest now uuids = Some (w', mkResponse 200 "ok") ∧
    assetTransfers w' = addAssetTransfers (addAssetTransfers (assetTransfers w) (lower c0) (deref h (te_inflow te)))
                          (lower c0) (deref h (te_outflow te)) ∧
    objects w' = h ∧
    getMonitoredContractByAlchemyWebhookId (registry w') webhookId = Some (mkMC d (Some (lower c0))).
Proof.
  intros Hwf Hte Hwh Hne Hc Hother. rewrite alert_init_valid. simpl. rewrite Hte, Hwh.
  destruct (upsert_doc_wf (registry w !! keyOf (lower c0)) userId (Some webhookId) now) as (r & Hr & _).
  { intros d Hd. by apply (Hwf (keyOf (lower c0))). }
  assert (Hadd : addMonitoredContract (registry w) (lower c0) userId (Some webhookId) now =
                 Ok (match r with Some d => <[keyOf (lower c0) := d]> (registry w) | None => registry w end))
    by (unfold addMonitoredContract; by rewrite Hr).
  rewrite Hadd.
  destruct (add_webhook_lookup _ _ _ _ _ _ Hne Hc Hother Hadd) as (d & ids & Hl & _).
  eexists _, d. split_and!; [reflexivity | reflexivity | reflexivity | exact Hl].
Qed.

(** C29: Partial registration.  When creating the webhook fails, the
    request is answered 500 but the alert definitions and the fetched
    transfers are already stored, and the contract is not registered:
    the specification requires a failed registration to write nothing. *)
Theorem alert_init_partial_writes fuel w userId c0 name latest now uuids h te m :
  getTransferEvents fuel (objects w) (lower c0) "5m" latest now = Some (Ok (h, te)) →
  createWebhook (lower c0) = Throw m →
  alert_init fuel w (mkBody (Some userId) (Some c0) name) latest now uuids =
    Some (mkWorld (initAlertDefinitions (alerts w) userId (lower c0) name now uuids)
            (addAssetTransfers (addAssetTransfers (assetTransfers w) (lower c0) (deref h (te_inflow te)))
               (lower c0) (deref h (te_outflow te)))
            (registry w) h,
          serverError).
Proof. intros Hte Hwh. rewrite alert_init_valid. simpl. by rewrite Hte, Hwh. Qed.

(** C30: Every failure of [getTransferEvents], the insufficient-history
    error included, is answered 500 "Unknown error" after the alert
    definitions were written (the specification surfaces
    [InsufficientHistory] to the caller as a user-actionable error). *)
Theorem alert_init_history_error fuel w userId c0 name latest now uuids m :
  getTransferEvents fuel (objects w) (lower c0) "5m" latest now = Some (Throw m) →
  alert_init fuel w (mkBody (Some userId) (Some c0) name) latest now uuids =
    Some (mkWorld (initAlertDefinitions (alerts w) userId (lower c0) name now uuids)
            (assetTransfers w) (registry w) (objects w), mkResponse 500 "Unknown error").
Proof. intros Hte. rewrite alert_init_valid. simpl. by rewrite Hte. Qed.

(** The route deletes nothing: no alert definition, transfer record or
    contract, and no transfer object changes; a well-formed registry stays
    well-formed. *)
Lemma alert_init_grows fuel w b latest now uuids w' resp :
  alert_init fuel w b latest now uuids = Some (w', resp) →
  dom (alerts w) ⊆ dom (alerts w') ∧ dom (assetTransfers w) ⊆ dom (assetTransfers w') ∧
  dom (registry w) ⊆ dom (registry w') ∧ objects w ⊆ objects w' ∧
  (wf_store (registry w) → wf_store (registry w')).
Proof.
  assert (Ha : ∀ u c n, dom (alerts w) ⊆ dom (initAlertDefinitions (alerts w) u c n now uuids)).
  { intros. apply dom_foldl_mono. intros m [? ?]. apply dom_insert_mono. }
  assert (Hst : ∀ st c ts, dom st ⊆ dom (addAssetTransfers st c ts)).
  { intros. apply dom_foldl_mono. intros; apply dom_insert_mono. }
  unfold alert_init. destruct (b_userId b), (b_contractAddress b); simpl;
    [|by intros [= <- <-]; split_and!..].
  destruct (getTransferEvents _ _ _ _ _ _) as [[[h te]|m]|] eqn:Hte; simpl; [|by intros [= <- <-]; simpl; split_and!; auto|done].
  apply getTransferEvents_heap_mono in Hte.
  assert (Hst2 : ∀ c, dom (assetTransfers w) ⊆
            dom (addAssetTransfers (addAssetTransfers (assetTransfers w) c (deref h (te_inflow te))) c
                   (deref h (te_outflow te)))) by (intros; by etrans; apply Hst).
  destruct (createWebhook _); simpl; [|by intros [= <- <-]; simpl; split_and!; auto].
  destruct (addMonitoredContract _ _ _ _ _) as [db|] eqn:Ea; simpl; [|by intros [= <- <-]; simpl; split_and!; auto].
  intros [= <- <-]. destruct (addMonitoredContract_grows _ _ _ _ _ _ Ea). simpl. split_and!; auto.
Qed.

End Route.
(** [router.post('/create-address-activity')] of
    src/routes/alchemy/index.ts (lines 179-198): a webhook for one fixed
    address; 200 "Ok", or 500 "Error" when the provider rejects. *)
Definition create_address_activity `{WebhookProvider} : Response :=
  match createWebhook "0x1f9840a85d5af5bf1d1762f925bdaddc4201f984" with
  | Ok _ => mkResponse 200 "Ok"
  | Throw _ => mkResponse 500 "Error"
  end.

(** ** Seeding the alert definitions twice *)

Lemma matches_default u c n now n' now' d :
  matches (mkAlert c n u now now "TVL" "3h" "percentage" 30) d ↔
  matches (mkAlert c n' u now' now' "TVL" "3h" "percentage" 30) d.
Proof. done. Qed.

Lemma initAlertDefinitions_dup db u c n now uuids :
  Exists (matches (mkAlert c n u now now "TVL" "3h" "percentage" 30)) (userAlerts db u c) →
  initAlertDefinitions db u c n now uuids = db.
Proof.
  intros Hd. unfold initAlertDefinitions, filterDuplicates, getDefaultAlerts.
  rewrite filter_cons_False by (intros Hn; by apply Hn). by destruct uuids.
Qed.

Lemma userAlertDocs_delete db u c (k : string) :
  (List.length (userAlertDocs (delete k db) u c) ≤ List.length (userAlertDocs db u c))%nat.
Proof.
  unfold userAlertDocs. destruct (db !! k) as [x|] eqn:E; [|by rewrite delete_id].
  rewrite <- (map_to_list_delete db k x E), fmap_cons, filter_cons. case_match; simpl; lia.
Qed.

Lemma userAlertDocs_insert db u c (k : string) a :
  al_userId a = u → al_contractAddress a = c →
  a ∈ userAlertDocs (<[k := a]> db) u c ∧
  (List.length (userAlertDocs (<[k := a]> db) u c) ≤ S (List.length (userAlertDocs db u c)))%nat.
Proof.
  intros Hu Hc. rewrite <- insert_delete_eq.
  pose proof (userAlertDocs_delete db u c k) as Hle.
  unfold userAlertDocs in *. rewrite map_to_list_insert by apply lookup_delete_eq.
  rewrite fmap_cons, filter_cons_True by done. simpl. split; [by left | lia].
Qed.

(** C31: Seeding the alert definitions is idempotent while the search sees
    every alert of the user on the contract: when fewer than 10 are stored,
    once [initAlertDefinitions] has run (with an id for its alert), running
    it again, at any time and with any name and ids, writes nothing. *)
Theorem initAlertDefinitions_idempotent db u c n now uuids n' now' uuids' :
  (List.length (userAlertDocs db u c) < searchLimit)%nat → uuids ≠ [] →
  initAlertDefinitions (initAlertDefinitions db u c n now uuids) u c n' now' uuids' =
  initAlertDefinitions db u c n now uuids.
Proof.
  intros Hlen Hu. apply initAlertDefinitions_dup.
  destruct (decide (Exists (matches (mkAlert c n u now now "TVL" "3h" "percentage" 30)) (userAlerts db u c)))
    as [Hd|Hd].
  - rewrite initAlertDefinitions_dup by done.
    eapply Exists_impl; [exact Hd|]. intros d. apply matches_default.
  - destruct uuids as [|id ids]; [done|].
    unfold initAlertDefinitions at 1, filterDuplicates, getDefaultAlerts.
    rewrite filter_cons_True by done. simpl. rewrite filter_nil.
    assert (Hz : zip ids ([] : list AlertDoc) = []) by (by destruct ids). rewrite Hz. simpl.
    destruct (userAlertDocs_insert db u c ("alertDefinition:" +:+ id)
      (mkAlert c n u now now "TVL" "3h" "percentage" 30)) as [Hin Hl]; [done..|].
    apply Exists_exists. exists (mkAlert c n u now now "TVL" "3h" "percentage" 30). split; [|done].
    unfold userAlerts. rewrite take_ge by (unfold searchLimit in *; lia). exact Hin.
Qed.

(** Ten other alerts of user [u1] on [0xccc] (a 1 h window) and, under a
    key the store enumerates after them, the default alert. *)
Definition paged_store : alertStore :=
  <["alertDefinition:p" := mkAlert "0xccc" None "u1" 0 0 "TVL" "3h" "percentage" 30]>
  (list_to_map ((λ i, ("alertDefinition:" +:+ String (Ascii.ascii_of_nat (97 + i)) "",
                      mkAlert "0xccc" None "u1" 0 0 "TVL" "1h" "percentage" (Z.of_nat i)))
                <$> seq 0 10)).

(** Past the first page of the search the duplicate filter is blind: the
    default alert is stored, yet [initAlertDefinitions] writes it again. *)
Lemma initAlertDefinitions_duplicate_past_page :
  paged_store !! "alertDefinition:p" = Some (mkAlert "0xccc" None "u1" 0 0 "TVL" "3h" "percentage" 30) ∧
  initAlertDefinitions paged_store "u1" "0xccc" None 5 ["z"] =
  <["alertDefinition:z" := mkAlert "0xccc" None "u1" 5 5 "TVL" "3h" "percentage" 30]> paged_store.
Proof. split; vm_compute; reflexivity. Qed.

(** ** Witnesses *)

Definition example_world : World := mkWorld ∅ ∅ ∅ ∅.

(** No incoming transfer. *)
Definition outflow_only_provider : TransferProvider := {|
  getAssetTransfers params _ _ _ :=
    match params with
    | FromAddress _ => Ok ([ex_raw "a" "0x64"], None)
    | ToAddress _ => Ok ([], None)
    end
|}.

Definition webhooks_ok : WebhookProvider := {| createWebhook := λ _, Ok "wh_1" |}.
Definition webhooks_down : WebhookProvider := {| createWebhook := λ _, throw "Request failed with status code 503" |}.

Definition example_latest : outcome Block := Ok (mkBlock 100 1000).


Lemma alert_init_validation_witness :
  @alert_init history_provider usdc_provider webhooks_ok 3 example_world (mkBody None None None)
    example_latest 1005000 ["id1"] =
  Some (example_world, mkResponse 400 "userId is missing; contractAddress is missing").
Proof. apply (@alert_init_validation history_provider usdc_provider webhooks_ok). by left. Defined.

Lemma alert_init_success_witness :
  ∃ w' d, @alert_init history_provider usdc_provider webhooks_ok 3 example_world
            (mkBody (Some "u1") (Some "0xCCC") None) example_latest 1005000 ["id1"] = Some (w', mkResponse 200 "ok") ∧
    assetTransfers w' = addAssetTransfers (addAssetTransfers ∅ "0xccc" (deref example_events.1 (te_inflow example_events.2)))
                          "0xccc" (deref example_events.1 (te_outflow example_events.2)) ∧
    objects w' = example_events.1 ∧
    getMonitoredContractByAlchemyWebhookId (registry w') "wh_1" = Some (mkMC d (Some "0xccc")).
Proof.
  apply (@alert_init_success history_provider usdc_provider webhooks_ok 3 example_world "u1" "0xCCC" None
           example_latest 1005000 ["id1"] example_events.1 example_events.2 "wh_1").
  - intros k d Hk. cbn [registry example_world] in Hk. by rewrite lookup_empty in Hk.
  - vm_compute. reflexivity.
  - reflexivity.
  - discriminate.
  - reflexivity.
  - intros k d Hk. cbn [registry example_world] in Hk. by rewrite lookup_empty in Hk.
Defined.

Lemma alert_init_partial_writes_witness :
  @alert_init history_provider usdc_provider webhooks_down 3 example_world
    (mkBody (Some "u1") (Some "0xCCC") None) example_latest 1005000 ["id1"] =
  Some (mkWorld (initAlertDefinitions ∅ "u1" "0xccc" None 1005000 ["id1"])
          (addAssetTransfers (addAssetTransfers ∅ "0xccc" (deref example_events.1 (te_inflow example_events.2)))
             "0xccc" (deref example_events.1 (te_outflow example_events.2)))
          ∅ example_events.1, serverError) ∧
  size (addAssetTransfers (addAssetTransfers ∅ "0xccc" (deref example_events.1 (te_inflow example_events.2)))
          "0xccc" (deref example_events.1 (te_outflow example_events.2))) = 2%nat.
Proof.
  split; [|vm_compute; reflexivity].
  apply (@alert_init_partial_writes history_provider usdc_provider webhooks_down 3 example_world "u1" "0xCCC" None
           example_latest 1005000 ["id1"] example_events.1 example_events.2 "Request failed with status code 503").
  - vm_compute. reflexivity.
  - reflexivity.
Defined.

Lemma alert_init_history_error_witness :
  @alert_init outflow_only_provider usdc_provider webhooks_ok 3 example_world
    (mkBody (Some "u1") (Some "0xCCC") None) example_latest 1005000 ["id1"] =
  Some (mkWorld (initAlertDefinitions ∅ "u1" "0xccc" None 1005000 ["id1"]) ∅ ∅ ∅, mkResponse 500 "Unknown error").
Proof.
  apply (@alert_init_history_error outflow_only_provider usdc_provider webhooks_ok 3 example_world "u1" "0xCCC" None
           example_latest 1005000 ["id1"] "Not enough transfers found in the last 5m").
  vm_compute. reflexivity.
Defined.

Lemma initAlertDefinitions_idempotent_witness :
  (List.length (userAlertDocs ∅ "u1" "0xccc") < searchLimit)%nat ∧ ["id1"] ≠ [] ∧
  initAlertDefinitions (initAlertDefinitions ∅ "u1" "0xccc" None 1005000 ["id1"]) "u1" "0xccc" (Some "vault")
    2000000 ["id2"] = initAlertDefinitions ∅ "u1" "0xccc" None 1005000 ["id1"].
Proof.
  split; [vm_compute; lia|]. split; [discriminate|].
  apply initAlertDefinitions_idempotent; [vm_compute; lia | discriminate].
Defined.

End Init.
