(* ===== verification/EasyTrigger.v ===== *)
(** * Easy triggers: [POST /easy-trigger/:triggerId] and [executeTrigger]

    Models the handler of src/routes/easy-trigger/index.ts (lines 35-97)
    with its helpers [addHttps] and [checkIfDomainInAllowlist], the store
    functions of src/plugins/db/easy-trigger.ts ([getEasyTrigger],
    [addEasyTriggerNotification]) and [executeTrigger] of
    src/plugins/web3-interactions/index.ts.

    The handler reads the caller's domain from the [x-forwarded-host]
    header, or else [host]; looks the trigger up; when the trigger's
    allowlist is active, compares the domain with the host (and non-default
    port) of every allowlist entry; calls the trigger manager contract when
    the trigger is active; and stores a notification.  Its result is the
    new [TWorld] and the answer, or the rejection of the async handler
    (Express 4 does not turn it into a response).

    The WHATWG [URL] class is the interface [URLParser] ([new URL(s)] gives
    the [hostname] and the [port], or throws); the theorems that need its
    behaviour assume the law [url_plain_host] for plain host names.  The
    ethers contract call is the interface [ChainProvider]. *)

From S2P Require Import Prelude JsString.
From Stdlib Require Import Ascii.

Module EasyTrigger.

Local Open Scope string_scope.

(** ** The store of src/plugins/db/easy-trigger.ts *)

(** [EasyTrigger]. *)
Record EasyTriggerDoc := mkTrigger {
  et_id : option string;
  et_name : string;
  et_contractAddress : string;
  allowlistActive : bool;
  allowlist : list string;
  et_userId : string;
  et_network : string;
  et_createdAt : option Z;
  isActive : bool
}.

(** [Partial<EasyTriggerNotification>]. *)
Record Notification := mkNotification {
  n_id : option string;
  callerUrl : option string;
  verifiedDomain : option bool;
  triggeredContract : option bool;
  n_createdAt : option Z;
  n_triggerId : option string;
  n_userId : option string;
  n_body : option string;
  manuallyTriggered : option bool;
  n_network : option string;
  transactionHash : option string;
  seen : option bool
}.

Definition emptyNotification : Notification :=
  mkNotification None None None None None None None None None None None None.

(** The Redis documents the route reads and writes, and the transactions
    it has sent: network, target, hash. *)
Record TWorld := mkTWorld {
  triggers : gmap string EasyTriggerDoc;
  notifications : gmap string Notification;
  sent : list (string * string * string)
}.

(** [getEasyTrigger(triggerId)]: the document, with [id] set. *)
Definition getEasyTrigger (w : TWorld) (triggerId : string) : option EasyTriggerDoc :=
  (λ t, mkTrigger (Some triggerId) (et_name t) (et_contractAddress t) (allowlistActive t)
          (allowlist t) (et_userId t) (et_network t) (et_createdAt t) (isActive t))
  <$> triggers w !! ("easyTrigger:" +:+ triggerId).

(** [addEasyTriggerNotification(notification)] with [randomUUID()] = [id]
    and the time [now]. *)
Definition addEasyTriggerNotification (w : TWorld) (n : Notification) (id : string) (now : Z) : TWorld :=
  let n' := mkNotification (Some id) (callerUrl n) (verifiedDomain n) (triggeredContract n)
              (Some now) (n_triggerId n) (n_userId n) (n_body n) (manuallyTriggered n)
              (n_network n) (transactionHash n) (Some false) in
  mkTWorld (triggers w) (<[("easyTriggerNotification:" +:+ id) := n']> (notifications w)) (sent w).

(** ** [executeTrigger] of src/plugins/web3-interactions/index.ts *)

(** The RPC endpoints of the environment. *)
Record Env := mkEnv { RPC_GEORLI_URL : string; RPC_SEPOLIA_URL : string; RPC_URL : string }.

Definition TRIGGER_MAX_GAS : Z := 200000.

(** [triggerManager.executeTriggerOf.send(target, {gasLimit})] on the
    chain behind an RPC URL: the transaction hash. *)
Class ChainProvider := {
  executeTriggerOf : string → string → Z → outcome string
}.

Definition rpcFor (env : Env) (network : string) : string :=
  if decide (network = "Goerli") then RPC_GEORLI_URL env
  else if decide (network = "Sepolia") then RPC_SEPOLIA_URL env
  else RPC_URL env.

Definition executeTrigger `{ChainProvider} (env : Env) (contractAddress network : string) : outcome string :=
  if decide (contractAddress = "") then throw "No contract address provided"
  else if decide (network = "" ∨ network ∉ ["Goerli"; "Mainnet"; "Sepolia"]) then
    throw "No network provided, or wrong network provided. Possible opions: Goerli, Mainnet"
  else executeTriggerOf (rpcFor env network) contractAddress TRIGGER_MAX_GAS.

(** ** The allowlist check *)

(** [new URL(s)]: [hostname] and [port] ([""] for none or the scheme's
    default), or a [TypeError]. *)
Class URLParser := {
  parseURL : string → outcome (string * string)
}.

(** [/^(?:f|ht)tps?\:\/\//.test(url)] *)
Definition has_scheme (url : string) : bool :=
  String.prefix "http://" url || String.prefix "https://" url ||
  String.prefix "ftp://" url || String.prefix "ftps://" url.

(** [addHttps(url)] *)
Definition addHttps (url : string) : string :=
  if has_scheme url then url else "http://" +:+ url.

(** The domain an allowlist entry stands for: [hostname], and [:port]
    when there is a port. *)
Definition allowedDomain `{URLParser} (url : string) : outcome string :=
  '(hostname, port) ← parseURL (addHttps url);
  Ok (if decide (port = "") then hostname else hostname +:+ ":" +:+ port).

(** [checkIfDomainInAllowlist(domain, allowlist)] *)
Definition checkIfDomainInAllowlist `{URLParser} (domain : string) (allowlist : list string) : outcome bool :=
  allowedDomains ← mapM allowedDomain allowlist;
  Ok (bool_decide (domain ∈ allowedDomains)).

(** ** The route *)

Record Headers := mkHeaders { x_forwarded_host : option string; host : option string }.

Record Response := mkResponse { status : Z; body : string }.

(** [(a || b) as string], and whether it is truthy. *)
Definition domainOf (hd : Headers) : option string :=
  match x_forwarded_host hd with
  | Some d => if decide (d = "") then host hd else Some d
  | None => host hd
  end.

Definition trigger_error (m : string) : Response := mkResponse 500 m.

Section Route.
Context `{URLParser} `{ChainProvider}.

(** The handler, given the route parameter, the headers,
    [JSON.stringify(req.body)], the [randomUUID()] of the notification and
    the time. *)
Definition easy_trigger_route (env : Env) (w : TWorld) (triggerId : string) (hd : Headers)
    (bodyJson uuid : string) (now : Z) : TWorld * outcome Response :=
  match domainOf hd with
  | None | Some "" => (w, Ok (trigger_error "Can only call easy trigger via HTTP"))
  | Some domainName =>
      if decide (triggerId = "") then (w, Ok (trigger_error "Missing triggerId"))
      else match getEasyTrigger w triggerId with
      | None => (w, Ok (trigger_error "Easy trigger not found"))
      | Some trigger =>
          let allowed := if allowlistActive trigger then checkIfDomainInAllowlist domainName (allowlist trigger)
                         else Ok true in
          match allowed with
          | Throw m => (w, Throw m)
          | Ok false => (w, Ok (trigger_error "Domain not in allowlist"))
          | Ok true =>
              let base := mkNotification None (Some domainName) (Some (allowlistActive trigger)) None None
                            (Some triggerId) (Some (et_userId trigger)) (Some bodyJson)
                            (Some (bool_decide (domainName = "app.dereg.io"))) None None None in
              let called :=
                if isActive trigger then
                  hash ← executeTrigger env (et_contractAddress trigger) (et_network trigger);
                  Ok (mkNotification None (callerUrl base) (verifiedDomain base) (Some true) None
                        (n_triggerId base) (n_userId base) (n_body base) (manuallyTriggered base)
                        (Some (et_network trigger)) (Some hash) None,
                      [(et_network trigger, et_contractAddress trigger, hash)])
                else
                  Ok (mkNotification None (callerUrl base) (verifiedDomain base) (Some false) None
                        (n_triggerId base) (n_userId base) (n_body base) (manuallyTriggered base)
                        None None None, [])
              in
              match called with
              | Throw m => (w, Throw m)
              | Ok (n, tx) =>
                  let w1 := mkTWorld (triggers w) (notifications w) (sent w ++ tx) in
                  (addEasyTriggerNotification w1 n uuid now, Ok (mkResponse 200 "Easy trigger called"))
              end
          end
      end
  end.

End Route.

(** ** Plain host names *)

Definition host_char (c : ascii) : bool :=
  let n := nat_of_ascii c in
  Nat.leb 48 n && Nat.leb n 57 || Nat.leb 65 n && Nat.leb n 90 || Nat.leb 97 n && Nat.leb n 122 ||
  Nat.eqb n 45 || Nat.eqb n 46.

Definition is_letter (c : ascii) : bool :=
  let n := nat_of_ascii c in Nat.leb 65 n && Nat.leb n 90 || Nat.leb 97 n && Nat.leb n 122.

Fixpoint host_chars (s : string) : bool :=
  match s with "" => true | String c s' => host_char c && host_chars s' end.

(** A host name the WHATWG parser keeps as it is, up to ASCII case: ASCII
    letters, digits, [-] and [.], no label of the punycode form [xn--], and
    a last label that starts with a letter (so it is no IPv4 number). *)
Definition plain_host (h : string) : bool :=
  host_chars h &&
  match last (js_split "." h) with Some (String c _) => is_letter c | _ => false end &&
  forallb (λ l, negb (String.prefix "xn--" (lower l))) (js_split "." h).

Lemma host_chars_colon s : host_chars s = true → has_char ":" s = false.
Proof.
  induction s as [|c s IH]; [done|]. cbn [has_char host_chars]. intros [Hc Hs]%andb_prop.
  destruct (ascii_dec ":" c) as [<-|_]; [vm_compute in Hc; discriminate | by apply IH].
Qed.

Lemma prefix_has_char c p s : String.prefix p s = true → has_char c p = true → has_char c s = true.
Proof.
  revert s. induction p as [|d p IH]; intros [|e s]; simpl; try done.
  destruct (ascii_dec d e) as [<-|]; [|done]. intros Hp.
  destruct (ascii_dec c d); [done|]. auto.
Qed.

Lemma plain_host_no_scheme h : plain_host h = true → has_scheme h = false.
Proof.
  intros Hh. apply andb_prop in Hh as [Hh _]. apply andb_prop in Hh as [Hh _].
  apply host_chars_colon in Hh.
  unfold has_scheme. repeat apply orb_false_intro;
    (destruct (String.prefix _ h) eqn:Hp; [|done]);
    (rewrite (prefix_has_char ":" _ _ Hp) in Hh; [discriminate | reflexivity]).
Qed.

Lemma plain_host_nonempty h : plain_host h = true → h ≠ "".
Proof. intros Hh ->. discriminate. Qed.

Lemma lower_nonempty h : h ≠ "" → lower h ≠ "".
Proof. by destruct h. Qed.

Section PlainHosts.
Context `{URLParser}.

(** [new URL('http://' + h)] of a plain host name: its lower case, no port. *)
Hypothesis url_plain_host : ∀ h, plain_host h = true → parseURL ("http://" +:+ h) = Ok (lower h, "").

Lemma allowedDomain_plain h : plain_host h = true → allowedDomain h = Ok (lower h).
Proof.
  intros Hh. unfold allowedDomain, addHttps. rewrite plain_host_no_scheme, url_plain_host by done.
  done.
Qed.

Lemma allowedDomains_plain l :
  Forall (λ a, plain_host a = true) l → mapM allowedDomain l = Ok (lower <$> l).
Proof.
  induction 1 as [|a l Ha _ IH]; [done|]. simpl. by rewrite allowedDomain_plain, IH.
Qed.

Context `{ChainProvider}.

(** C34: The allowlist does not authenticate the caller.  The domain it
    checks is the client-supplied [x-forwarded-host] header: any request
    that sends the (lower-cased) name of an allowlisted host in it, whatever
    host it really came from, passes the check, sends the trigger
    transaction and is recorded as coming from a verified domain. *)
Theorem easy_trigger_forwarded_host_bypass env w tid hostHeader bodyJson uuid now t h hash :
  triggers w !! ("easyTrigger:" +:+ tid) = Some t → tid ≠ "" →
  allowlistActive t = true → isActive t = true →
  Forall (λ a, plain_host a = true) (allowlist t) → h ∈ allowlist t →
  executeTrigger env (et_contractAddress t) (et_network t) = Ok hash →
  ∃ n, easy_trigger_route env w tid (mkHeaders (Some (lower h)) hostHeader) bodyJson uuid now =
         (mkTWorld (triggers w) (<[("easyTriggerNotification:" +:+ uuid) := n]> (notifications w))
            (sent w ++ [(et_network t, et_contractAddress t, hash)]),
          Ok (mkResponse 200 "Easy trigger called")) ∧
       verifiedDomain n = Some true ∧ callerUrl n = Some (lower h) ∧ transactionHash n = Some hash.
Proof.
  intros Ht Htid Hal Hact Hplain Hh Hex.
  assert (Hne : lower h ≠ "") by (apply lower_nonempty, plain_host_nonempty, (proj1 (Forall_forall _ _) Hplain h Hh)).
  eexists. unfold easy_trigger_route, domainOf. simpl. rewrite decide_False by done.
  destruct (lower h) as [|c0 s0] eqn:Hl; [done|]. rewrite <- Hl.
  rewrite decide_False by done. unfold getEasyTrigger. rewrite Ht. simpl.
  rewrite Hal. unfold checkIfDomainInAllowlist. rewrite allowedDomains_plain by done. simpl.
  rewrite bool_decide_true by (by apply list_elem_of_fmap_2). rewrite Hact, Hex. simpl.
  by split.
Qed.

End PlainHosts.

(** Every path through the handler, with the binds of the contract call
    split. *)
Ltac route_cases :=
  unfold easy_trigger_route;
  repeat (case_match; simplify_eq/=);
  repeat match goal with H : _ ≫= _ = Ok _ |- _ => apply outcome_bind_Ok_inv in H as (? & ? & ?) end;
  simplify_eq/=.

Section Outcomes.
Context `{URLParser} `{ChainProvider}.

(** The handler never changes the triggers, and a request whose handler
    rejects changes nothing. *)
Lemma easy_trigger_route_footprint env w tid hd bodyJson uuid now w' r :
  easy_trigger_route env w tid hd bodyJson uuid now = (w', r) →
  triggers w' = triggers w ∧ dom (notifications w) ⊆ dom (notifications w') ∧ (∀ m, r = Throw m → w' = w).
Proof.
  route_cases. all: intros [= <- <-]; split_and!; [done | first [done | simpl; auto with alerthub] | by intros ? ?].
Qed.

(** C35: Every request either is answered "Easy trigger called" after
    storing exactly one notification, unseen and naming its trigger, under
    the fresh id, or writes nothing and sends nothing: every guard that
    fails, the allowlist check that throws and the contract call that
    fails leave the world as it was.  The triggers are never changed. *)
Theorem easy_trigger_outcomes env w tid hd bodyJson uuid now w' r :
  easy_trigger_route env w tid hd bodyJson uuid now = (w', r) →
  triggers w' = triggers w ∧
  ((r = Ok (mkResponse 200 "Easy trigger called") ∧
    ∃ n, notifications w' = <[("easyTriggerNotification:" +:+ uuid) := n]> (notifications w) ∧
         seen n = Some false ∧ n_triggerId n = Some tid) ∨
   (w' = w ∧ r ≠ Ok (mkResponse 200 "Easy trigger called"))).
Proof.
  route_cases. all: intros [= <- <-].
  all: first [ split; [done | right; split; [done | discriminate]]
             | split; [done | left; split; [done | eexists; split_and!; reflexivity]] ].
Qed.

End Outcomes.

(** ** Witnesses *)

(** A parser of [http://] followed by a host name and nothing else: it
    satisfies the law [url_plain_host]. *)
Definition plain_url_parser : URLParser := {|
  parseURL s := if String.prefix "http://" s then Ok (lower (sdrop 7 s), "")
                else throw "TypeError: Invalid URL"
|}.

Lemma plain_url_parser_law h :
  plain_host h = true → @parseURL plain_url_parser ("http://" +:+ h) = Ok (lower h, "").
Proof.
  intros _. simpl. rewrite prefix_app. by rewrite string_app_nil_l.
Qed.

Definition example_chain : ChainProvider := {| executeTriggerOf _ _ _ := Ok "0xt1" |}.

Definition example_env : Env := mkEnv "https://goerli.rpc" "https://sepolia.rpc" "https://mainnet.rpc".

Definition example_trigger : EasyTriggerDoc :=
  mkTrigger None "vault pause" "0xccc" true ["dereg.io"] "u1" "Sepolia" None true.

Definition example_tworld : TWorld := mkTWorld {[ "easyTrigger:t1" := example_trigger ]} ∅ [].

Lemma easy_trigger_forwarded_host_bypass_witness :
  ∃ n, @easy_trigger_route plain_url_parser example_chain example_env example_tworld "t1"
         (mkHeaders (Some "dereg.io") (Some "attacker.example")) "{}" "n1" 5 =
       (mkTWorld (triggers example_tworld)
          (<[("easyTriggerNotification:" +:+ "n1") := n]> (notifications example_tworld))
          (sent example_tworld ++ [("Sepolia", "0xccc", "0xt1")]),
        Ok (mkResponse 200 "Easy trigger called")) ∧
       verifiedDomain n = Some true ∧ callerUrl n = Some "dereg.io" ∧ transactionHash n = Some "0xt1".
Proof.
  apply (@easy_trigger_forwarded_host_bypass plain_url_parser plain_url_parser_law example_chain
           example_env example_tworld "t1" (Some "attacker.example") "{}" "n1" 5 example_trigger "dereg.io" "0xt1").
  - reflexivity.
  - discriminate.
  - reflexivity.
  - reflexivity.
  - repeat constructor.
  - left.
  - reflexivity.
Defined.


Lemma easy_trigger_outcomes_witness :
  triggers example_tworld = triggers example_tworld ∧
  ((Ok (mkResponse 500 "Easy trigger not found") = Ok (mkResponse 200 "Easy trigger called") ∧
    ∃ n, notifications example_tworld =
         <[("easyTriggerNotification:" +:+ "n1") := n]> (notifications example_tworld) ∧
         seen n = Some false ∧ n_triggerId n = Some "t9") ∨
   (example_tworld = example_tworld ∧
    Ok (mkResponse 500 "Easy trigger not found") ≠ Ok (mkResponse 200 "Easy trigger called"))).
Proof.
  apply (@easy_trigger_outcomes plain_url_parser example_chain example_env example_tworld "t9"
           (mkHeaders (Some "dereg.io") None) "{}" "n1" 5).
  vm_compute. reflexivity.
Defined.

End EasyTrigger.
