(* ===== verification/App.v ===== *)
(** * The application: src/app.ts and src/routes/index.ts

    [app.ts] creates the Express app, installs [express.json({ limit:
    '50mb' })] in front of everything, and [initRoutes]
    (src/routes/index.ts) mounts the three routers: [/easy-trigger]
    ([router.post('/:triggerId')]), [/alchemy]
    ([router.post('/address-activity')] and
    [router.post('/create-address-activity')]) and [/alert]
    ([router.post('/init')]).  [app] is one request through that stack,
    over the state the routers share ([AppState]: the stores of [Init]'s
    [World] and the easy-trigger store).

    Express's matching, as the mounts and routes use it: paths are matched
    case-insensitively, one trailing slash is accepted (no strict routing),
    the literal segments are compared with the raw path, and the
    [:triggerId] parameter is one non-empty segment, passed through
    [decodeURIComponent] (a Section variable here; a decoding error is a
    400).  A request no route takes gets the 404 of Express's final
    handler.  [express.json] runs before the routers for every request: a
    body larger than the limit is a 413, a JSON body that does not parse a
    400, and a request that is not JSON gets the body [{}].

    Requests are handled one at a time here, so the webhook handler's two
    registry reads (before and after its 100 ms wait) see the same registry;
    the interleavings of concurrent requests are the subject of [Registry]'s
    Section [Concurrent]. *)

From S2P Require Import Prelude JsString BlockTiming Transfers Tvl Registry Webhook Fetcher Init EasyTrigger.
From Stdlib Require Import Ascii.

Module App.

Import BlockTiming Transfers Tvl Registry Webhook Fetcher Init EasyTrigger.

Local Open Scope string_scope.

(** ** Requests *)

(** [req.body] as the handlers read it: [{ userId, contractAddress, name }]
    for [/alert/init]; [webhookId], [event.activity] and [createdAt] for
    the webhook ([None] when [event] is missing, so that
    [data.event.activity] throws); [JSON.stringify(req.body)] for the easy
    trigger. *)
Record ReqBody := mkReqBody {
  rb_init : InitBody;
  rb_update : option AddressActivityUpdate;
  rb_json : string
}.

(** The body [express.json] gives a request that is not JSON: [{}]. *)
Definition emptyBody : ReqBody := mkReqBody (mkBody None None None) None "{}".

(** A request: method, [req.path] (the query string removed), headers,
    whether the content type is JSON, the body's length in bytes, and the
    JSON value of the body ([None] when it does not parse). *)
Record Request := mkRequest {
  method : string;
  path : string;
  req_headers : Headers;
  isJson : bool;
  contentLength : Z;
  parsed : option ReqBody
}.

(** What the client receives: a status and a text, or nothing at all when
    the async handler rejects (Express 4 does not catch a rejected
    promise, and the request is left without a response). *)
Definition Reply := option (Z * string).

(** [express.json({ limit: '50mb' })]: the body, or the error response. *)
Definition JSON_LIMIT : Z := (50 * 1024 * 1024)%Z.

Definition parseBody (r : Request) : ReqBody + (Z * string) :=
  if isJson r then
    if bool_decide (JSON_LIMIT < contentLength r)%Z then inr (413%Z, "Payload Too Large")
    else match parsed r with Some b => inl b | None => inr (400%Z, "Bad Request") end
  else inl emptyBody.

(** ** Routing *)

Inductive Route :=
| RInit
| RAddressActivity
| RCreateAddressActivity
| REasyTrigger (param : string).

(** A literal segment matches case-insensitively. *)
Definition seg_is (s lit : string) : bool := bool_decide (lower s = lit).

(** One trailing slash is accepted: [/alert/init/] is [/alert/init]. *)
Definition trim_slash (segs : list string) : list string :=
  match segs with [m; r; ""] => [m; r] | _ => segs end.

(** The mounts of [initRoutes] and the routes of their routers.  Every
    route is a mount point and one segment below it. *)
Definition route (p : string) : option Route :=
  match js_split "/" p with
  | "" :: segs =>
      match trim_slash segs with
      | [m; r] =>
          if seg_is m "easy-trigger" then (if decide (r = "") then None else Some (REasyTrigger r))
          else if seg_is m "alchemy" then
            (if seg_is r "address-activity" then Some RAddressActivity
             else if seg_is r "create-address-activity" then Some RCreateAddressActivity else None)
          else if seg_is m "alert" then (if seg_is r "init" then Some RInit else None)
          else None
      | _ => None
      end
  | _ => None
  end.

(** Every route is [router.post]. *)
Definition route_of (r : Request) : option Route :=
  if bool_decide (method r = "POST") then route (path r) else None.

(** ** The state and the inputs of a request *)

Record AppState := mkApp { world : World; tworld : TWorld }.

(** What a request reads from outside the process: fuel for the history's
    paging, the provider's latest block, the clock, the [randomUUID()]
    values of [/alert/init] and of the easy-trigger notification. *)
Record Inputs := mkInputs {
  in_fuel : nat;
  in_latest : outcome Block;
  in_now : Z;
  in_uuids : list string;
  in_uuid : string
}.

Section App.
Context `{TransferProvider} `{BalanceProvider} `{WebhookProvider} `{URLParser} `{ChainProvider}.
Variable env : Env.
Variable decodeURIComponent : string → option string.
Context `{AssetTransferStore}.

Definition init_reply (r : Init.Response) : Reply := Some (Init.status r, Init.body r).

Definition trigger_reply (r : outcome EasyTrigger.Response) : Reply :=
  match r with Ok r => Some (EasyTrigger.status r, EasyTrigger.body r) | Throw _ => None end.

(** The handler a route selects, on the parsed body; [None] when the
    history's paging ran out of fuel. *)
Definition dispatch (inp : Inputs) (s : AppState) (r : Request) (b : ReqBody) (rt : Route)
    : option (AppState * Reply) :=
  match rt with
  | RInit =>
      match alert_init (in_fuel inp) (world s) (rb_init b) (in_latest inp) (in_now inp) (in_uuids inp) with
      | Some (w', resp) => Some (mkApp w' (tworld s), init_reply resp)
      | None => None
      end
  | RAddressActivity =>
      let w := world s in
      match rb_update b with
      | None => Some (s, None)
      | Some data =>
          match address_activity (registry w) (registry w) (assetTransfers w) data with
          | Ok st => Some (mkApp (mkWorld (alerts w) st (registry w) (objects w)) (tworld s), Some (200%Z, "ok"))
          | Throw _ => Some (s, None)
          end
      end
  | RCreateAddressActivity => Some (s, init_reply create_address_activity)
  | REasyTrigger p =>
      match decodeURIComponent p with
      | None => Some (s, Some (400%Z, "Bad Request"))
      | Some triggerId =>
          let '(tw', resp) := easy_trigger_route env (tworld s) triggerId (req_headers r) (rb_json b)
                                (in_uuid inp) (in_now inp) in
          Some (mkApp (world s) tw', trigger_reply resp)
      end
  end.

(** One request through [express.json], the mounts and the handler. *)
Definition app (inp : Inputs) (s : AppState) (r : Request) : option (AppState * Reply) :=
  match parseBody r with
  | inr err => Some (s, Some err)
  | inl b =>
      match route_of r with
      | Some rt => dispatch inp s r b rt
      | None => Some (s, Some (404%Z, "Cannot " +:+ method r +:+ " " +:+ path r))
      end
  end.

(** ** Footprints *)

(** A JSON [POST] within the limit. *)
Definition post (p : string) (hd : Headers) (b : ReqBody) : Request := mkRequest "POST" p hd true 0 (Some b).

Lemma parseBody_post p hd b : parseBody (post p hd b) = inl b.
Proof. reflexivity. Qed.

(** C36: What each route may write.  A request whose body [express.json]
    rejects, that no route takes, or whose handler rejects (the client gets
    no response) changes nothing; [/alert/init] leaves the easy-trigger
    store alone; the webhook writes the transfer store only;
    [/create-address-activity] writes nothing; the easy trigger writes only
    the easy-trigger store, and never its triggers. *)
Theorem app_footprint inp s r s' rep :
  app inp s r = Some (s', rep) →
  (rep = None → s' = s) ∧
  match route_of r with
  | Some RInit => tworld s' = tworld s
  | Some RAddressActivity =>
      tworld s' = tworld s ∧ alerts (world s') = alerts (world s) ∧
      registry (world s') = registry (world s) ∧ objects (world s') = objects (world s)
  | Some RCreateAddressActivity => s' = s
  | Some (REasyTrigger _) => world s' = world s ∧ triggers (tworld s') = triggers (tworld s)
  | None => s' = s
  end.
Proof.
  destruct s as [w tw]. unfold app.
  destruct (parseBody r) as [b|err].
  2: { intros [= <- <-]. split; [done|]. by destruct (route_of r) as [[]|]. }
  destruct (route_of r) as [[| | |p]|]; simpl.
  - destruct (alert_init _ _ _ _ _ _) as [[w' resp]|]; [|done]. by intros [= <- <-].
  - destruct (rb_update b) as [data|]; [|by intros [= <- <-]].
    destruct (address_activity _ _ _ _); by intros [= <- <-].
  - by intros [= <- <-].
  - destruct (decodeURIComponent p) as [tid|]; [|by intros [= <- <-]].
    destruct (easy_trigger_route _ _ _ _ _ _ _) as [tw' resp] eqn:E. intros [= <- <-].
    destruct (easy_trigger_route_footprint _ _ _ _ _ _ _ _ _ E) as (Ht & _ & Hth).
    split; [|done]. destruct resp as [|m]; [discriminate|]. intros _. by rewrite (Hth m).
  - by intros [= <- <-].
Qed.

(** ** Every reachable state *)

(** One request, whatever its inputs and its reply. *)
Definition app_step (s s' : AppState) : Prop := ∃ inp r rep, app inp s r = Some (s', rep).

(** [s'] keeps everything [s] holds: no alert definition, transfer
    record, monitored contract or notification is deleted, no transfer
    object changes, and the triggers are the same. *)
Definition grows (s s' : AppState) : Prop :=
  dom (alerts (world s)) ⊆ dom (alerts (world s')) ∧
  dom (assetTransfers (world s)) ⊆ dom (assetTransfers (world s')) ∧
  dom (registry (world s)) ⊆ dom (registry (world s')) ∧
  objects (world s) ⊆ objects (world s') ∧
  triggers (tworld s') = triggers (tworld s) ∧
  dom (notifications (tworld s)) ⊆ dom (notifications (tworld s')).

Lemma grows_refl s : grows s s.
Proof. by split_and!. Qed.

Lemma grows_trans s1 s2 s3 : grows s1 s2 → grows s2 s3 → grows s1 s3.
Proof.
  intros (?&?&?&?&?&?) (?&?&?&?&?&?).
  split_and!; first [etrans; eassumption | congruence].
Qed.

(** One request makes the state grow and keeps a well-formed registry
    well-formed. *)
Lemma app_step_grows inp s r s' rep :
  app inp s r = Some (s', rep) →
  grows s s' ∧ (wf_store (registry (world s)) → wf_store (registry (world s'))).
Proof.
  destruct s as [w tw]. unfold app.
  assert (Hsame : ∀ x, Some (mkApp w tw, x) = Some (s', rep) →
            grows (mkApp w tw) s' ∧ (wf_store (registry (world (mkApp w tw))) → wf_store (registry (world s'))))
    by (intros ? [= <- <-]; split; [apply grows_refl | done]).
  destruct (parseBody r) as [b|err]; [|apply Hsame].
  destruct (route_of r) as [[| | |p]|]; simpl; [| | apply Hsame | | apply Hsame].
  - destruct (alert_init _ _ _ _ _ _) as [[w' resp]|] eqn:E; [|done]. intros [= <- <-].
    destruct (alert_init_grows _ _ _ _ _ _ _ _ E) as (? & ? & ? & ? & ?). by split; [split_and!|].
  - destruct (rb_update b) as [data|]; [|apply Hsame].
    destruct (address_activity _ _ _ _) as [st|] eqn:E; [|apply Hsame]. intros [= <- <-].
    apply address_activity_grows in E. by split; [split_and!|].
  - destruct (decodeURIComponent p) as [tid|]; [|apply Hsame].
    destruct (easy_trigger_route _ _ _ _ _ _ _) as [tw' resp] eqn:E. intros [= <- <-].
    destruct (easy_trigger_route_footprint _ _ _ _ _ _ _ _ _ E) as (Ht & Hn & _).
    by split; [split_and!|].
Qed.

(** C28: The stores are append-only.  Along every sequence of requests
    from a state with a well-formed registry, whatever their inputs: no
    alert definition, transfer record, monitored contract or easy-trigger
    notification is ever deleted, no transfer object changes once it is
    allocated, the triggers never change, and the registry stays
    well-formed (every contract with a non-empty, duplicate-free list of
    users), as the specification's ownership rules require. *)
Theorem app_reachable_grows s0 s :
  wf_store (registry (world s0)) → rtc app_step s0 s →
  grows s0 s ∧ wf_store (registry (world s)).
Proof.
  intros Hwf. apply (rtc_ind_r (λ s, grows s0 s ∧ wf_store (registry (world s)))).
  - split; [apply grows_refl | done].
  - intros s1 s2 _ (inp & r & rep & E) [Hg Hw].
    destruct (app_step_grows _ _ _ _ _ E) as [Hg' Hw']. split; [by eapply grows_trans | auto].
Qed.

(** ** From registration to ingestion *)

(** C6: The data flow of the specification, through the app.  When the
    history of a contract is fetched and its webhook is created with a new
    id, a [POST /alert/init] for it is answered 200 "ok"; a webhook delivery
    for that id is then resolved to the contract at the first lookup and
    answered 200 "ok", and the transfer store holds the fetched history
    with the delivered batch, normalised against the lower-cased address,
    written over it. *)
Theorem watch_then_ingest inp1 inp2 s hd1 hd2 b1 b2 u c0 name h te wh data batch :
  rb_init b1 = mkBody (Some u) (Some c0) name → rb_update b2 = Some data →
  wf_store (registry (world s)) →
  getTransferEvents (in_fuel inp1) (objects (world s)) (lower c0) "5m" (in_latest inp1) (in_now inp1) =
    Some (Ok (h, te)) →
  createWebhook (lower c0) = Ok wh → wh ≠ "" → has_char ":"%char (lower c0) = false →
  (∀ k d, registry (world s) !! k = Some d → k ≠ keyOf (lower c0) → alchemyWebhookId d ≠ Some wh) →
  webhookId data = wh →
  mapM (normalize (Some (lower c0)) (u_createdAt data)) (filter (λ e, nonZero e = true) (activity data)) =
    Ok batch →
  ∃ s1 s2,
    app inp1 s (post "/alert/init" hd1 b1) = Some (s1, Some (200%Z, "ok")) ∧
    app inp2 s1 (post "/alchemy/address-activity" hd2 b2) = Some (s2, Some (200%Z, "ok")) ∧
    assetTransfers (world s2) =
      addAssetTransfersWithLastTvl
        (addAssetTransfers (addAssetTransfers (assetTransfers (world s)) (lower c0) (deref h (te_inflow te)))
           (lower c0) (deref h (te_outflow te)))
        (Some (lower c0)) batch ∧
    objects (world s2) = h ∧ tworld s2 = tworld s.
Proof.
  intros Hb1 Hb2 Hwf Hte Hwh Hne Hc Hother Hid Hbatch.
  destruct (upsert_doc_wf (registry (world s) !! keyOf (lower c0)) u (Some wh) (in_now inp1)) as (r & Hr & _).
  { intros d Hd. by apply (Hwf (keyOf (lower c0))). }
  set (db' := match r with Some d => <[keyOf (lower c0) := d]> (registry (world s)) | None => registry (world s) end).
  assert (Hadd : addMonitoredContract (registry (world s)) (lower c0) u (Some wh) (in_now inp1) = Ok db')
    by (unfold addMonitoredContract; by rewrite Hr).
  destruct (add_webhook_lookup _ _ _ _ _ _ Hne Hc Hother Hadd) as (d & ids & Hl & _).
  set (st1 := addAssetTransfers (addAssetTransfers (assetTransfers (world s)) (lower c0) (deref h (te_inflow te)))
                (lower c0) (deref h (te_outflow te))).
  set (w1 := mkWorld (initAlertDefinitions (alerts (world s)) u (lower c0) name (in_now inp1) (in_uuids inp1))
               st1 db' h).
  exists (mkApp w1 (tworld s)),
         (mkApp (mkWorld (alerts w1) (addAssetTransfersWithLastTvl st1 (Some (lower c0)) batch) db' h) (tworld s)).
  split_and!; [| |done..].
  - unfold app. rewrite parseBody_post. simpl. rewrite Hb1, alert_init_valid. simpl.
    by rewrite Hte, Hwh, Hadd.
  - unfold app. rewrite parseBody_post. simpl. rewrite Hb2. cbn [world registry assetTransfers].
    unfold address_activity, resolve.
    destruct (filter _ (activity data)) as [|e es] eqn:Hf.
    + simpl in Hbatch. injection Hbatch as <-. by rewrite addAssetTransfers_nil.
    + rewrite Hid, Hl. cbv iota beta. rewrite outcome_bind_ok. cbn [contractAddress]. by rewrite Hbatch.
Qed.

End App.

(** ** Witnesses *)

#[local] Existing Instance keyed_store.

Definition example_app : AppState := mkApp example_world example_tworld.

Definition example_inputs : Inputs := mkInputs 3 example_latest 1005000 ["id1"] "n1".

(** [POST /easy-trigger/t1] with the allowlisted name in the
    client-supplied header. *)
Definition example_trigger_request : Request :=
  post "/easy-trigger/t1" (mkHeaders (Some "dereg.io") (Some "attacker.example")) emptyBody.

Lemma app_footprint_witness :
  ∃ s', @app history_provider usdc_provider webhooks_ok plain_url_parser example_chain example_env
          (λ p, Some p) keyed_store example_inputs example_app example_trigger_request =
          Some (s', Some (200%Z, "Easy trigger called")) ∧
        world s' = world example_app ∧ triggers (tworld s') = triggers (tworld example_app).
Proof.
  destruct (@app history_provider usdc_provider webhooks_ok plain_url_parser example_chain example_env
              (λ p, Some p) keyed_store example_inputs example_app example_trigger_request) as [[s' rep]|] eqn:E;
    [|vm_compute in E; discriminate].
  destruct (@app_footprint history_provider usdc_provider webhooks_ok plain_url_parser example_chain
              example_env (λ p, Some p) keyed_store example_inputs example_app example_trigger_request s' rep E) as [_ Hm].
  assert (Hrep : rep = Some (200%Z, "Easy trigger called")) by (vm_compute in E; congruence).
  assert (Hr : route_of example_trigger_request = Some (REasyTrigger "t1")) by reflexivity.
  rewrite Hr in Hm. subst rep. by exists s'.
Defined.

Definition example_init_body : ReqBody := mkReqBody (mkBody (Some "u1") (Some "0xCCC") None) None "{}".

Definition example_delivery : AddressActivityUpdate := example_update "wh_1" [token_log "0x13f"].

Definition example_delivery_body : ReqBody := mkReqBody (mkBody None None None) (Some example_delivery) "{}".

Definition example_batch : list CleanTransfers :=
  ok_or [] (mapM (normalize (Some "0xccc") (u_createdAt example_delivery))
                 (filter (λ e, nonZero e = true) (activity example_delivery))).

Lemma watch_then_ingest_witness :
  ∃ s1 s2,
    @app history_provider usdc_provider webhooks_ok plain_url_parser example_chain example_env (λ p, Some p) keyed_store
      example_inputs example_app (post "/alert/init" (mkHeaders None None) example_init_body) =
      Some (s1, Some (200%Z, "ok")) ∧
    @app history_provider usdc_provider webhooks_ok plain_url_parser example_chain example_env (λ p, Some p) keyed_store
      example_inputs s1 (post "/alchemy/address-activity" (mkHeaders None None) example_delivery_body) =
      Some (s2, Some (200%Z, "ok")) ∧
    assetTransfers (world s2) =
      addAssetTransfersWithLastTvl
        (addAssetTransfers (addAssetTransfers ∅ "0xccc" (deref example_events.1 (te_inflow example_events.2)))
           "0xccc" (deref example_events.1 (te_outflow example_events.2)))
        (Some "0xccc") example_batch.
Proof.
  destruct (@watch_then_ingest history_provider usdc_provider webhooks_ok plain_url_parser example_chain
              example_env (λ p, Some p) keyed_store example_inputs example_inputs example_app (mkHeaders None None)
              (mkHeaders None None) example_init_body example_delivery_body "u1" "0xCCC" None
              example_events.1 example_events.2 "wh_1" example_delivery example_batch)
    as (s1 & s2 & H1 & H2 & Hst & _).
  - reflexivity.
  - reflexivity.
  - intros k d Hk. cbn [registry world example_app example_world] in Hk. by rewrite lookup_empty in Hk.
  - vm_compute. reflexivity.
  - reflexivity.
  - discriminate.
  - reflexivity.
  - intros k d Hk. cbn [registry world example_app example_world] in Hk. by rewrite lookup_empty in Hk.
  - reflexivity.
  - vm_compute. reflexivity.
  - exists s1, s2. split_and!; [exact H1 | exact H2 | exact Hst].
Defined.


Lemma app_reachable_grows_witness :
  ∃ s1 s2,
    @app history_provider usdc_provider webhooks_ok plain_url_parser example_chain example_env (λ p, Some p) keyed_store
      example_inputs example_app (post "/alert/init" (mkHeaders None None) example_init_body) =
      Some (s1, Some (200%Z, "ok")) ∧
    @app history_provider usdc_provider webhooks_ok plain_url_parser example_chain example_env (λ p, Some p) keyed_store
      example_inputs s1 example_trigger_request = Some (s2, Some (200%Z, "Easy trigger called")) ∧
    grows example_app s2 ∧ wf_store (registry (world s2)).
Proof.
  destruct (@app history_provider usdc_provider webhooks_ok plain_url_parser example_chain example_env
              (λ p, Some p) keyed_store example_inputs example_app (post "/alert/init" (mkHeaders None None) example_init_body))
    as [[s1 rep1]|] eqn:E1; [|vm_compute in E1; discriminate].
  destruct (@app history_provider usdc_provider webhooks_ok plain_url_parser example_chain example_env
              (λ p, Some p) keyed_store example_inputs s1 example_trigger_request) as [[s2 rep2]|] eqn:E2;
    [|revert E2; injection E1 as <- _; vm_compute; discriminate].
  assert (Hr1 : rep1 = Some (200%Z, "ok")) by (vm_compute in E1; congruence).
  assert (Hr2 : rep2 = Some (200%Z, "Easy trigger called"))
    by (revert E2; injection E1 as <- _; vm_compute; congruence).
  subst rep1 rep2.
  destruct (@app_reachable_grows history_provider usdc_provider webhooks_ok plain_url_parser example_chain
              example_env (λ p, Some p) keyed_store example_app s2) as [Hg Hw].
  - intros k d Hk. cbn [registry world example_app example_world] in Hk. by rewrite lookup_empty in Hk.
  - eapply rtc_l; [exists example_inputs, (post "/alert/init" (mkHeaders None None) example_init_body); eexists; exact E1|].
    eapply rtc_l; [exists example_inputs, example_trigger_request; eexists; exact E2 | apply rtc_refl].
  - exists s1, s2. by split_and!.
Defined.

End App.
